(** * IICP protocol integrity analysis and performance simulation

    A shallow embedding of [protocol_integrity_analysis.py]: the
    [ProtocolIntegrityAnalyzer] class (consistency checks over the hardcoded
    opcode, header and version tables) and the [IICPNeuralNetworkSimulator]
    class (message latency and success simulation, the large-scale run and
    the build-pipeline run).

    Conventions of the embedding.
    - Python [int] is [Z]; Python [float] is modelled by the exact rationals
      [Q] (decimal literals such as [0.001] denote the rational they spell);
      the theorems below that compare rationals use [==] and [<=] of [Q].
    - A method is a computation in a state-and-exception monad: it receives
      the object (and, for the simulator, the random source and clock), and
      returns either a value or the exception it raised, together with the
      state reached.  An exception keeps the state reached when it was
      raised, as an uncaught Python exception does.
    - [print] calls are not modelled. *)

From Stdlib Require Import ZArith QArith Qminmax Qround HexString String List Lia.
From Stdlib Require Import Orders Sorting.Mergesort Lqa.
From Stdlib Require Import Ascii DecimalString DecimalPos DecimalN.
From stdpp Require Import base gmap sets list strings.

Set Warnings "-clear-no-such-hyp".
Local Open Scope Z_scope.

(** ** Exceptions and the method monad *)

Inductive exn : Type :=
| IndexError
| KeyError
| ValueError
| ZeroDivisionError.

Inductive result (A : Type) : Type :=
| Ok (a : A)
| Raise (e : exn).
Arguments Ok {A} a.
Arguments Raise {A} e.

(** A computation over a state [S] yielding an [A] or raising. *)
Definition M (S A : Type) : Type := S → result A * S.

Definition ret {S A} (a : A) : M S A := λ s, (Ok a, s).
Definition raise {S A} (e : exn) : M S A := λ s, (Raise e, s).
Definition bind {S A B} (m : M S A) (k : A → M S B) : M S B :=
  λ s, match m s with
       | (Ok a, s') => k a s'
       | (Raise e, s') => (Raise e, s')
       end.
Definition gets {S A} (f : S → A) : M S A := λ s, (Ok (f s), s).
Definition modify {S} (f : S → S) : M S unit := λ s, (Ok tt, f s).

Declare Scope method_scope.
Delimit Scope method_scope with method.
Notation "x <- m ;; k" := (bind m (λ x, k))
  (at level 100, m at next level, right associativity) : method_scope.
Notation "m ;;; k" := (bind m (λ _, k))
  (at level 100, right associativity) : method_scope.
Local Open Scope method_scope.

(** [for x in xs: body], with the loop's local variables threaded as [L]. *)
Fixpoint for_fold {S A L} (xs : list A) (body : A → L → M S L) (locals : L)
  : M S L :=
  match xs with
  | [] => ret locals
  | x :: rest => locals' <- body x locals ;; for_fold rest body locals'
  end.

(** ** Python built-ins used by the program *)

(** [range(lo, hi)] *)
Definition py_range (lo hi : Z) : list Z := seqZ lo (hi - lo).

(** [hex(n)] *)
Definition py_hex (n : Z) : string := HexString.of_Z n.

(** [repr] of a string without quotes or escapes in it, as [hex] yields. *)
Definition py_repr_str (s : string) : string := "'" +:+ s +:+ "'".

(** [str(n)] for an [n] that is not negative: its decimal digits. *)
Definition py_digits (n : N) : string := NilZero.string_of_uint (N.to_uint n).

Fixpoint zeros (n : nat) : string :=
  match n with
  | O => ""
  | S n => "0" +:+ zeros n
  end.

(** [format(i, "0<width>d")], as [f"{i:04d}"] for [width = 4]: the decimal
    digits, filled with zeros on the left up to [width] characters; the sign
    of a negative [i] comes first and counts in the width. *)
Definition py_format_0d (width : nat) (i : Z) : string :=
  let digits := py_digits (Z.abs_N i) in
  if i <? 0
  then "-" +:+ zeros (width - 1 - String.length digits) +:+ digits
  else zeros (width - String.length digits) +:+ digits.

(** [str] of a list of strings, as an f-string renders it. *)
Definition py_str_list (l : list string) : string :=
  "[" +:+ String.concat ", " (py_repr_str <$> l) +:+ "]".

(** [max(a, b)] and [min(a, b)] on numbers: the first argument is kept
    unless the second is strictly greater (resp. smaller). *)
Definition Qlt_bool (a b : Q) : bool := negb (Qle_bool b a).
Definition py_max (a b : Q) : Q := if Qlt_bool a b then b else a.
Definition py_min (a b : Q) : Q := if Qlt_bool b a then b else a.

(** [a / b] (true division), which raises on a zero divisor. *)
Definition py_truediv {S} (a b : Q) : M S Q :=
  if Qeq_bool b 0 then raise ZeroDivisionError else ret (a / b)%Q.

(** [a // b] on integers; [Z.div] rounds towards minus infinity as Python
    does. *)
Definition py_floordiv {S} (a b : Z) : M S Z :=
  if b =? 0 then raise ZeroDivisionError else ret (a / b).

(** [len(d)], [sum(d.values())] and [all(d.values())] of a [Dict[str, bool]];
    [True] counts as 1. *)
Definition py_len_dict (d : gmap string bool) : Z := Z.of_nat (size d).
Definition py_sum_values (d : gmap string bool) : Z :=
  map_fold (λ _ b acc, Z.b2z b + acc) 0 d.

(** ** A set that is iterated: CPython's table

    Where the program only asks a set for its length, for membership or for
    equality, the set is a [gset].  One set is iterated,
    [expected_range - actual_opcodes], and the order of an iteration is the
    order of the slots of the open-addressing table CPython keeps the set in.
    [PySet] follows [setobject.c] for the keys that occur there, the integers
    of [range(0x01, 0x0F)]: such an integer is its own hash.  A slot holds a
    key or nothing; a key that is discarded leaves its slot to no later
    insertion here, so that the slot counts as empty. *)
Module PySet.

Definition table : Type := list (option Z).

Definition MINSIZE : nat := 8.
Definition LINEAR_PROBES : Z := 9.
Definition PERTURB_SHIFT : Z := 5.

Definition empty : table := replicate MINSIZE None.

Definition mask (t : table) : Z := Z.of_nat (length t) - 1.

(** The keys in the order of their slots: the order of iteration. *)
Definition iter (t : table) : list Z := omap id t.

Definition used (t : table) : Z := Z.of_nat (length (iter t)).

(** The first of the slots [i], [i + 1], ..., [i + probes] that holds [key]
    or nothing. *)
Definition linear_probe (t : table) (key : Z) (i probes : Z) : option nat :=
  list_find (λ j, t !! j = Some None ∨ t !! j = Some (Some key))
    (Z.to_nat <$> seqZ i (probes + 1)) ≫= λ found, Some found.2.

(** The probe sequence of [set_add_entry]: from slot [i] on, the next
    [LINEAR_PROBES] slots if they all lie in the table, then the slot
    [(5 i + 1 + perturb) & mask] with [perturb] shifted by [PERTURB_SHIFT].
    CPython loops until it finds a slot; [fuel] bounds the rounds. *)
Fixpoint find_slot (fuel : nat) (t : table) (key : Z) (i perturb : Z)
  : option nat :=
  match fuel with
  | O => None
  | S fuel =>
      let probes :=
        if i + LINEAR_PROBES <=? mask t then LINEAR_PROBES else 0 in
      match linear_probe t key i probes with
      | Some j => Some j
      | None =>
          let perturb := Z.shiftr perturb PERTURB_SHIFT in
          find_slot fuel t key (Z.land (i * 5 + 1 + perturb) (mask t)) perturb
      end
  end.

Definition slot_of (t : table) (key : Z) : option nat :=
  find_slot (length t + 64) t key (Z.land key (mask t)) key.

(** [set_insert_clean] *)
Definition insert_clean (t : table) (key : Z) : table :=
  match slot_of t key with
  | Some j => <[j := Some key]> t
  | None => t
  end.

(** The size [set_table_resize] chooses: the first power of two above
    [minused], from [MINSIZE] on. *)
Fixpoint table_size (fuel : nat) (newsize : nat) (minused : Z) : nat :=
  match fuel with
  | O => newsize
  | S fuel =>
      if Z.of_nat newsize <=? minused
      then table_size fuel (2 * newsize) minused
      else newsize
  end.

(** [set_table_resize]: the keys are put into the new table in the order of
    their slots. *)
Definition table_resize (t : table) (minused : Z) : table :=
  fold_left insert_clean (iter t)
    (replicate (table_size 64 MINSIZE minused) None).

(** [set_add_entry]: a key that is new takes the slot found, and the table
    is resized once it is three fifths full. *)
Definition add (t : table) (key : Z) : table :=
  match slot_of t key with
  | Some j =>
      match t !! j with
      | Some None =>
          let t' := <[j := Some key]> t in
          if used t' * 5 <? mask t' * 3 then t'
          else table_resize t'
                 (if 50000 <? used t' then used t' * 2 else used t' * 4)
      | _ => t
      end
  | None => t
  end.

(** [set(iterable)] *)
Definition of_list (l : list Z) : table := fold_left add l empty.

(** [so - other] for a set [other]: when [so] is more than four times as
    large, a copy of [so] from which the keys of [other] are discarded;
    otherwise a new set to which the keys of [so] that are not in [other] are
    added, in the order of the slots of [so]. *)
Definition difference (so : table) (other : gset Z) : table :=
  if Z.of_nat (size other) <? Z.shiftr (used so) 2
  then (λ slot, match slot with
                | Some key => if decide (key ∈ other) then None else Some key
                | None => None
                end) <$> so
  else fold_left (λ result key, if decide (key ∈ other) then result
                                else add result key)
         (iter so) empty.

End PySet.

(** ** Enumerations and data classes *)

Inductive MessageType : Type :=
| INIT | ACK | DISCOVER | SUB_PROTOCOL | CALL | RESPONSE | CLOSE
| FEEDBACK | PING | PONG | CONTROL | ADVERTISE | OBSERVE | TELEMETRY.

Definition MessageType_value (m : MessageType) : Z :=
  match m with
  | INIT => 0x01 | ACK => 0x02 | DISCOVER => 0x03 | SUB_PROTOCOL => 0x04
  | CALL => 0x05 | RESPONSE => 0x06 | CLOSE => 0x07 | FEEDBACK => 0x08
  | PING => 0x09 | PONG => 0x0A | CONTROL => 0x0B | ADVERTISE => 0x0C
  | OBSERVE => 0x0D | TELEMETRY => 0x0E
  end.

(** [list(MessageType)] *)
Definition MessageType_members : list MessageType :=
  [INIT; ACK; DISCOVER; SUB_PROTOCOL; CALL; RESPONSE; CLOSE;
   FEEDBACK; PING; PONG; CONTROL; ADVERTISE; OBSERVE; TELEMETRY].

Inductive QoSClass : Type := REALTIME | INTERACTIVE | BATCH.

Definition QoSClass_value (q : QoSClass) : string :=
  match q with
  | REALTIME => "realtime"
  | INTERACTIVE => "interactive"
  | BATCH => "batch"
  end.

Inductive TransportHint : Type := QUIC | QUDAG | DUAL.

Definition TransportHint_value (t : TransportHint) : string :=
  match t with QUIC => "quic" | QUDAG => "qudag" | DUAL => "dual" end.

(** [list(QoSClass)] and [list(TransportHint)] *)
Definition QoSClass_members : list QoSClass := [REALTIME; INTERACTIVE; BATCH].
Definition TransportHint_members : list TransportHint := [QUIC; QUDAG; DUAL].

#[global] Instance MessageType_eq_dec : EqDecision MessageType.
Proof. solve_decision. Defined.
#[global] Instance QoSClass_eq_dec : EqDecision QoSClass.
Proof. solve_decision. Defined.
#[global] Instance TransportHint_eq_dec : EqDecision TransportHint.
Proof. solve_decision. Defined.

Record PerformanceMetrics : Type := {
  latency_ms : Q;
  success_rate : Q;
  throughput_msg_per_sec : Q;
  error_count : Z;
  cpu_utilization : Q;
  memory_usage_mb : Q
}.

Record Agent : Type := {
  agent_id : string;
  region : string;
  supported_intents : list string;
  performance_class : QoSClass;
  transport_pref : TransportHint;
  load_factor : Q;
  last_heartbeat : Q
}.

(** ** ProtocolIntegrityAnalyzer *)

Module Analyzer.

Record ProtocolIntegrityAnalyzer : Type := {
  issues : list string;
  validation_results : gmap string bool
}.

(** [__init__] *)
Definition init : ProtocolIntegrityAnalyzer :=
  {| issues := []; validation_results := ∅ |}.

(** [self.issues.append(msg)] *)
Definition issues_append (msg : string) : M ProtocolIntegrityAnalyzer unit :=
  modify (λ self, {| issues := issues self ++ [msg];
                     validation_results := validation_results self |}).

(** The [expected_opcodes] dict literal, in insertion order. *)
Definition expected_opcodes : list (MessageType * Z) :=
  [(INIT, 0x01); (ACK, 0x02); (DISCOVER, 0x03); (SUB_PROTOCOL, 0x04);
   (CALL, 0x05); (RESPONSE, 0x06); (CLOSE, 0x07); (FEEDBACK, 0x08);
   (PING, 0x09); (PONG, 0x0A); (CONTROL, 0x0B); (ADVERTISE, 0x0C);
   (OBSERVE, 0x0D); (TELEMETRY, 0x0E)].

(** The body of [analyze_message_consistency] for a given opcode table (a
    dict keyed by [MessageType], listed in insertion order).  A Python set is
    a [gset] where its elements are all that is asked for; [missing] is
    iterated too, in the order of the slots of its table [missing_table]. *)
Definition analyze_message_consistency_of
    (expected_opcodes : list (MessageType * Z))
  : M ProtocolIntegrityAnalyzer (gmap string bool) :=
  let consistency_check : gmap string bool :=
    <["completeness" := true]>
      (<["range_validity" := true]> (<["opcode_uniqueness" := true]> ∅)) in
  (* Check opcode uniqueness *)
  let opcodes : list Z := expected_opcodes.*2 in
  consistency_check <-
    (if negb (length opcodes =? size (list_to_set opcodes : gset Z))%nat
     then issues_append "Duplicate opcodes found in message type definitions" ;;;
          ret (<["opcode_uniqueness" := false]> consistency_check)
     else ret consistency_check) ;;
  (* Check range validity (0x01-0x0E) *)
  consistency_check <-
    for_fold opcodes
      (λ opcode consistency_check,
         if negb ((0x01 <=? opcode) && (opcode <=? 0x0E))
         then issues_append ("Opcode " +:+ py_hex opcode +:+ " outside valid range") ;;;
              ret (<["range_validity" := false]> consistency_check)
         else ret consistency_check)
      consistency_check ;;
  (* Check completeness (no gaps) *)
  let expected_range : gset Z := list_to_set (py_range 0x01 0x0F) in
  let actual_opcodes : gset Z := list_to_set opcodes in
  consistency_check <-
    (if bool_decide (actual_opcodes ≠ expected_range)
     then
       let missing := expected_range ∖ actual_opcodes in
       let missing_table :=
         PySet.difference (PySet.of_list (py_range 0x01 0x0F)) actual_opcodes in
       if bool_decide (missing ≠ ∅)
       then issues_append ("Missing opcodes: " +:+ py_str_list (py_hex <$> PySet.iter missing_table)) ;;;
            ret (<["completeness" := false]> consistency_check)
       else ret consistency_check
     else ret consistency_check) ;;
  ret consistency_check.

Definition analyze_message_consistency
  : M ProtocolIntegrityAnalyzer (gmap string bool) :=
  analyze_message_consistency_of expected_opcodes.

Definition analyze_header_field_consistency
  : M ProtocolIntegrityAnalyzer (gmap string bool) :=
  (* Core required headers for each message type (not read afterwards) *)
  let required_headers : list (MessageType * list string) :=
    [(INIT, ["agent_id"; "intent"; "transport_pref"; "min_version"; "max_version"]);
     (CALL, ["intent"; "trace_id"; "X-IICP-Auth-Method"]);
     (RESPONSE, ["code"; "trace_id"]);
     (PING, ["intent"; "trace_id"; "X-IICP-TTL"]);
     (PONG, ["intent"; "trace_id"; "X-IICP-TTL"])] in
  let header_consistency : gmap string bool :=
    <["required_coverage" := true]>
      (<["type_consistency" := true]> (<["naming_convention" := true]> ∅)) in
  (* Check X-IICP prefix consistency *)
  let iicp_headers : list string :=
    ["X-IICP-TTL"; "X-IICP-Hash"; "X-IICP-Lock"; "X-IICP-Transport-Hint";
     "X-IICP-Trace-Hash"; "X-IICP-Auth-Method"; "X-IICP-Retry-Policy";
     "X-IICP-Routing-Hint"; "X-IICP-Scheduling-Hint"] in
  header_consistency <-
    for_fold iicp_headers
      (λ header header_consistency,
         if negb (String.prefix "X-IICP-" header)
         then issues_append ("Header " +:+ header +:+ " doesn't follow X-IICP- convention") ;;;
              ret (<["naming_convention" := false]> header_consistency)
         else ret header_consistency)
      header_consistency ;;
  ret header_consistency.

Definition analyze_version_compatibility
  : M ProtocolIntegrityAnalyzer (gmap string bool) :=
  let version_check : gmap string bool :=
    <["forward_compatibility" := true]>
      (<["backward_compatibility" := true]> (<["range_validity" := true]> ∅)) in
  (* IICP v1.4.2 should support versions 0x09-0x0E (9-14) *)
  let min_version := 0x09 in
  let max_version := 0x0E in
  let current_version := 0x0E in
  version_check <-
    (if min_version >=? max_version
     then issues_append "Invalid version range: min >= max" ;;;
          ret (<["range_validity" := false]> version_check)
     else ret version_check) ;;
  version_check <-
    (if (current_version <? min_version) || (current_version >? max_version)
     then issues_append "Current version outside supported range" ;;;
          ret (<["range_validity" := false]> version_check)
     else ret version_check) ;;
  ret version_check.

Definition calculate_integrity_score : M ProtocolIntegrityAnalyzer Q :=
  message_consistency <- analyze_message_consistency ;;
  header_consistency <- analyze_header_field_consistency ;;
  version_compatibility <- analyze_version_compatibility ;;
  let total_checks :=
    py_len_dict message_consistency + py_len_dict header_consistency
    + py_len_dict version_compatibility in
  let passed_checks :=
    py_sum_values message_consistency + py_sum_values header_consistency
    + py_sum_values version_compatibility in
  ratio <- py_truediv (inject_Z passed_checks) (inject_Z total_checks) ;;
  let integrity_score := (ratio * 100)%Q in
  ret integrity_score.

(** The [iicp_headers] list literal. *)
Definition iicp_headers : list string :=
  ["X-IICP-TTL"; "X-IICP-Hash"; "X-IICP-Lock"; "X-IICP-Transport-Hint";
   "X-IICP-Trace-Hash"; "X-IICP-Auth-Method"; "X-IICP-Retry-Policy";
   "X-IICP-Routing-Hint"; "X-IICP-Scheduling-Hint"].

(** The body of [analyze_header_field_consistency] for a given list of
    designated headers. *)
Definition analyze_header_field_consistency_of (iicp_headers : list string)
  : M ProtocolIntegrityAnalyzer (gmap string bool) :=
  let header_consistency : gmap string bool :=
    <["required_coverage" := true]>
      (<["type_consistency" := true]> (<["naming_convention" := true]> ∅)) in
  (* Check X-IICP prefix consistency *)
  header_consistency <-
    for_fold iicp_headers
      (λ header header_consistency,
         if negb (String.prefix "X-IICP-" header)
         then issues_append ("Header " +:+ header +:+ " doesn't follow X-IICP- convention") ;;;
              ret (<["naming_convention" := false]> header_consistency)
         else ret header_consistency)
      header_consistency ;;
  ret header_consistency.

(** The body of [analyze_version_compatibility] for given version numbers. *)
Definition analyze_version_compatibility_of
    (min_version max_version current_version : Z)
  : M ProtocolIntegrityAnalyzer (gmap string bool) :=
  let version_check : gmap string bool :=
    <["forward_compatibility" := true]>
      (<["backward_compatibility" := true]> (<["range_validity" := true]> ∅)) in
  version_check <-
    (if min_version >=? max_version
     then issues_append "Invalid version range: min >= max" ;;;
          ret (<["range_validity" := false]> version_check)
     else ret version_check) ;;
  version_check <-
    (if (current_version <? min_version) || (current_version >? max_version)
     then issues_append "Current version outside supported range" ;;;
          ret (<["range_validity" := false]> version_check)
     else ret version_check) ;;
  ret version_check.

(** The body of [calculate_integrity_score] over the three checks run on
    given tables. *)
Definition calculate_integrity_score_of
    (expected_opcodes : list (MessageType * Z)) (iicp_headers : list string)
    (min_version max_version current_version : Z)
  : M ProtocolIntegrityAnalyzer Q :=
  message_consistency <- analyze_message_consistency_of expected_opcodes ;;
  header_consistency <- analyze_header_field_consistency_of iicp_headers ;;
  version_compatibility <-
    analyze_version_compatibility_of min_version max_version current_version ;;
  let total_checks :=
    py_len_dict message_consistency + py_len_dict header_consistency
    + py_len_dict version_compatibility in
  let passed_checks :=
    py_sum_values message_consistency + py_sum_values header_consistency
    + py_sum_values version_compatibility in
  ratio <- py_truediv (inject_Z passed_checks) (inject_Z total_checks) ;;
  let integrity_score := (ratio * 100)%Q in
  ret integrity_score.

End Analyzer.


(** ** numpy arrays and the numpy functions used by the simulator *)

(** A two-dimensional [ndarray]: its shape and its row-major buffer. *)
Record ndarray2 : Type := {
  nrows : nat;
  ncols : nat;
  data : list Q
}.

Definition entry (W : ndarray2) (i j : nat) : Q :=
  nth (i * ncols W + j) (data W) 0%Q.

Definition Qsum (v : list Q) : Q := foldr Qplus 0%Q v.

(** [np.dot(x, W)] for a vector [x] and a matrix [W]: component [j] is the
    sum over [i] of [x[i] * W[i, j]]; shapes that do not align raise
    [ValueError]. *)
Definition np_dot (x : list Q) (W : ndarray2) : result (list Q) :=
  if (length x =? nrows W)%nat
  then Ok ((λ j, Qsum (imap (λ i xi, xi * entry W i j)%Q x)) <$> seq 0 (ncols W))
  else Raise ValueError.

(** [np.maximum(0, v)], elementwise. *)
Definition np_maximum0 (v : list Q) : list Q :=
  (λ a, if Qlt_bool 0 a then a else 0%Q) <$> v.

(** [np.mean(v)].  On an empty vector numpy yields [nan]; the rational model
    yields [0] there ([0 / 0] is [0] in [Q]).  The one caller passes the
    mean to [max(0.001, _)], which answers [0.001] for either. *)
Definition np_mean (v : list Q) : Q :=
  (Qsum v / inject_Z (Z.of_nat (length v)))%Q.

Module QOrder <: TotalLeBool.

Definition t := Q.
Definition leb := Qle_bool.
Infix "<=?" := leb (at level 70, no associativity).

Theorem leb_total : ∀ a1 a2, leb a1 a2 = true ∨ leb a2 a1 = true.
Proof.
  intros a1 a2. unfold leb.
  destruct (Qlt_le_dec a1 a2) as [Hlt | Hle].
  - left. apply Qle_bool_iff. apply Qlt_le_weak. exact Hlt.
  - right. apply Qle_bool_iff. exact Hle.
Qed.

End QOrder.

Module QSort := Sort QOrder.

(** [np.percentile(a, q)] with the default linear interpolation, for a
    non-empty [a] (the program never passes an empty one). *)
Definition np_percentile (a : list Q) (q : Q) : Q :=
  let s := QSort.sort a in
  let n := Z.of_nat (length s) in
  let h := (inject_Z (n - 1) * q / 100)%Q in
  let lo := Qfloor h in
  let hi := Z.min (lo + 1) (n - 1) in
  let frac := (h - inject_Z lo)%Q in
  let a_lo := nth (Z.to_nat lo) s 0%Q in
  let a_hi := nth (Z.to_nat hi) s 0%Q in
  (a_lo + (a_hi - a_lo) * frac)%Q.

(** [np.median(a)] for a non-empty [a]. *)
Definition np_median (a : list Q) : Q :=
  let s := QSort.sort a in
  let n := length s in
  if Nat.even n
  then ((nth (n / 2 - 1) s 0%Q + nth (n / 2) s 0%Q) / 2)%Q
  else nth (n / 2) s 0%Q.

(** ** The random source and the clock

    The program draws from Python's [random] module, from numpy's global
    generator and reads [time.time()].  All three are abstracted by one
    environment: an arbitrary state with a raw integer output (from which
    [random.random()] and the index of [random.choice] are derived), a
    standard normal deviate and a clock reading.  Quantifying over the
    environment and its state covers every seed. *)
Class Environment (G : Type) : Type := {
  next_raw : G → N * G;
  next_gauss : G → Q * G;
  next_time : G → Q * G
}.

(** ** IICPNeuralNetworkSimulator *)

(** A router is a dict with six fixed keys; the fields below are its keys
    ['router_id'], ['region'], ['queue_depth'], ['processed_messages'],
    ['error_count'] and ['cpu_utilization']. *)
Record Router : Type := {
  router_id : string;
  router_region : string;
  queue_depth : Z;
  processed_messages : Z;
  router_error_count : Z;
  router_cpu_utilization : Q
}.

(** [self.nn_weights], a dict with three fixed keys. *)
Record NNWeights : Type := {
  latency_prediction : ndarray2;
  load_balancing : ndarray2;
  failure_prediction : ndarray2
}.

Record IICPNeuralNetworkSimulator : Type := {
  num_agents : Z;
  num_routers : Z;
  regions : list string;
  agents : list Agent;
  routers : list Router;
  metrics_history : list PerformanceMetrics;
  simulation_time : Q;
  nn_weights : NNWeights
}.

(** The equality a [@dataclass] generates: field by field. *)
Definition Agent_eq (a b : Agent) : bool :=
  bool_decide (agent_id a = agent_id b)
  && bool_decide (region a = region b)
  && bool_decide (supported_intents a = supported_intents b)
  && bool_decide (performance_class a = performance_class b)
  && bool_decide (transport_pref a = transport_pref b)
  && Qeq_bool (load_factor a) (load_factor b)
  && Qeq_bool (last_heartbeat a) (last_heartbeat b).

(** The locals of [run_large_scale_simulation] that its loop updates. *)
Record LargeScaleLocals : Type := {
  total_messages : Z;
  total_latency : Q;
  successful_messages : Z;
  ls_error_count : Z;
  latencies : list Q
}.

(** The locals of [run_build_system_simulation] that its loop updates. *)
Record BuildLocals : Type := {
  total_builds : Z;
  successful_builds : Z;
  build_latencies : list Q
}.

(** What a method of the simulator runs in: the object and the environment. *)
Record World (G : Type) : Type := {
  self : IICPNeuralNetworkSimulator;
  env : G
}.
Arguments self {G} w.
Arguments env {G} w.

Section Simulator.
Context {G : Type} `{Environment G}.

Abbreviation Method := (M (World G)).

(** *** Drawing from the environment *)

Definition draw_raw : Method N :=
  λ w, let (k, g) := next_raw (env w) in (Ok k, {| self := self w; env := g |}).

Definition draw_gauss : Method Q :=
  λ w, let (z, g) := next_gauss (env w) in (Ok z, {| self := self w; env := g |}).

(** [time.time()] *)
Definition time_time : Method Q :=
  λ w, let (t, g) := next_time (env w) in (Ok t, {| self := self w; env := g |}).

(** [random.random()]: a multiple of [2^-53] in [[0, 1)]. *)
Definition random_random : Method Q :=
  k <- draw_raw ;;
  ret (Z.of_N (k mod 2 ^ 53) # 2 ^ 53)%Q.

(** [random.uniform(a, b)] is [a + (b - a) * random()]. *)
Definition random_uniform (a b : Q) : Method Q :=
  u <- random_random ;;
  ret (a + (b - a) * u)%Q.

(** [random.choice(seq)]: an index below [len(seq)]; an empty [seq] raises
    [IndexError]. *)
Definition random_choice {A} (seq : list A) : Method A :=
  match seq with
  | [] => raise IndexError
  | x :: _ =>
      k <- draw_raw ;;
      ret (nth (N.to_nat (k mod N.of_nat (length seq))) seq x)
  end.

(** [np.random.normal(loc, scale)]; a negative [scale] raises [ValueError]. *)
Definition np_random_normal (loc scale : Q) : Method Q :=
  if Qlt_bool scale 0 then raise ValueError
  else z <- draw_gauss ;; ret (loc + scale * z)%Q.

(** [n] standard normal deviates, in the order drawn. *)
Fixpoint draw_gausses (n : nat) : Method (list Q) :=
  match n with
  | O => ret []
  | S n => z <- draw_gauss ;; zs <- draw_gausses n ;; ret (z :: zs)
  end.

(** [np.random.normal(loc, scale, (rows, cols))]: the buffer is filled in
    row-major order. *)
Definition np_random_normal_shape (loc scale : Q) (rows cols : nat)
  : Method ndarray2 :=
  if Qlt_bool scale 0 then raise ValueError
  else
    zs <- draw_gausses (rows * cols) ;;
    ret {| nrows := rows; ncols := cols;
           data := (λ z, loc + scale * z)%Q <$> zs |}.

(** [random.randint(a, b)]: [a] plus an index below [b - a + 1]; an empty
    range raises [ValueError]. *)
Definition random_randint (a b : Z) : Method Z :=
  if b <? a then raise ValueError
  else k <- draw_raw ;; ret (a + Z.of_N k mod (b - a + 1)).

(** One round of [random.sample] over its pool: of the [n - i] slots still
    live, one is drawn for the result and refilled with the last live one. *)
Definition sample_round {A} (n : nat) (i : Z) (locals : list A * list A)
  : Method (list A * list A) :=
  let (pool, result) := locals in
  let live := (n - Z.to_nat i)%nat in
  k <- draw_raw ;;
  let j := N.to_nat (k mod N.of_nat live) in
  match pool !! j, pool !! (live - 1)%nat with
  | Some chosen, Some last_live =>
      ret (<[j := last_live]> pool, result ++ [chosen])
  | _, _ => raise IndexError
  end.

(** [random.sample(population, k)] on a short population (up to 21 elements
    CPython selects from a pool, as here); a [k] outside [0 .. n] raises
    [ValueError]. *)
Definition random_sample {A} (population : list A) (k : Z) : Method (list A) :=
  let n := length population in
  if (k <? 0) || (Z.of_nat n <? k) then raise ValueError
  else
    locals <- for_fold (py_range 0 k) (sample_round n) (population, []) ;;
    ret locals.2.

(** Indexing a dict literal by a string key. *)
Definition dict_getitem (d : gmap string Q) (k : string) : Method Q :=
  match d !! k with
  | Some v => ret v
  | None => raise KeyError
  end.

Definition lift {A} (r : result A) : Method A := λ w, (r, w).

(** *** The methods *)

(** [self.agents.append(agent)] and [self.routers.append(router)] *)
Definition agents_append (agent : Agent) : Method unit :=
  modify (λ w,
    {| self :=
         {| num_agents := num_agents (self w);
            num_routers := num_routers (self w);
            regions := regions (self w);
            agents := agents (self w) ++ [agent];
            routers := routers (self w);
            metrics_history := metrics_history (self w);
            simulation_time := simulation_time (self w);
            nn_weights := nn_weights (self w) |};
       env := env w |}).

Definition routers_append (router : Router) : Method unit :=
  modify (λ w,
    {| self :=
         {| num_agents := num_agents (self w);
            num_routers := num_routers (self w);
            regions := regions (self w);
            agents := agents (self w);
            routers := routers (self w) ++ [router];
            metrics_history := metrics_history (self w);
            simulation_time := simulation_time (self w);
            nn_weights := nn_weights (self w) |};
       env := env w |}).

Definition intent_types : list string :=
  ["urn:iicp:intent:code:lint:v1.4.2";
   "urn:iicp:intent:doc:summarize:v1.0";
   "urn:iicp:intent:fraud:detect:v1.0";
   "urn:iicp:intent:build:rust:v2.1";
   "urn:iicp:intent:build:python:v3.2"].

(** The statements of the loop of [_initialize_agents], for agent [i]; the
    arguments of [Agent(...)] are evaluated from left to right. *)
Definition initialize_agent (i : Z) (_ : unit) : Method unit :=
  regions <- gets (λ w, regions (self w)) ;;
  region <- random_choice regions ;;
  count <- random_randint 1 3 ;;
  supported_intents <- random_sample intent_types count ;;
  performance_class <- random_choice QoSClass_members ;;
  transport_pref <- random_choice TransportHint_members ;;
  load_factor <- random_uniform (1 # 10) (8 # 10) ;;
  last_heartbeat <- time_time ;;
  let agent :=
    {| agent_id := "llm://agent-" +:+ region +:+ "-" +:+ py_format_0d 4 i;
       region := region;
       supported_intents := supported_intents;
       performance_class := performance_class;
       transport_pref := transport_pref;
       load_factor := load_factor;
       last_heartbeat := last_heartbeat |} in
  agents_append agent.

Definition _initialize_agents : Method unit :=
  num_agents <- gets (λ w, num_agents (self w)) ;;
  for_fold (py_range 0 num_agents) initialize_agent tt.

(** The statements of the loop of [_initialize_routers], for router [i]. *)
Definition initialize_router (i : Z) (_ : unit) : Method unit :=
  regions <- gets (λ w, regions (self w)) ;;
  region <- random_choice regions ;;
  cpu_utilization <- random_uniform (2 # 10) (6 # 10) ;;
  let router :=
    {| router_id := "router-" +:+ py_format_0d 3 i;
       router_region := region;
       queue_depth := 0;
       processed_messages := 0;
       router_error_count := 0;
       router_cpu_utilization := cpu_utilization |} in
  routers_append router.

Definition _initialize_routers : Method unit :=
  num_routers <- gets (λ w, num_routers (self w)) ;;
  for_fold (py_range 0 num_routers) initialize_router tt.

(** [self.nn_weights = value] *)
Definition set_nn_weights (value : NNWeights) : Method unit :=
  modify (λ w,
    {| self :=
         {| num_agents := num_agents (self w);
            num_routers := num_routers (self w);
            regions := regions (self w);
            agents := agents (self w);
            routers := routers (self w);
            metrics_history := metrics_history (self w);
            simulation_time := simulation_time (self w);
            nn_weights := value |};
       env := env w |}).

(** [__init__]: every attribute is assigned before it is read; [nn_weights]
    is assigned once its three matrices are drawn. *)
Definition __init__ (num_agents num_routers : Z) (regions : list string)
  : Method unit :=
  modify (λ w,
    {| self :=
         {| num_agents := num_agents;
            num_routers := num_routers;
            regions := regions;
            agents := [];
            routers := [];
            metrics_history := [];
            simulation_time := 0;
            nn_weights := nn_weights (self w) |};
       env := env w |}) ;;;
  (* Neural network parameters for behavior modeling *)
  latency_prediction <- np_random_normal_shape 0 (1 # 10) 10 5 ;;
  load_balancing <- np_random_normal_shape 0 (1 # 10) 8 4 ;;
  failure_prediction <- np_random_normal_shape 0 (1 # 10) 6 3 ;;
  set_nn_weights
    {| latency_prediction := latency_prediction;
       load_balancing := load_balancing;
       failure_prediction := failure_prediction |} ;;;
  _initialize_agents ;;;
  _initialize_routers.

Definition _neural_network_predict (input_vector : list Q) (weights : ndarray2)
  : Method Q :=
  (* Forward pass *)
  product <- lift (np_dot input_vector weights) ;;
  let hidden := np_maximum0 product in
  let output := np_mean hidden in
  ret (py_max (1 # 1000) output).

Definition _calculate_message_latency
    (source_region dest_region : string) (message_size_kb : Q)
    (qos_class : QoSClass) : Method Q :=
  (* Feature engineering *)
  let cross_region : Q :=
    if bool_decide (source_region ≠ dest_region) then 1%Q else 0%Q in
  qos_priority <-
    dict_getitem
      (<["batch" := (3 # 10)%Q]>
         (<["interactive" := (6 # 10)%Q]> (<["realtime" := 1%Q]> ∅)))
      (QoSClass_value qos_class) ;;
  network_load <- random_uniform (3 # 10) (9 # 10) ;;
  congestion <- random_uniform (1 # 10) (9 # 10) ;;
  efficiency <- random_uniform (8 # 10) 1 ;;
  error_rate <- random_uniform 0 (3 # 10) ;;
  simulation_time <- gets (λ w, simulation_time (self w)) ;;
  agents <- gets (λ w, agents (self w)) ;;
  network_factor <- random_uniform (5 # 10) 1 ;;
  let input_features : list Q :=
    [cross_region;
     qos_priority;
     network_load;
     py_min (message_size_kb / 100) 1;
     congestion;
     efficiency;
     error_rate;
     simulation_time / 1000;
     inject_Z (Z.of_nat (length agents)) / 25000;
     network_factor]%Q in
  (* Neural network prediction *)
  weights <- gets (λ w, latency_prediction (nn_weights (self w))) ;;
  predicted_latency <- _neural_network_predict input_features weights ;;
  (* Apply realistic scaling and bounds *)
  base_latency <-
    dict_getitem
      (<["batch" := 500%Q]>
         (<["interactive" := 150%Q]> (<["realtime" := 50%Q]> ∅)))
      (QoSClass_value qos_class) ;;
  (* Cross-region penalty *)
  base_latency <-
    (if negb (Qeq_bool cross_region 0)
     then factor <- random_uniform 2 4 ;; ret (base_latency * factor)%Q
     else ret base_latency) ;;
  (* Neural network adjustment *)
  let final_latency := (base_latency * ((5 # 10) + predicted_latency * 2))%Q in
  (* Add realistic noise *)
  noise <- np_random_normal 0 (final_latency * (1 # 10)) ;;
  ret (py_max 10 (final_latency + noise)).

Definition _simulate_message_processing
    (message_type : MessageType) (payload_size_kb : Q) : Method (Q * bool) :=
  (* Random source and destination *)
  agents <- gets (λ w, agents (self w)) ;;
  source_agent <- random_choice agents ;;
  dest_agent <- random_choice (filter (λ a, negb (Agent_eq a source_agent) = true) agents) ;;
  (* Calculate latency *)
  latency <-
    _calculate_message_latency
      (region source_agent) (region dest_agent) payload_size_kb
      (performance_class source_agent) ;;
  (* Simulate failure probability using neural network *)
  error_rate <- random_uniform 0 (1 # 10) ;;
  let failure_features : list Q :=
    [latency / 1000;
     payload_size_kb / 100;
     load_factor source_agent;
     load_factor dest_agent;
     error_rate;
     inject_Z (Z.of_nat (length agents)) / 25000]%Q in
  weights <- gets (λ w, failure_prediction (nn_weights (self w))) ;;
  failure_probability <- _neural_network_predict failure_features weights ;;
  (* Realistic failure rates *)
  draw <- random_random ;;
  let success := Qlt_bool (failure_probability * (1 # 100)) draw in
  ret (latency, success).

(** [self.simulation_time = value] *)
Definition set_simulation_time (value : Q) : Method unit :=
  modify (λ w,
    {| self :=
         {| num_agents := num_agents (self w);
            num_routers := num_routers (self w);
            regions := regions (self w);
            agents := agents (self w);
            routers := routers (self w);
            metrics_history := metrics_history (self w);
            simulation_time := value;
            nn_weights := nn_weights (self w) |};
       env := env w |}).

(** The statements of the inner loop of [run_large_scale_simulation], for
    one message. *)
Definition large_scale_message (_i : Z) (locals : LargeScaleLocals)
  : Method LargeScaleLocals :=
  message_type <- random_choice MessageType_members ;;
  payload_size <- random_uniform 1 500 ;;
  outcome <- _simulate_message_processing message_type payload_size ;;
  let (latency, success) := outcome in
  ret {| total_messages := total_messages locals + 1;
         total_latency := (total_latency locals + latency)%Q;
         successful_messages :=
           if success then successful_messages locals + 1
           else successful_messages locals;
         ls_error_count :=
           if success then ls_error_count locals
           else ls_error_count locals + 1;
         latencies := latencies locals ++ [latency] |}.

(** The statements of the outer loop, for one simulated second. *)
Definition large_scale_second (messages_per_second : Z) (second : Z)
    (locals : LargeScaleLocals) : Method LargeScaleLocals :=
  set_simulation_time (inject_Z second) ;;;
  (* Generate messages for this second *)
  for_fold (py_range 0 messages_per_second) large_scale_message locals.

(** [run_large_scale_simulation] up to the end of its loop: the start time
    and the locals the loop leaves. *)
Definition large_scale_loop (duration_seconds : Z)
  : Method (Q * LargeScaleLocals) :=
  let locals :=
    {| total_messages := 0; total_latency := 0%Q; successful_messages := 0;
       ls_error_count := 0; latencies := [] |} in
  (* Simulate message patterns *)
  messages_per_second <- py_floordiv 900000 duration_seconds ;;
  start_time <- time_time ;;
  locals <-
    for_fold (py_range 0 duration_seconds)
      (large_scale_second messages_per_second) locals ;;
  ret (start_time, locals).

Definition run_large_scale_simulation (duration_seconds : Z)
  : Method PerformanceMetrics :=
  looped <- large_scale_loop duration_seconds ;;
  let (start_time, locals) := looped in
  end_time <- time_time ;;
  let simulation_time := (end_time - start_time)%Q in
  (* Calculate metrics *)
  ratio <- py_truediv (inject_Z (successful_messages locals))
                      (inject_Z (total_messages locals)) ;;
  let success_rate := (ratio * 100)%Q in
  avg_latency <- py_truediv (total_latency locals)
                            (inject_Z (total_messages locals)) ;;
  let p95_latency := np_percentile (latencies locals) 95 in
  throughput <- py_truediv (inject_Z (total_messages locals)) simulation_time ;;
  cpu <- random_uniform 65 85 ;;
  ret {| latency_ms := p95_latency;
         success_rate := success_rate;
         throughput_msg_per_sec := throughput;
         error_count := ls_error_count locals;
         cpu_utilization := cpu;
         memory_usage_mb := 45 |}.

(** The statements of the loop of [run_build_system_simulation], for one
    build request. *)
Definition build_request (_build_id : Z) (locals : BuildLocals)
  : Method BuildLocals :=
  (* Simulate Rust/Python build pipeline *)
  rust_payload <- random_uniform 50 200 ;;
  rust <- _simulate_message_processing CALL rust_payload ;;
  let (rust_latency, rust_success) := rust in
  python_payload <- random_uniform 30 150 ;;
  python <- _simulate_message_processing CALL python_payload ;;
  let (python_latency, python_success) := python in
  let total_build_time := (rust_latency + python_latency)%Q in
  let build_success := rust_success && python_success in
  ret {| total_builds := total_builds locals + 1;
         build_latencies := build_latencies locals ++ [total_build_time];
         successful_builds :=
           if build_success then successful_builds locals + 1
           else successful_builds locals |}.

(** [run_build_system_simulation] up to the end of its loop. *)
Definition build_loop : Method BuildLocals :=
  (* Focus on build-related intents *)
  agents <- gets (λ w, agents (self w)) ;;
  let build_agents :=
    filter
      (λ a, existsb (λ intent, bool_decide (is_Some (String.index 0 "build" intent)))
                    (supported_intents a) = true)
      (take (Z.to_nat 6000) agents) in
  let build_agents :=
    if Z.of_nat (length build_agents) <? 1000 then take (Z.to_nat 6000) agents
    else build_agents in
  let locals :=
    {| total_builds := 0; successful_builds := 0; build_latencies := [] |} in
  (* Simulate 1000 build requests *)
  for_fold (py_range 0 1000) build_request locals.

Definition run_build_system_simulation : Method PerformanceMetrics :=
  locals <- build_loop ;;
  ratio <- py_truediv (inject_Z (successful_builds locals))
                      (inject_Z (total_builds locals)) ;;
  let success_rate := (ratio * 100)%Q in
  let median_latency := np_median (build_latencies locals) in
  let p95_latency := np_percentile (build_latencies locals) 95 in
  throughput <- py_truediv (inject_Z (total_builds locals)) 300 ;;
  cpu <- random_uniform 70 85 ;;
  ret {| latency_ms := median_latency;
         success_rate := success_rate;
         throughput_msg_per_sec := throughput;
         error_count := total_builds locals - successful_builds locals;
         cpu_utilization := cpu;
         memory_usage_mb := 45 |}.

(** *** The report *)

(** The attributes of an object that [__init__] has not run on yet.  None of
    these values is ever read: [__init__] assigns every attribute first. *)
Definition unset : IICPNeuralNetworkSimulator :=
  {| num_agents := 0; num_routers := 0; regions := []; agents := [];
     routers := []; metrics_history := []; simulation_time := 0;
     nn_weights :=
       {| latency_prediction := {| nrows := 0; ncols := 0; data := [] |};
          load_balancing := {| nrows := 0; ncols := 0; data := [] |};
          failure_prediction := {| nrows := 0; ncols := 0; data := [] |} |} |}.

(** [IICPNeuralNetworkSimulator(num_agents, num_routers, regions)] *)
Definition construct (num_agents num_routers : Z) (regions : list string)
  : M G IICPNeuralNetworkSimulator :=
  λ g, match __init__ num_agents num_routers regions
               {| self := unset; env := g |} with
       | (Ok _, w) => (Ok (self w), env w)
       | (Raise e, w) => (Raise e, env w)
       end.

(** [obj.method(...)] on an object that is not used afterwards. *)
Definition on {A} (obj : IICPNeuralNetworkSimulator) (method : Method A)
  : M G A :=
  λ g, let (r, w) := method {| self := obj; env := g |} in (r, env w).

(** [ProtocolIntegrityAnalyzer().calculate_integrity_score()] *)
Definition fresh_integrity_score : M G Q :=
  λ g, ((Analyzer.calculate_integrity_score Analyzer.init).1, g).

Definition generate_methodology_explanation : string :=
  "
METHODOLOGY FOR PERFORMANCE VALIDATION

1. Neural Network Simulation Framework:
   • Multi-layer feedforward networks model agent behavior
   • Feature engineering captures network topology, QoS parameters, and load
   • Stochastic elements simulate real-world variability
   • Cross-regional latency modeling with realistic propagation delays

2. Agent Behavior Modeling:
   • 25,000 agents distributed across 5 geographic regions
   • Realistic intent distribution (code analysis, document processing, fraud detection)
   • Variable load factors and performance characteristics
   • Transport preference modeling (QUIC vs QuDAG)

3. Performance Metrics Calculation:
   • Latency: Neural network prediction + stochastic noise
   • Success Rate: Failure probability modeling with <1% baseline
   • Throughput: Message processing simulation with queue dynamics
   • Error Handling: Recoverable vs unrecoverable error classification

4. Validation Scenarios:
   • TC-MULTI-TASK-25K: Mixed workload across all intent types
   • TC-BOOT-6000: Focused Rust/Python build pipeline validation
   • Cross-regional communication with realistic latency penalties
   • QoS-aware prioritization with scheduling hint processing

5. Simulation Parameters:
   • Message sizes: 1KB - 500KB (realistic payload distribution)
   • Network conditions: Variable congestion and reliability
   • Agent lifecycle: Dynamic load balancing and failure recovery
   • Time-series analysis: Performance stability over extended periods

The neural network approach enables modeling of complex, non-linear relationships
between system parameters and performance outcomes, providing more accurate
predictions than static analytical models.
".

(** The dict that [create_performance_validation_report] returns. *)
Record Report : Type := {
  integrity_score : Q;
  large_scale_metrics : PerformanceMetrics;
  build_metrics : PerformanceMetrics;
  methodology : string
}.

Definition create_performance_validation_report : M G Report :=
  (* Protocol Integrity Analysis *)
  integrity_score <- fresh_integrity_score ;;
  (* Large-scale simulation *)
  large_sim <-
    construct 25000 100
      ["us-east-1"; "us-west-2"; "eu-west-1"; "ap-south-1"; "ap-northeast-1"] ;;
  large_metrics <- on large_sim (run_large_scale_simulation 300) ;;
  (* Build system simulation *)
  build_sim <- construct 6000 20 ["us-east-1"; "eu-west-1"] ;;
  build_metrics <- on build_sim run_build_system_simulation ;;
  (* Generate methodology explanation *)
  let methodology := generate_methodology_explanation in
  ret {| integrity_score := integrity_score;
         large_scale_metrics := large_metrics;
         build_metrics := build_metrics;
         methodology := methodology |}.

End Simulator.

(** ** A concrete environment: prescribed output sequences

    Every sequence of raw outputs, normal deviates and clock readings is an
    environment; the examples below run the methods on such tapes. *)
Record Tape : Type := {
  raw_at : nat → N;
  gauss_at : nat → Q;
  time_at : nat → Q;
  raw_pos : nat;
  gauss_pos : nat;
  time_pos : nat
}.

#[global] Instance Tape_environment : Environment Tape := {|
  next_raw t :=
    (raw_at t (raw_pos t),
     {| raw_at := raw_at t; gauss_at := gauss_at t; time_at := time_at t;
        raw_pos := S (raw_pos t); gauss_pos := gauss_pos t;
        time_pos := time_pos t |});
  next_gauss t :=
    (gauss_at t (gauss_pos t),
     {| raw_at := raw_at t; gauss_at := gauss_at t; time_at := time_at t;
        raw_pos := raw_pos t; gauss_pos := S (gauss_pos t);
        time_pos := time_pos t |});
  next_time t :=
    (time_at t (time_pos t),
     {| raw_at := raw_at t; gauss_at := gauss_at t; time_at := time_at t;
        raw_pos := raw_pos t; gauss_pos := gauss_pos t;
        time_pos := S (time_pos t) |})
|}.

(** ** Running the model on small inputs *)

(** ** Another environment: counters

    The raw outputs count the draws made so far, the deviates are all 0 and
    the clock shows the number of readings taken. *)
Record Counters : Type := {
  draws : nat;
  readings : nat
}.

#[global] Instance Counters_environment : Environment Counters := {|
  next_raw c :=
    (N.of_nat (draws c), {| draws := S (draws c); readings := readings c |});
  next_gauss c :=
    (0%Q, {| draws := S (draws c); readings := readings c |});
  next_time c :=
    (inject_Z (Z.of_nat (readings c)),
     {| draws := draws c; readings := S (readings c) |})
|}.

Module Examples.

Definition agent (id reg : string) (q : QoSClass) (load : Q) : Agent :=
  {| agent_id := id; region := reg;
     supported_intents := ["urn:iicp:intent:build:rust:v2.1"];
     performance_class := q; transport_pref := QUIC;
     load_factor := load; last_heartbeat := 0 |}.

Definition east : Agent := agent "llm://agent-us-east-1-0000" "us-east-1" REALTIME (1 # 4).
Definition west : Agent := agent "llm://agent-us-west-2-0001" "us-west-2" BATCH (1 # 2).
Definition east2 : Agent := agent "llm://agent-us-east-1-0002" "us-east-1" INTERACTIVE (1 # 5).

(** A [rows] by [cols] matrix with every entry [v]. *)
Definition constant_matrix (rows cols : nat) (v : Q) : ndarray2 :=
  {| nrows := rows; ncols := cols; data := replicate (rows * cols) v |}.

Definition weights : NNWeights :=
  {| latency_prediction := constant_matrix 10 5 (1 # 10);
     load_balancing := constant_matrix 8 4 0;
     failure_prediction := constant_matrix 6 3 (1 # 10) |}.

Definition simulator (population : list Agent) : IICPNeuralNetworkSimulator :=
  {| num_agents := Z.of_nat (length population); num_routers := 0;
     regions := ["us-east-1"; "us-west-2"];
     agents := population; routers := []; metrics_history := [];
     simulation_time := 0; nn_weights := weights |}.

(** Raw outputs [0, 1, 2, ...], noise [-1], a clock that ticks by one. *)
Definition tape : Tape :=
  {| raw_at := N.of_nat; gauss_at := λ _, (-1)%Q;
     time_at := λ n, inject_Z (Z.of_nat n);
     raw_pos := 0; gauss_pos := 0; time_pos := 0 |}.

Definition world (population : list Agent) : World Tape :=
  {| self := simulator population; env := tape |}.

(** A population of two agents in two regions, and one of a single agent. *)
Definition two_agents : World Tape := world [east; west].
Definition one_agent : World Tape := world [east].

End Examples.

(** * Vocabulary of the properties *)

(** ** The analyzer *)

Module AnalyzerSpec.
Import Analyzer.

(** The issue log of [self] extended by [extra]. *)
Definition logged (self : ProtocolIntegrityAnalyzer) (extra : list string)
  : ProtocolIntegrityAnalyzer :=
  {| issues := issues self ++ extra;
     validation_results := validation_results self |}.

(** What an issue that reports the missing value [v] looks like: the
    message of the completeness check with [hex(v)], quoted, in its list. *)
Definition reports_missing (v : Z) (issue : string) : Prop :=
  ∃ pre post,
    issue = "Missing opcodes: " +:+ "[" +:+ pre +:+ py_repr_str (py_hex v) +:+ post.

(** A table that lacks 0x02 and 0x09 (and maps two types out of range). *)
Definition gapped_table : list (MessageType * Z) :=
  [(INIT, 0x01); (ACK, 0x0F); (DISCOVER, 0x03); (SUB_PROTOCOL, 0x04);
   (CALL, 0x05); (RESPONSE, 0x06); (CLOSE, 0x07); (FEEDBACK, 0x08);
   (PING, 0x10); (PONG, 0x0A); (CONTROL, 0x0B); (ADVERTISE, 0x0C);
   (OBSERVE, 0x0D); (TELEMETRY, 0x0E)].

(** The three result dicts, by the flags that the checks can clear. *)
Definition message_flags (unique in_range complete : bool) : gmap string bool :=
  <["completeness" := complete]>
    (<["range_validity" := in_range]> (<["opcode_uniqueness" := unique]> ∅)).

Definition header_flags (named : bool) : gmap string bool :=
  <["required_coverage" := true]>
    (<["type_consistency" := true]> (<["naming_convention" := named]> ∅)).

Definition version_flags (valid : bool) : gmap string bool :=
  <["forward_compatibility" := true]>
    (<["backward_compatibility" := true]> (<["range_validity" := valid]> ∅)).

(** The conditions of the opcode checks, as the code tests them. *)
Definition opcode_in_range (opcode : Z) : bool :=
  (0x01 <=? opcode) && (opcode <=? 0x0E).

Definition opcodes_unique (opcodes : list Z) : bool :=
  (length opcodes =? size (list_to_set opcodes : gset Z))%nat.

Definition missing_opcodes (opcodes : list Z) : gset Z :=
  list_to_set (py_range 0x01 0x0F) ∖ list_to_set opcodes.

(** The missing values in the order in which the program lists them. *)
Definition missing_order (opcodes : list Z) : list Z :=
  PySet.iter
    (PySet.difference (PySet.of_list (py_range 0x01 0x0F))
       (list_to_set opcodes)).

(** The lists that keep some of the elements of [l], in their order. *)
Fixpoint sublists {A} (l : list A) : list (list A) :=
  match l with
  | [] => [[]]
  | x :: l => ((x ::.) <$> sublists l) ++ sublists l
  end.

(** A set made of the values [l] keeps them all and nothing else, and lists
    five values or more in the order in which they were added. *)
Definition table_keeps (l : list Z) : bool :=
  let order := PySet.iter (PySet.of_list l) in
  (length order <=? length l)%nat
  && forallb (λ v, bool_decide (v ∈ order)) l
  && ((length l <? 5)%nat || bool_decide (order = l)).

Definition opcodes_complete (opcodes : list Z) : bool :=
  bool_decide (missing_opcodes opcodes = ∅).

(** The issues each check appends. *)
Definition range_issue (opcode : Z) : string :=
  "Opcode " +:+ py_hex opcode +:+ " outside valid range".

Definition message_issues (opcodes : list Z) : list string :=
  (if opcodes_unique opcodes then []
   else ["Duplicate opcodes found in message type definitions"])
  ++ (range_issue <$> filter (λ o, opcode_in_range o = false) opcodes)
  ++ (if opcodes_complete opcodes then []
      else ["Missing opcodes: "
            +:+ py_str_list (py_hex <$> missing_order opcodes)]).

Definition header_issue (header : string) : string :=
  "Header " +:+ header +:+ " doesn't follow X-IICP- convention".

Definition header_issues (headers : list string) : list string :=
  header_issue <$> filter (λ h, String.prefix "X-IICP-" h = false) headers.

Definition version_issues (min_version max_version current_version : Z)
  : list string :=
  (if min_version >=? max_version
   then ["Invalid version range: min >= max"] else [])
  ++ (if (current_version <? min_version) || (current_version >? max_version)
      then ["Current version outside supported range"] else []).

Definition version_valid (min_version max_version current_version : Z) : bool :=
  negb (min_version >=? max_version)
  && negb ((current_version <? min_version) || (current_version >? max_version)).

(** How many of the nine flags hold, given the five that are tested. *)
Definition passed_flags (unique in_range complete named valid : bool) : Z :=
  Z.b2z unique + Z.b2z in_range + Z.b2z complete + Z.b2z named + Z.b2z valid
  + 4.

End AnalyzerSpec.

(** ** The simulator *)

(** The fraction [random.random()] makes of a raw output. *)
Definition unit_interval (k : N) : Q := (Z.of_N (k mod 2 ^ 53) # 2 ^ 53)%Q.


(** The agents of a population differ pairwise, by the equality of the data
    class. *)
Definition pairwise_distinct (population : list Agent) : Prop :=
  ∀ i j a b,
    population !! i = Some a → population !! j = Some b → i ≠ j →
    Agent_eq a b = false.

Definition population_ok (population : list Agent) : Prop :=
  (2 ≤ length population)%nat ∧ pairwise_distinct population.

(** The weight matrices have the row counts of the feature vectors they are
    multiplied with (the constructor draws them as 10 by 5 and 6 by 3). *)
Definition shapes_ok (s : IICPNeuralNetworkSimulator) : Prop :=
  nrows (latency_prediction (nn_weights s)) = 10%nat
  ∧ nrows (failure_prediction (nn_weights s)) = 6%nat.

Definition ready (s : IICPNeuralNetworkSimulator) : Prop :=
  population_ok (agents s) ∧ shapes_ok s.

(** Two states of the simulator that agree on everything but
    [simulation_time]. *)
Definition same_setup (s s' : IICPNeuralNetworkSimulator) : Prop :=
  num_agents s' = num_agents s
  ∧ num_routers s' = num_routers s
  ∧ regions s' = regions s
  ∧ agents s' = agents s
  ∧ routers s' = routers s
  ∧ metrics_history s' = metrics_history s
  ∧ nn_weights s' = nn_weights s.

(** The value the forward pass of [_neural_network_predict] computes on
    aligned shapes. *)
Definition forward_pass (x : list Q) (W : ndarray2) : Q :=
  py_max (1 # 1000)
    (np_mean (np_maximum0
       ((λ j, Qsum (imap (λ i xi, xi * entry W i j)%Q x)) <$> seq 0 (ncols W)))).

(** The message latency as the specification words it, from the base
    latency (after the cross-region factor), the scoring output and the
    normal deviate of the noise. *)
Definition spec_final_latency (baseLatency scoringOutput gauss : Q) : Q :=
  let finalLatency := (baseLatency * ((5 # 10) + scoringOutput * 2))%Q in
  let noise := (0 + finalLatency * (1 # 10) * gauss)%Q in
  py_max 10 (finalLatency + noise).

(** The scoring function as the specification words it: the sum of [f i]
    over [i < n], the rectified linear hidden unit [j], and the mean of the
    hidden units floored at 0.001. *)
Fixpoint Qsum_upto (n : nat) (f : nat → Q) : Q :=
  match n with
  | O => 0%Q
  | S n => (Qsum_upto n f + f n)%Q
  end.

Definition spec_hidden (features : list Q) (weights : ndarray2) (j : nat) : Q :=
  Qmax 0 (Qsum_upto (length features)
            (λ i, nth i features 0 * entry weights i j)%Q).

Definition spec_scoring (features : list Q) (weights : ndarray2) : Q :=
  Qmax (1 # 1000)
    (Qsum_upto (ncols weights) (spec_hidden features weights)
     / inject_Z (Z.of_nat (ncols weights)))%Q.

(** Base latency and priority weight of a QoS class, as the specification
    tabulates them. *)
Definition spec_base_latency (q : QoSClass) : Q :=
  match q with
  | REALTIME => 50
  | INTERACTIVE => 150
  | BATCH => 500
  end%Q.

Definition spec_qos_priority (q : QoSClass) : Q :=
  match q with
  | REALTIME => 1
  | INTERACTIVE => 6 # 10
  | BATCH => 3 # 10
  end%Q.

Section SimulatorSpec.
Context {G : Type} `{Environment G}.

Abbreviation Method := (M (World G)).

(** [m] returns from [w] without raising and without touching the simulator
    object, and its value satisfies [P]. *)
Definition returns {A} (m : Method A) (P : A → Prop) (w : World G) : Prop :=
  ∃ a g', m w = (Ok a, {| self := self w; env := g' |}) ∧ P a.

(** [m] leaves the simulator object as it found it, whether it returns or
    raises. *)
Definition frames {A} (m : Method A) : Prop :=
  ∀ w, self (snd (m w)) = self w.

(** The environment after one raw output, and the value
    [random.uniform(a, b)] makes of the raw output of [g]. *)
Definition skip_raw (g : G) : G := (next_raw g).2.

Definition uniform_at (a b : Q) (g : G) : Q :=
  (a + (b - a) * unit_interval (next_raw g).1)%Q.

(** The feature vector of the latency scoring, from the raw outputs that
    follow [g]. *)
Definition spec_latency_features (s : IICPNeuralNetworkSimulator) (g : G)
    (source_region dest_region : string) (message_size_kb : Q)
    (qos_class : QoSClass) : list Q :=
  [if bool_decide (source_region ≠ dest_region) then 1 else 0;
   spec_qos_priority qos_class;
   uniform_at (3 # 10) (9 # 10) g;
   py_min (message_size_kb / 100) 1;
   uniform_at (1 # 10) (9 # 10) (skip_raw g);
   uniform_at (8 # 10) 1 (skip_raw (skip_raw g));
   uniform_at 0 (3 # 10) (skip_raw (skip_raw (skip_raw g)));
   simulation_time s / 1000;
   inject_Z (Z.of_nat (length (agents s))) / 25000;
   uniform_at (5 # 10) 1 (skip_raw (skip_raw (skip_raw (skip_raw g))))]%Q.

(** The latency of a message and the environment left, following the steps
    of the specification: the base latency of the QoS class, multiplied when
    the regions differ by one uniform factor of [2, 4] (the sixth raw output),
    then adjusted by the scoring output, perturbed and floored. *)
Definition spec_message_latency (s : IICPNeuralNetworkSimulator) (g : G)
    (source_region dest_region : string) (message_size_kb : Q)
    (qos_class : QoSClass) : Q * G :=
  let g5 := skip_raw (skip_raw (skip_raw (skip_raw (skip_raw g)))) in
  let scoringOutput :=
    forward_pass
      (spec_latency_features s g source_region dest_region message_size_kb
         qos_class)
      (latency_prediction (nn_weights s)) in
  if bool_decide (source_region ≠ dest_region)
  then
    let factor := uniform_at 2 4 g5 in
    let g6 := skip_raw g5 in
    (spec_final_latency (spec_base_latency qos_class * factor) scoringOutput
       (next_gauss g6).1,
     (next_gauss g6).2)
  else
    (spec_final_latency (spec_base_latency qos_class) scoringOutput
       (next_gauss g5).1,
     (next_gauss g5).2).

(** [m] changes at most [simulation_time], whether it returns or raises. *)
Definition keeps_setup {A} (m : Method A) : Prop :=
  ∀ w, same_setup (self w) (self (snd (m w))).

(** Whenever [m] returns, its value satisfies [P]. *)
Definition ensures {A} (m : Method A) (P : A → Prop) : Prop :=
  ∀ w, match m w with
       | (Ok a, _) => P a
       | (Raise _, _) => True
       end.

(** [m] returns from [w], and its value and the world it leaves satisfy
    [P]. *)
Definition completes {A} (m : Method A) (P : A → World G → Prop)
    (w : World G) : Prop :=
  ∃ a w', m w = (Ok a, w') ∧ P a w'.

(** A sequence of calls of [_simulate_message_processing], one after the
    other, with the given arguments. *)
Fixpoint simulate_all (calls : list (MessageType * Q))
  : Method (list (Q * bool)) :=
  match calls with
  | [] => ret []
  | (message_type, payload) :: rest =>
      outcome <- _simulate_message_processing message_type payload ;;
      outcomes <- simulate_all rest ;;
      ret (outcome :: outcomes)
  end.

(** The first statements of [_simulate_message_processing]: the choice of
    the source and of the destination. *)
Definition select_endpoints : Method (Agent * Agent) :=
  agents <- gets (λ w, agents (self w)) ;;
  source_agent <- random_choice agents ;;
  dest_agent <- random_choice (filter (λ a, negb (Agent_eq a source_agent) = true) agents) ;;
  ret (source_agent, dest_agent).

(** The remaining statements of [_simulate_message_processing], for a chosen
    source and destination. *)
Definition process_between (source_agent dest_agent : Agent)
    (payload_size_kb : Q) : Method (Q * bool) :=
  agents <- gets (λ w, agents (self w)) ;;
  latency <-
    _calculate_message_latency
      (region source_agent) (region dest_agent) payload_size_kb
      (performance_class source_agent) ;;
  error_rate <- random_uniform 0 (1 # 10) ;;
  let failure_features : list Q :=
    [latency / 1000;
     payload_size_kb / 100;
     load_factor source_agent;
     load_factor dest_agent;
     error_rate;
     inject_Z (Z.of_nat (length agents)) / 25000]%Q in
  weights <- gets (λ w, failure_prediction (nn_weights (self w))) ;;
  failure_probability <- _neural_network_predict failure_features weights ;;
  draw <- random_random ;;
  let success := Qlt_bool (failure_probability * (1 # 100)) draw in
  ret (latency, success).

(** One message event of the large-scale run: the message type and payload
    drawn for it and the invocation of the message simulation. *)
Definition message_event : Method (Q * bool) :=
  message_type <- random_choice MessageType_members ;;
  payload_size <- random_uniform 1 500 ;;
  _simulate_message_processing message_type payload_size.

(** The outcomes of [n] consecutive message events. *)
Fixpoint message_events (n : nat) : Method (list (Q * bool)) :=
  match n with
  | O => ret []
  | S n =>
      outcome <- message_event ;;
      outcomes <- message_events n ;;
      ret (outcome :: outcomes)
  end.

(** The outcomes of the message events of the given simulated seconds, [mps]
    events in each. *)
Fixpoint simulated_seconds (mps : nat) (seconds : list Z)
  : Method (list (Q * bool)) :=
  match seconds with
  | [] => ret []
  | second :: rest =>
      set_simulation_time (inject_Z second) ;;;
      outcomes <- message_events mps ;;
      later <- simulated_seconds mps rest ;;
      ret (outcomes ++ later)
  end.

(** One trial of the build pipeline: the two stage invocations, with the
    payload each draws. *)
Definition build_stages : Method ((Q * bool) * (Q * bool)) :=
  rust_payload <- random_uniform 50 200 ;;
  rust <- _simulate_message_processing CALL rust_payload ;;
  python_payload <- random_uniform 30 150 ;;
  python <- _simulate_message_processing CALL python_payload ;;
  ret (rust, python).

(** The stage outcomes of [n] consecutive trials. *)
Fixpoint build_trials (n : nat) : Method (list ((Q * bool) * (Q * bool))) :=
  match n with
  | O => ret []
  | S n =>
      trial <- build_stages ;;
      trials <- build_trials n ;;
      ret (trial :: trials)
  end.

(** The failure scoring output and the final draw of a message between
    [source_agent] and [dest_agent], from the environment [g] the call starts
    in: the latency computation comes first, then the error-rate draw, the
    scoring of the failure features and the draw compared with it. *)
Definition spec_failure_probability (s : IICPNeuralNetworkSimulator) (g : G)
    (source_agent dest_agent : Agent) (payload_size_kb : Q) : Q :=
  let latency :=
    spec_message_latency s g (region source_agent) (region dest_agent)
      payload_size_kb (performance_class source_agent) in
  forward_pass
    [latency.1 / 1000;
     payload_size_kb / 100;
     load_factor source_agent;
     load_factor dest_agent;
     uniform_at 0 (1 # 10) latency.2;
     inject_Z (Z.of_nat (length (agents s))) / 25000]%Q
    (failure_prediction (nn_weights s)).

Definition spec_success_draw (s : IICPNeuralNetworkSimulator) (g : G)
    (source_agent dest_agent : Agent) (payload_size_kb : Q) : Q :=
  let latency :=
    spec_message_latency s g (region source_agent) (region dest_agent)
      payload_size_kb (performance_class source_agent) in
  unit_interval (next_raw (skip_raw latency.2)).1.

End SimulatorSpec.

(** The locals of the large-scale loop once a message outcome is accounted
    for. *)
Definition record_message (locals : LargeScaleLocals) (r : Q * bool)
  : LargeScaleLocals :=
  {| total_messages := total_messages locals + 1;
     total_latency := (total_latency locals + r.1)%Q;
     successful_messages :=
       if r.2 then successful_messages locals + 1
       else successful_messages locals;
     ls_error_count :=
       if r.2 then ls_error_count locals
       else ls_error_count locals + 1;
     latencies := latencies locals ++ [r.1] |}.

(** Latency and success of a trial, from its two stage outcomes. *)
Definition trial_latency (t : (Q * bool) * (Q * bool)) : Q :=
  (t.1.1 + t.2.1)%Q.

Definition trial_success (t : (Q * bool) * (Q * bool)) : bool :=
  t.1.2 && t.2.2.

(** The locals of the build loop once a trial is accounted for. *)
Definition record_trial (locals : BuildLocals) (t : (Q * bool) * (Q * bool))
  : BuildLocals :=
  {| total_builds := total_builds locals + 1;
     build_latencies := build_latencies locals ++ [trial_latency t];
     successful_builds :=
       if trial_success t then successful_builds locals + 1
       else successful_builds locals |}.

(** How many of the trials succeeded. *)
Definition successes (trials : list ((Q * bool) * (Q * bool))) : Z :=
  Z.of_nat (length (filter (λ t, trial_success t = true) trials)).

(** ** The constructor *)

(** What [_initialize_agents] makes of agent [i] over [regions]. *)
Definition agent_ok (regions : list string) (i : Z) (a : Agent) : Prop :=
  region a ∈ regions
  ∧ agent_id a = "llm://agent-" +:+ region a +:+ "-" +:+ py_format_0d 4 i
  ∧ (1 ≤ length (supported_intents a) ≤ 3)%nat
  ∧ NoDup (supported_intents a)
  ∧ supported_intents a ⊆ intent_types
  ∧ ((1 # 10) <= load_factor a)%Q ∧ (load_factor a <= (8 # 10))%Q.

(** What [_initialize_routers] makes of router [i] over [regions]. *)
Definition router_ok (regions : list string) (i : Z) (r : Router) : Prop :=
  router_id r = "router-" +:+ py_format_0d 3 i
  ∧ router_region r ∈ regions
  ∧ queue_depth r = 0 ∧ processed_messages r = 0 ∧ router_error_count r = 0
  ∧ ((2 # 10) <= router_cpu_utilization r)%Q
  ∧ (router_cpu_utilization r <= (6 # 10))%Q.

Section ConstructorSpec.
Context {G : Type} `{Environment G}.

(** The next [n] normal deviates of [g], and the environment after them. *)
Fixpoint gauss_values (n : nat) (g : G) : list Q :=
  match n with
  | O => []
  | S n => (next_gauss g).1 :: gauss_values n (next_gauss g).2
  end.

Fixpoint skip_gauss (n : nat) (g : G) : G :=
  match n with
  | O => g
  | S n => skip_gauss n (next_gauss g).2
  end.

(** A [rows] by [cols] matrix of deviates of [g] scaled by a tenth. *)
Definition tenth_matrix (rows cols : nat) (g : G) : ndarray2 :=
  {| nrows := rows; ncols := cols;
     data := (λ z, 0 + (1 # 10) * z)%Q <$> gauss_values (rows * cols) g |}.

(** The weights drawn from [g]: 50 deviates for the latency matrix, the
    next 32 for the load-balancing matrix, the next 18 for the failure
    matrix. *)
Definition drawn_weights (g : G) : NNWeights :=
  {| latency_prediction := tenth_matrix 10 5 g;
     load_balancing := tenth_matrix 8 4 (skip_gauss 50 g);
     failure_prediction := tenth_matrix 6 3 (skip_gauss 32 (skip_gauss 50 g)) |}.

(** The object and the environment right after the assignments of
    [__init__], before the population is created. *)
Definition assigned (num_agents num_routers : Z) (regions : list string)
    (g : G) : World G :=
  {| self :=
       {| num_agents := num_agents; num_routers := num_routers;
          regions := regions; agents := []; routers := [];
          metrics_history := []; simulation_time := 0;
          nn_weights := drawn_weights g |};
     env := skip_gauss 18 (skip_gauss 32 (skip_gauss 50 g)) |}.

End ConstructorSpec.

(** The simulator [s] with the given agents and routers. *)
Definition with_population (s : IICPNeuralNetworkSimulator)
    (population : list Agent) (network : list Router)
  : IICPNeuralNetworkSimulator :=
  {| num_agents := num_agents s; num_routers := num_routers s;
     regions := regions s; agents := population; routers := network;
     metrics_history := metrics_history s;
     simulation_time := simulation_time s; nn_weights := nn_weights s |}.

(** ** The report *)

(** What the metrics of a run of [count] messages or trials hold, each
    latency being at least [least]. *)
Definition metrics_ok (count : Z) (least : Q) (m : PerformanceMetrics)
  : Prop :=
  0 ≤ error_count m ≤ count
  ∧ (success_rate m
     == inject_Z (count - error_count m) / inject_Z count * 100)%Q
  ∧ (0 <= success_rate m)%Q ∧ (success_rate m <= 100)%Q
  ∧ (least <= latency_ms m)%Q
  ∧ memory_usage_mb m = 45%Q.

Definition report_ok (report : Report) : Prop :=
  (integrity_score report == 100)%Q
  ∧ metrics_ok 900000 10 (large_scale_metrics report)
  ∧ metrics_ok 1000 20 (build_metrics report)
  ∧ (throughput_msg_per_sec (build_metrics report) == 10 # 3)%Q
  ∧ methodology report = generate_methodology_explanation.

(** ** The clock *)

Section ClockSpec.
Context {G : Type} `{Environment G}.

(** The reading that the clock of [g] gives next. *)
Definition clock (g : G) : Q := (next_time g).1.

(** Drawing a number does not move the clock. *)
Definition clock_apart : Prop :=
  ∀ g, clock (next_raw g).2 = clock g ∧ clock (next_gauss g).2 = clock g.

(** Reading the clock moves it forward. *)
Definition clock_ticks : Prop :=
  ∀ g, (clock g < clock (next_time g).2)%Q.

(** [m] does not move the clock. *)
Definition keeps_clock {A} (m : M (World G) A) : Prop :=
  ∀ w, clock (env (m w).2) = clock (env w).

End ClockSpec.

(** * Properties *)

(** ** The method monad *)

Lemma bind_unfold {S A B} (m : M S A) (k : A → M S B) (s : S) :
  bind m k s
  = match m s with
    | (Ok a, s') => k a s'
    | (Raise e, s') => (Raise e, s')
    end.
Proof. reflexivity. Qed.

Lemma bind_ok {S A B} (m : M S A) (k : A → M S B) s a s' :
  m s = (Ok a, s') → bind m k s = k a s'.
Proof. intros Hm. unfold bind. rewrite Hm. reflexivity. Qed.

Lemma bind_raise {S A B} (m : M S A) (k : A → M S B) s e s' :
  m s = (Raise e, s') → bind m k s = (Raise e, s').
Proof. intros Hm. unfold bind. rewrite Hm. reflexivity. Qed.

Lemma bind_assoc {S A B C} (m : M S A) (k1 : A → M S B) (k2 : B → M S C) s :
  bind (bind m k1) k2 s = bind m (λ a, bind (k1 a) k2) s.
Proof. unfold bind. by destruct (m s) as [[a | e] s']. Qed.

Lemma bind_congr {S A B} (m m' : M S A) (k k' : A → M S B) s :
  m s = m' s → (∀ a s', k a s' = k' a s') → bind m k s = bind m' k' s.
Proof.
  intros Hm Hk. unfold bind. rewrite Hm.
  destruct (m' s) as [[a | e] s']; [apply Hk | reflexivity].
Qed.

Lemma bind_gets {S A B} (f : S → A) (k : A → M S B) s :
  bind (gets f) k s = k (f s) s.
Proof. reflexivity. Qed.

Lemma bind_ret {S A B} (a : A) (k : A → M S B) s :
  bind (ret a) k s = k a s.
Proof. reflexivity. Qed.

(** ** Strings *)

Lemma append_nil_r (a : string) : a +:+ "" = a.
Proof.
  induction a as [| ch a IH]; [reflexivity |].
  change (String ch (a +:+ "") = String ch a). by f_equal.
Qed.

Lemma append_assoc (a b c : string) : (a +:+ b) +:+ c = a +:+ (b +:+ c).
Proof.
  induction a as [| ch a IH]; [reflexivity |].
  change (String ch ((a +:+ b) +:+ c) = String ch (a +:+ b +:+ c)).
  by f_equal.
Qed.

(** An element of a list shows in the list's rendering with a separator. *)
Lemma concat_contains (sep : string) (f : Z → string) (l : list Z) (x : Z) :
  x ∈ l →
  ∃ pre post, String.concat sep (f <$> l) = pre +:+ f x +:+ post.
Proof.
  induction l as [| y l IH]; intros Hin.
  - by apply elem_of_nil in Hin.
  - apply elem_of_cons in Hin as [-> | Hin].
    + destruct l as [| z l].
      * exists "", "". cbv [fmap list_fmap String.concat]. symmetry. apply append_nil_r.
      * exists "", (sep +:+ String.concat sep (f <$> z :: l)). reflexivity.
    + destruct (IH Hin) as (pre & post & Heq).
      destruct l as [| z l]; [by apply elem_of_nil in Hin |].
      exists (f y +:+ sep +:+ pre), post.
      change (String.concat sep (f <$> y :: z :: l))
        with (f y +:+ sep +:+ String.concat sep (f <$> z :: l)).
      rewrite Heq. by rewrite !append_assoc.
Qed.

(** ** The table of a set *)

Module SetFacts.
Import AnalyzerSpec.

Lemma sublists_filter {A} (P : A → Prop) `{!∀ x, Decision (P x)} (l : list A) :
  filter P l ∈ sublists l.
Proof.
  induction l as [| x l IH]; [by apply list_elem_of_singleton |].
  cbn [sublists]. rewrite filter_cons. apply elem_of_app.
  destruct (decide (P x)); [left | by right].
  by apply list_elem_of_fmap_2.
Qed.

(** Every set made of values of the opcode range keeps them. *)
Lemma tables_keep : forallb table_keeps (sublists (py_range 0x01 0x0F)) = true.
Proof. vm_compute. reflexivity. Qed.

Lemma table_keeps_filter (P : Z → Prop) `{!∀ x, Decision (P x)} :
  table_keeps (filter P (py_range 0x01 0x0F)) = true.
Proof.
  pose proof tables_keep as Hall. rewrite forallb_forall in Hall.
  apply Hall, list_elem_of_In, sublists_filter.
Qed.

Lemma of_list_keeps (P : Z → Prop) `{!∀ x, Decision (P x)} :
  let l := filter P (py_range 0x01 0x0F) in
  PySet.iter (PySet.of_list l) ≡ₚ l
  ∧ ((5 ≤ length l)%nat → PySet.iter (PySet.of_list l) = l).
Proof.
  intros l. pose proof (table_keeps_filter P) as Hkeeps. fold l in Hkeeps.
  unfold table_keeps in Hkeeps.
  apply andb_true_iff in Hkeeps as [[Hlen Hall]%andb_true_iff Hasc].
  apply Nat.leb_le in Hlen. rewrite forallb_forall in Hall.
  split.
  - symmetry. apply submseteq_length_Permutation; [| exact Hlen].
    apply NoDup_submseteq.
    + apply NoDup_filter, NoDup_seqZ.
    + intros v Hv. apply list_elem_of_In, Hall in Hv.
      by apply bool_decide_eq_true in Hv.
  - intros Hfive. apply orb_true_iff in Hasc as [Hshort | Heq].
    + apply Nat.ltb_lt in Hshort. lia.
    + by apply bool_decide_eq_true in Heq.
Qed.

Lemma expected_table :
  PySet.of_list (py_range 0x01 0x0F)
  = None :: (Some <$> py_range 0x01 0x0F) ++ replicate 17 None.
Proof. vm_compute. reflexivity. Qed.

Lemma iter_discard (other : gset Z) (t : PySet.table) :
  PySet.iter
    ((λ slot, match slot with
              | Some key => if decide (key ∈ other) then None else Some key
              | None => None
              end) <$> t)
  = filter (λ key, key ∉ other) (PySet.iter t).
Proof.
  unfold PySet.iter. induction t as [| [key |] t IH]; [done | | exact IH].
  cbn [fmap list_fmap omap list_omap id]. rewrite filter_cons.
  destruct (decide (key ∈ other)).
  - rewrite decide_False by tauto. exact IH.
  - rewrite decide_True by done. cbn. by rewrite <- IH.
Qed.

Lemma add_others (other : gset Z) (l : list Z) (t : PySet.table) :
  fold_left (λ result key, if decide (key ∈ other) then result
                           else PySet.add result key) l t
  = fold_left PySet.add (filter (λ key, key ∉ other) l) t.
Proof.
  revert t. induction l as [| key l IH]; intros t; [done |].
  cbn [fold_left]. rewrite filter_cons, IH.
  destruct (decide (key ∈ other)).
  - by rewrite decide_False by tauto.
  - by rewrite decide_True by done.
Qed.

(** The order of [expected_range - actual_opcodes]: the missing values as
    they come in the range when the copy of [expected_range] is taken, and
    otherwise as the slots of a new table hold them. *)
Lemma missing_order_unfold (opcodes : list Z) :
  missing_order opcodes
  = if Z.of_nat (size (list_to_set opcodes : gset Z)) <? 3
    then filter (λ v, v ∉ (list_to_set opcodes : gset Z)) (py_range 0x01 0x0F)
    else PySet.iter
           (PySet.of_list
              (filter (λ v, v ∉ (list_to_set opcodes : gset Z))
                 (py_range 0x01 0x0F))).
Proof.
  unfold missing_order, PySet.difference.
  assert (Hiter : PySet.iter (PySet.of_list (py_range 0x01 0x0F))
                  = py_range 0x01 0x0F)
    by (vm_compute; reflexivity).
  assert (Hused : Z.shiftr (PySet.used (PySet.of_list (py_range 0x01 0x0F))) 2
                  = 3)
    by (vm_compute; reflexivity).
  rewrite Hused.
  destruct (Z.of_nat (size (list_to_set opcodes : gset Z)) <? 3).
  - by rewrite iter_discard, Hiter.
  - rewrite Hiter, add_others. reflexivity.
Qed.

Lemma missing_values (opcodes : list Z) :
  filter (λ v, v ∉ (list_to_set opcodes : gset Z)) (py_range 0x01 0x0F)
  ≡ₚ elements (missing_opcodes opcodes).
Proof.
  apply NoDup_Permutation.
  - apply NoDup_filter, NoDup_seqZ.
  - apply NoDup_elements.
  - intros v. unfold missing_opcodes.
    rewrite list_elem_of_filter, elem_of_elements, elem_of_difference.
    rewrite !elem_of_list_to_set. tauto.
Qed.

(** The program lists every missing value once. *)
Lemma missing_order_perm (opcodes : list Z) :
  missing_order opcodes ≡ₚ elements (missing_opcodes opcodes).
Proof.
  rewrite missing_order_unfold, <- missing_values.
  destruct (_ <? 3); [reflexivity |].
  apply (of_list_keeps (λ v, v ∉ (list_to_set opcodes : gset Z))).
Qed.

(** Five missing values or more are listed in ascending order. *)
Lemma missing_order_ascending (opcodes : list Z) :
  (5 ≤ size (missing_opcodes opcodes))%nat →
  missing_order opcodes
  = filter (λ v, v ∉ (list_to_set opcodes : gset Z)) (py_range 0x01 0x0F).
Proof.
  intros Hfive. rewrite missing_order_unfold.
  destruct (_ <? 3); [reflexivity |].
  apply (of_list_keeps (λ v, v ∉ (list_to_set opcodes : gset Z))).
  rewrite (Permutation_length (missing_values opcodes)).
  exact Hfive.
Qed.

End SetFacts.

(** ** ProtocolIntegrityAnalyzer *)

Module AnalyzerFacts.
Import Analyzer AnalyzerSpec SetFacts.

Lemma logged_nil self : logged self [] = self.
Proof. destruct self. unfold logged. simpl. by rewrite app_nil_r. Qed.

Lemma logged_logged self e1 e2 : logged (logged self e1) e2 = logged self (e1 ++ e2).
Proof. unfold logged. simpl. by rewrite app_assoc. Qed.

Lemma issues_append_run msg self :
  issues_append msg self = (Ok tt, logged self [msg]).
Proof. reflexivity. Qed.

(** The range-validity loop returns, extends the log and leaves the other
    keys of the dict alone. *)
Lemma range_loop_run (opcodes : list Z) (cc : gmap string bool) self :
  ∃ cc' extra,
    for_fold opcodes
      (λ opcode consistency_check,
         if negb ((0x01 <=? opcode) && (opcode <=? 0x0E))
         then issues_append ("Opcode " +:+ py_hex opcode +:+ " outside valid range") ;;;
              ret (<["range_validity" := false]> consistency_check)
         else ret consistency_check)
      cc self
    = (Ok cc', logged self extra)
    ∧ cc' !! "completeness" = cc !! "completeness".
Proof.
  revert cc self. induction opcodes as [| op opcodes IH]; intros cc self.
  - exists cc, []. by rewrite logged_nil.
  - cbn [for_fold]. rewrite bind_unfold.
    destruct (negb ((1 <=? op) && (op <=? 14))).
    + rewrite bind_unfold, issues_append_run. unfold ret at 1.
      destruct (IH (<["range_validity" := false]> cc) (logged self ["Opcode " +:+ py_hex op +:+ " outside valid range"]))
        as (cc' & extra & -> & Hcc).
      eexists _, _. rewrite logged_logged. split; [reflexivity |].
      rewrite Hcc. by rewrite lookup_insert_ne.
    + unfold ret at 1.
      destruct (IH cc self) as (cc' & extra & -> & Hcc).
      by eexists _, _.
Qed.

(** A dict keyed by [MessageType] has at most fourteen entries. *)
Lemma MessageType_members_all (m : MessageType) : m ∈ MessageType_members.
Proof. unfold MessageType_members. destruct m; set_solver. Qed.

Lemma table_length (table : list (MessageType * Z)) :
  NoDup table.*1 → (length table ≤ 14)%nat.
Proof.
  intros Hkeys.
  rewrite <- (length_fmap fst table).
  change 14%nat with (length MessageType_members).
  apply submseteq_length, NoDup_submseteq; [exact Hkeys |].
  intros m _. apply MessageType_members_all.
Qed.

Lemma size_list_to_set_le (l : list Z) :
  (size (list_to_set l : gset Z) ≤ length l)%nat.
Proof.
  induction l as [| x l IH]; [by rewrite list_to_set_nil, size_empty |].
  rewrite list_to_set_cons. cbn [length].
  rewrite size_union_alt, size_singleton.
  assert (size (list_to_set l ∖ {[x]} : gset Z) ≤ size (list_to_set l : gset Z))%nat
    by (apply subseteq_size; set_solver).
  lia.
Qed.

Lemma elem_of_expected_range (v : Z) :
  v ∈ (list_to_set (py_range 0x01 0x0F) : gset Z) ↔ 1 ≤ v ≤ 14.
Proof.
  rewrite elem_of_list_to_set. unfold py_range. rewrite elem_of_seqZ. lia.
Qed.

Lemma size_expected_range :
  size (list_to_set (py_range 0x01 0x0F) : gset Z) = 14%nat.
Proof.
  rewrite size_list_to_set; [| apply NoDup_seqZ].
  unfold py_range. by rewrite length_seqZ.
Qed.

(** Whatever the table, the completeness flag says that no value of the
    range is missing, i.e. that the range is included in the opcodes. *)
Lemma completeness_is_inclusion (table : list (MessageType * Z)) self :
  ∃ cc self',
    analyze_message_consistency_of table self = (Ok cc, self')
    ∧ (cc !! "completeness" = Some true
       ↔ (list_to_set (py_range 0x01 0x0F) : gset Z) ⊆ list_to_set table.*2)
    ∧ (cc !! "completeness" = Some true ∨ cc !! "completeness" = Some false)
    ∧ (∀ v, 1 ≤ v ≤ 14 → v ∉ table.*2 →
         ∃ issue, issue ∈ issues self' ∧ reports_missing v issue).
Proof.
  unfold analyze_message_consistency_of.
  set (cc0 := <["completeness" := true]> _).
  set (opcodes := table.*2).
  set (expected := list_to_set (py_range 1 15) : gset Z).
  set (actual := list_to_set opcodes : gset Z).
  assert (Hcc0 : cc0 !! "completeness" = Some true) by apply lookup_insert_eq.
  rewrite bind_unfold.
  assert (∃ cc1 e1,
    (if negb (length opcodes =? size actual)%nat
     then issues_append "Duplicate opcodes found in message type definitions" ;;;
          ret (<["opcode_uniqueness" := false]> cc0)
     else ret cc0) self = (Ok cc1, logged self e1)
    ∧ cc1 !! "completeness" = Some true) as (cc1 & e1 & -> & Hcc1).
  { destruct (negb _).
    - eexists _, _. split; [reflexivity |]. by rewrite lookup_insert_ne.
    - exists cc0, []. by rewrite logged_nil. }
  rewrite bind_unfold.
  destruct (range_loop_run opcodes cc1 (logged self e1))
    as (cc2 & e2 & -> & Hcc2).
  rewrite Hcc1 in Hcc2. rewrite logged_logged.
  rewrite bind_unfold.
  destruct (bool_decide (actual ≠ expected)) eqn:Hne.
  - destruct (bool_decide (expected ∖ actual ≠ ∅)) eqn:Hmiss.
    + apply bool_decide_eq_true in Hmiss.
      rewrite bind_unfold, issues_append_run. unfold ret.
      eexists _, _. split; [reflexivity |].
      rewrite lookup_insert_eq. split; [| split].
      * split; [done |]. intros Hsub. exfalso. apply Hmiss.
        apply elem_of_equiv_empty_L. intros x [Hx Hnx]%elem_of_difference.
        apply Hnx, Hsub, Hx.
      * by right.
      * intros v Hv Hnot.
        assert (Hin : v ∈ missing_order opcodes).
        { rewrite missing_order_perm.
          apply elem_of_elements, elem_of_difference. split.
          - by apply elem_of_expected_range.
          - by rewrite elem_of_list_to_set. }
        destruct (concat_contains ", " (λ x, py_repr_str (py_hex x)) _ _ Hin)
          as (pre & post & Heq).
        eexists. split.
        { unfold logged. cbn [issues]. apply elem_of_app. right.
          apply list_elem_of_singleton. reflexivity. }
        exists pre, (post +:+ "]"). unfold py_str_list.
        rewrite <- list_fmap_compose. unfold compose.
        unfold missing_order in Heq. fold actual in Heq. rewrite Heq.
        by rewrite !append_assoc.
    + apply bool_decide_eq_false in Hmiss.
      assert (Hempty : expected ∖ actual = ∅).
      { destruct (decide (expected ∖ actual = ∅)); [done | by destruct Hmiss]. }
      unfold ret. eexists _, _. split; [reflexivity |].
      split; [| split].
      * split; [| done]. intros _. intros v Hv.
        destruct (decide (v ∈ actual)) as [| Hnv]; [done |].
        assert (v ∈ expected ∖ actual) by set_solver.
        rewrite Hempty in *. set_solver.
      * by left.
      * intros v Hv Hnot. exfalso.
        assert (v ∈ expected ∖ actual) as Hin.
        { apply elem_of_difference. split.
          - by apply elem_of_expected_range.
          - unfold actual. by rewrite elem_of_list_to_set. }
        rewrite Hempty in Hin. set_solver.
  - apply bool_decide_eq_false in Hne.
    assert (Heq : actual = expected).
    { destruct (decide (actual = expected)); [done | by destruct Hne]. }
    unfold ret. eexists _, _. split; [reflexivity |].
    split; [| split].
    * split; [| done]. intros _. by rewrite Heq.
    * by left.
    * intros v Hv Hnot. exfalso. apply Hnot.
      apply (elem_of_list_to_set (C := gset Z)). fold actual. rewrite Heq.
      by apply elem_of_expected_range.
Qed.

(** C7.  For every opcode table (a dict keyed by [MessageType], hence of at
    most fourteen entries), [analyze_message_consistency] returns, its
    ["completeness"] flag is [True] exactly when the set of the opcodes equals
    the range 0x01..0x0E, and every value of the range that the table lacks is
    reported, by its [hex] value, in an issue of the log. *)
Theorem completeness_iff_contiguous_range
    (table : list (MessageType * Z)) (self : ProtocolIntegrityAnalyzer) :
  NoDup table.*1 →
  ∃ cc self',
    analyze_message_consistency_of table self = (Ok cc, self')
    ∧ (cc !! "completeness" = Some true
       ↔ (list_to_set table.*2 : gset Z) = list_to_set (py_range 0x01 0x0F))
    ∧ (∀ v, 1 ≤ v ≤ 14 → v ∉ table.*2 →
         ∃ issue, issue ∈ issues self' ∧ reports_missing v issue).
Proof.
  intros Hkeys.
  destruct (completeness_is_inclusion table self)
    as (cc & self' & Hrun & Hflag & _ & Hmissing).
  exists cc, self'. split; [exact Hrun |]. split; [| exact Hmissing].
  rewrite Hflag. split.
  - intros Hsub. symmetry. apply set_subseteq_size_eq; [exact Hsub |].
    rewrite size_expected_range.
    etrans; [apply size_list_to_set_le |].
    rewrite length_fmap. by apply table_length.
  - intros ->. done.
Qed.

Lemma completeness_iff_contiguous_range_witness :
  NoDup gapped_table.*1
  ∧ ∃ cc self',
      analyze_message_consistency_of gapped_table init = (Ok cc, self')
      ∧ (cc !! "completeness" = Some true
         ↔ (list_to_set gapped_table.*2 : gset Z) = list_to_set (py_range 0x01 0x0F))
      ∧ (∀ v, 1 ≤ v ≤ 14 → v ∉ gapped_table.*2 →
           ∃ issue, issue ∈ issues self' ∧ reports_missing v issue).
Proof.
  assert (Hkeys : NoDup gapped_table.*1)
    by (apply (bool_decide_unpack _); vm_compute; exact I).
  split; [exact Hkeys |].
  exact (completeness_iff_contiguous_range gapped_table init Hkeys).
Defined.

Example gapped_table_run :
  match analyze_message_consistency_of gapped_table init with
  | (Ok cc, self') =>
      (cc !! "opcode_uniqueness", cc !! "range_validity",
       cc !! "completeness", issues self')
  | (Raise _, self') => (None, None, None, issues self')
  end
  = (Some true, Some false, Some false,
     ["Opcode 0xf outside valid range";
      "Opcode 0x10 outside valid range";
      "Missing opcodes: ['0x9', '0x2']"]).
Proof. vm_compute. reflexivity. Qed.

(** The flag tests inclusion only: a table of fifteen entries (which no dict
    keyed by [MessageType] is) can cover the range, carry a value outside it
    and still be reported complete. *)
Example completeness_with_extra_value :
  match analyze_message_consistency_of ((INIT, 0x0F) :: expected_opcodes) init with
  | (Ok cc, _) => cc !! "completeness"
  | (Raise _, _) => None
  end = Some true
  ∧ bool_decide
      ((list_to_set ((INIT, 0x0F) :: expected_opcodes).*2 : gset Z)
       = list_to_set (py_range 0x01 0x0F)) = false.
Proof. split; vm_compute; reflexivity. Qed.

(** C1.  On the hardcoded tables, [calculate_integrity_score] of a fresh
    analyzer returns 100 and leaves the issue log empty. *)
Theorem integrity_score_of_hardcoded_tables :
  ∃ score self',
    calculate_integrity_score init = (Ok score, self')
    ∧ (score == 100)%Q
    ∧ issues self' = [].
Proof.
  exists (900 # 9)%Q, init.
  split; [vm_compute; reflexivity |].
  split; reflexivity.
Qed.

(** The score and the log do not depend on what the analyzer held before:
    the call appends nothing. *)
Lemma integrity_score_appends_nothing (self : ProtocolIntegrityAnalyzer) :
  ∃ score,
    calculate_integrity_score self = (Ok score, logged self [])
    ∧ (score == 100)%Q.
Proof.
  exists (900 # 9)%Q. split; [| reflexivity].
  rewrite logged_nil. destruct self as [log results]. vm_compute. reflexivity.
Qed.

End AnalyzerFacts.

(** ** Rational arithmetic of the built-ins *)

Lemma Qlt_bool_true (a b : Q) : Qlt_bool a b = true ↔ (a < b)%Q.
Proof.
  unfold Qlt_bool. rewrite negb_true_iff. split.
  - intros Hf. apply Qnot_le_lt. intros Hle.
    apply Qle_bool_iff in Hle. congruence.
  - intros Hlt. destruct (Qle_bool b a) eqn:Hle; [| reflexivity].
    apply Qle_bool_iff in Hle. exfalso. eapply Qlt_not_le; eassumption.
Qed.

Lemma Qlt_bool_false (a b : Q) : Qlt_bool a b = false ↔ (b <= a)%Q.
Proof.
  unfold Qlt_bool. rewrite negb_false_iff. apply Qle_bool_iff.
Qed.

Lemma py_max_lower (a b : Q) : (a <= py_max a b)%Q.
Proof.
  unfold py_max. destruct (Qlt_bool a b) eqn:Hlt.
  - apply Qlt_bool_true in Hlt. by apply Qlt_le_weak.
  - apply Qle_refl.
Qed.

(** Python's [max] agrees with the mathematical maximum. *)
Lemma py_max_Qmax (a b : Q) : (py_max a b == Qmax a b)%Q.
Proof.
  unfold py_max. destruct (Qlt_bool a b) eqn:Hlt.
  - apply Qlt_bool_true in Hlt. symmetry. apply Q.max_r. by apply Qlt_le_weak.
  - apply Qlt_bool_false in Hlt. symmetry. by apply Q.max_l.
Qed.

Lemma unit_interval_bounds (k : N) :
  (0 <= unit_interval k)%Q ∧ (unit_interval k < 1)%Q.
Proof.
  unfold unit_interval, Qle, Qlt. cbn [Qnum Qden].
  assert ((k mod 2 ^ 53 < 2 ^ 53)%N) as Hlt
    by (apply N.mod_upper_bound; discriminate).
  apply N2Z.inj_lt in Hlt.
  pose proof (N2Z.is_nonneg (k mod 2 ^ 53)) as Hnn.
  change (Z.of_N (2 ^ 53)) with (Z.pos (2 ^ 53)) in Hlt.
  remember (Z.of_N (k mod 2 ^ 53)) as n eqn:En. clear En.
  remember (Z.pos (2 ^ 53)) as d eqn:Ed. clear Ed.
  lia.
Qed.

Lemma uniform_bounds (a b u : Q) :
  (a <= b)%Q → (0 <= u)%Q → (u < 1)%Q →
  (a <= a + (b - a) * u)%Q ∧ (a + (b - a) * u <= b)%Q.
Proof. intros Hab H0 H1. split; nra. Qed.

(** ** Sums of rationals *)

Lemma Qsum_upto_ext (n : nat) (f g : nat → Q) :
  (∀ i, (i < n)%nat → (f i == g i)%Q) →
  (Qsum_upto n f == Qsum_upto n g)%Q.
Proof.
  induction n as [| n IH]; intros Hfg; [reflexivity |].
  cbn [Qsum_upto]. apply Qplus_comp.
  - apply IH. intros i Hi. apply Hfg. lia.
  - apply Hfg. lia.
Qed.

Lemma Qsum_upto_shift (n : nat) (f : nat → Q) :
  (Qsum_upto (S n) f == f 0%nat + Qsum_upto n (λ i, f (S i)))%Q.
Proof.
  induction n as [| n IH].
  - cbn [Qsum_upto]. ring.
  - change (Qsum_upto (S (S n)) f) with (Qsum_upto (S n) f + f (S n))%Q.
    rewrite IH. cbn [Qsum_upto]. ring.
Qed.

Lemma Qsum_imap (f : nat → Q → Q) (l : list Q) :
  (Qsum (imap f l) == Qsum_upto (length l) (λ i, f i (nth i l 0%Q)))%Q.
Proof.
  revert f. induction l as [| x l IH]; intros f; [reflexivity |].
  cbn [length]. rewrite Qsum_upto_shift. cbn [nth].
  change (Qsum (imap f (x :: l))) with (f 0%nat x + Qsum (imap (f ∘ S) l))%Q.
  rewrite IH. reflexivity.
Qed.

Lemma Qsum_fmap_seq (g : nat → Q) (a n : nat) :
  (Qsum (g <$> seq a n) == Qsum_upto n (λ i, g (a + i)%nat))%Q.
Proof.
  revert a. induction n as [| n IH]; intros a; [reflexivity |].
  rewrite Qsum_upto_shift.
  change (Qsum (g <$> seq a (S n))) with (g a + Qsum (g <$> seq (S a) n))%Q.
  rewrite IH, Nat.add_0_r.
  apply Qplus_comp; [reflexivity |].
  apply Qsum_upto_ext. intros i _. by rewrite Nat.add_succ_r.
Qed.

Lemma relu_Qmax (a : Q) : ((if Qlt_bool 0 a then a else 0) == Qmax 0 a)%Q.
Proof. apply (py_max_Qmax 0 a). Qed.

(** The numpy forward pass computes the scoring function of the
    specification. *)
Lemma forward_pass_spec (x : list Q) (W : ndarray2) :
  (py_max (1 # 1000)
     (np_mean (np_maximum0
        ((λ j, Qsum (imap (λ i xi, xi * entry W i j)%Q x)) <$> seq 0 (ncols W))))
   == spec_scoring x W)%Q.
Proof.
  rewrite py_max_Qmax. unfold spec_scoring, np_mean, np_maximum0.
  rewrite <- list_fmap_compose, length_fmap, length_seq.
  apply Q.max_compat; [reflexivity |].
  apply Qmult_comp; [| reflexivity].
  rewrite Qsum_fmap_seq. apply Qsum_upto_ext. intros j _.
  unfold compose, spec_hidden. cbn [Nat.add].
  rewrite relu_Qmax. apply Q.max_compat; [reflexivity |].
  apply Qsum_imap.
Qed.

(** ** The simulator: how methods return *)

Section SimulatorFacts.
Context {G : Type} `{Environment G}.

Abbreviation Method := (M (World G)).

Lemma returns_ret {A} (a : A) (P : A → Prop) (w : World G) :
  P a → returns (ret a) P w.
Proof. intros Ha. exists a, (env w). by destruct w. Qed.

Lemma returns_gets {A} (f : World G → A) (P : A → Prop) (w : World G) :
  P (f w) → returns (gets f) P w.
Proof. intros Ha. exists (f w), (env w). by destruct w. Qed.

Lemma returns_bind {A B} (m : Method A) (k : A → Method B)
    (P : A → Prop) (Q : B → Prop) (w : World G) :
  returns m P w →
  (∀ a g', P a → returns (k a) Q {| self := self w; env := g' |}) →
  returns (bind m k) Q w.
Proof.
  intros (a & g' & Hm & Ha) Hk.
  destruct (Hk a g' Ha) as (b & g'' & Hkb & Hb).
  exists b, g''. split; [| exact Hb].
  rewrite (bind_ok _ _ _ _ _ Hm). exact Hkb.
Qed.

Lemma returns_draw_raw (w : World G) : returns draw_raw (λ _, True) w.
Proof.
  unfold returns, draw_raw. destruct (next_raw (env w)) as [k g'].
  by exists k, g'.
Qed.

Lemma returns_random_random (w : World G) :
  returns random_random (λ u, (0 <= u)%Q ∧ (u < 1)%Q) w.
Proof.
  unfold random_random.
  eapply returns_bind; [apply returns_draw_raw |].
  intros k g' _. apply returns_ret. apply unit_interval_bounds.
Qed.

Lemma returns_random_uniform (a b : Q) (w : World G) :
  (a <= b)%Q →
  returns (random_uniform a b) (λ v, (a <= v)%Q ∧ (v <= b)%Q) w.
Proof.
  intros Hab. unfold random_uniform.
  eapply returns_bind; [apply returns_random_random |].
  intros u g' [H0 H1]. apply returns_ret. by apply uniform_bounds.
Qed.

Lemma returns_random_choice {A} (seq : list A) (w : World G) :
  seq ≠ [] → returns (random_choice seq) (λ x, x ∈ seq) w.
Proof.
  intros Hne. destruct seq as [| x seq]; [done |].
  unfold random_choice.
  eapply returns_bind; [apply returns_draw_raw |].
  intros k g' _. apply returns_ret.
  apply list_elem_of_In, nth_In.
  assert ((k mod N.of_nat (length (x :: seq)) < N.of_nat (length (x :: seq)))%N)
    by (apply N.mod_upper_bound; cbn [length]; lia).
  lia.
Qed.

Lemma returns_np_random_normal (loc scale : Q) (w : World G) :
  (0 <= scale)%Q → returns (np_random_normal loc scale) (λ _, True) w.
Proof.
  intros Hscale. unfold np_random_normal.
  assert (Qlt_bool scale 0 = false) as -> by by apply Qlt_bool_false.
  eapply returns_bind.
  - unfold returns, draw_gauss. destruct (next_gauss (env w)) as [z g'].
    exists z, g'. split; [reflexivity | exact I].
  - intros z g' _. by apply returns_ret.
Qed.

Lemma returns_neural_network_predict (x : list Q) (W : ndarray2) (w : World G) :
  length x = nrows W →
  returns (_neural_network_predict x W)
    (λ v, v = py_max (1 # 1000) (np_mean (np_maximum0
            ((λ j, Qsum (imap (λ i xi, xi * entry W i j)%Q x)) <$> seq 0 (ncols W))))
          ∧ (1 # 1000 <= v)%Q) w.
Proof.
  intros Hshape. unfold _neural_network_predict, np_dot.
  assert ((length x =? nrows W)%nat = true) as -> by by apply Nat.eqb_eq.
  apply (returns_bind _ _
    (λ product, product
       = (λ j, Qsum (imap (λ i xi, xi * entry W i j)%Q x)) <$> seq 0 (ncols W))).
  - eexists _, (env w). split; [by destruct w | reflexivity].
  - intros product g' ->. apply returns_ret. split; [reflexivity |].
    apply py_max_lower.
Qed.

Lemma returns_gets_eq {A} (f : World G → A) (w : World G) :
  returns (gets f) (λ a, a = f w) w.
Proof. by apply returns_gets. Qed.

Lemma returns_qos_priority (qos : QoSClass) (w : World G) :
  returns
    (dict_getitem
       (<["batch" := (3 # 10)%Q]>
          (<["interactive" := (6 # 10)%Q]> (<["realtime" := 1%Q]> ∅)))
       (QoSClass_value qos))
    (λ v, v = spec_qos_priority qos) w.
Proof.
  exists (spec_qos_priority qos), (env w).
  split; [| reflexivity]. destruct w, qos; vm_compute; reflexivity.
Qed.

Lemma returns_base_latency (qos : QoSClass) (w : World G) :
  returns
    (dict_getitem
       (<["batch" := 500%Q]>
          (<["interactive" := 150%Q]> (<["realtime" := 50%Q]> ∅)))
       (QoSClass_value qos))
    (λ v, v = spec_base_latency qos) w.
Proof.
  exists (spec_base_latency qos), (env w).
  split; [| reflexivity]. destruct w, qos; vm_compute; reflexivity.
Qed.

Lemma spec_base_latency_pos (qos : QoSClass) : (0 < spec_base_latency qos)%Q.
Proof. destruct qos; reflexivity. Qed.

(** The latency computation returns, and what it returns is at least 10. *)
Lemma calculate_message_latency_returns
    (source_region dest_region : string) (message_size_kb : Q)
    (qos_class : QoSClass) (w : World G) :
  nrows (latency_prediction (nn_weights (self w))) = 10%nat →
  returns
    (_calculate_message_latency source_region dest_region message_size_kb qos_class)
    (λ v, (10 <= v)%Q) w.
Proof.
  intros Hshape. unfold _calculate_message_latency.
  eapply returns_bind; [apply returns_qos_priority |]. intros qos_priority g0 _.
  eapply returns_bind; [apply returns_random_uniform; lra |]. intros network_load g1 _.
  eapply returns_bind; [apply returns_random_uniform; lra |]. intros congestion g2 _.
  eapply returns_bind; [apply returns_random_uniform; lra |]. intros efficiency g3 _.
  eapply returns_bind; [apply returns_random_uniform; lra |]. intros error_rate g4 _.
  eapply returns_bind; [apply returns_gets_eq |]. intros time g5 _.
  eapply returns_bind; [apply returns_gets_eq |]. intros population g6 _.
  eapply returns_bind; [apply returns_random_uniform; lra |]. intros network_factor g7 _.
  eapply returns_bind; [apply returns_gets_eq |]. intros weights g8 ->.
  eapply returns_bind;
    [apply returns_neural_network_predict; cbn [self]; by rewrite Hshape |].
  intros predicted g9 [_ Hpredicted].
  eapply returns_bind; [apply returns_base_latency |]. intros base g10 ->.
  apply (returns_bind _ _ (λ b, (0 <= b)%Q)).
  - destruct (negb _).
    + eapply returns_bind; [apply (returns_random_uniform 2 4); lra |].
      intros factor g11 [Hfactor _]. apply returns_ret.
      pose proof (spec_base_latency_pos qos_class). nra.
    + apply returns_ret. apply Qlt_le_weak, spec_base_latency_pos.
  - intros base g11 Hbase.
    eapply returns_bind; [apply returns_np_random_normal; nra |].
    intros noise g12 _. apply returns_ret. apply py_max_lower.
Qed.

(** *** Methods that leave the simulator object alone *)

Lemma frames_ret {A} (a : A) : frames (ret a : Method A).
Proof. intros w. reflexivity. Qed.

Lemma frames_raise {A} (e : exn) : frames (raise e : Method A).
Proof. intros w. reflexivity. Qed.

Lemma frames_gets {A} (f : World G → A) : frames (gets f).
Proof. intros w. reflexivity. Qed.

Lemma frames_lift {A} (r : result A) : frames (lift r : Method A).
Proof. intros w. reflexivity. Qed.

Lemma frames_bind {A B} (m : Method A) (k : A → Method B) :
  frames m → (∀ a, frames (k a)) → frames (bind m k).
Proof.
  intros Hm Hk w. unfold bind. specialize (Hm w).
  destruct (m w) as [[a | e] w1]; cbn [snd] in *; [| exact Hm].
  by rewrite Hk.
Qed.

Lemma frames_draw_raw : frames draw_raw.
Proof. intros w. unfold draw_raw. by destruct (next_raw (env w)). Qed.

Lemma frames_draw_gauss : frames draw_gauss.
Proof. intros w. unfold draw_gauss. by destruct (next_gauss (env w)). Qed.

Lemma frames_time_time : frames time_time.
Proof. intros w. unfold time_time. by destruct (next_time (env w)). Qed.

Lemma frames_random_random : frames random_random.
Proof.
  apply frames_bind; [apply frames_draw_raw | intros; apply frames_ret].
Qed.

Lemma frames_random_uniform (a b : Q) : frames (random_uniform a b).
Proof.
  apply frames_bind; [apply frames_random_random | intros; apply frames_ret].
Qed.

Lemma frames_random_choice {A} (seq : list A) : frames (random_choice seq).
Proof.
  destruct seq as [| x seq]; [apply frames_raise |].
  apply frames_bind; [apply frames_draw_raw | intros; apply frames_ret].
Qed.

Lemma frames_np_random_normal (loc scale : Q) :
  frames (np_random_normal loc scale).
Proof.
  unfold np_random_normal. destruct (Qlt_bool scale 0); [apply frames_raise |].
  apply frames_bind; [apply frames_draw_gauss | intros; apply frames_ret].
Qed.

Lemma frames_dict_getitem (d : gmap string Q) (k : string) :
  frames (dict_getitem d k : Method Q).
Proof.
  unfold dict_getitem. destruct (d !! k); [apply frames_ret | apply frames_raise].
Qed.

Lemma frames_py_truediv (a b : Q) : frames (py_truediv a b : Method Q).
Proof.
  unfold py_truediv. destruct (Qeq_bool b 0); [apply frames_raise | apply frames_ret].
Qed.

Lemma frames_py_floordiv (a b : Z) : frames (py_floordiv a b : Method Z).
Proof.
  unfold py_floordiv. destruct (b =? 0); [apply frames_raise | apply frames_ret].
Qed.

Create HintDb frames.

#[local] Hint Resolve frames_ret frames_raise frames_gets frames_lift
  frames_draw_raw frames_draw_gauss frames_time_time frames_random_random
  frames_random_uniform frames_random_choice frames_np_random_normal
  frames_dict_getitem frames_py_truediv frames_py_floordiv : frames.

Ltac frames_steps :=
  repeat first
    [ apply frames_bind; [| intros ?]
    | solve [auto with frames]
    | match goal with
      | |- frames (if ?b then _ else _) => destruct b
      | |- frames (let (_, _) := ?p in _) => destruct p
      end ].

Lemma frames_neural_network_predict (x : list Q) (W : ndarray2) :
  frames (_neural_network_predict x W : Method Q).
Proof. unfold _neural_network_predict. frames_steps. Qed.

Lemma frames_calculate_message_latency
    (source_region dest_region : string) (message_size_kb : Q)
    (qos_class : QoSClass) :
  frames (_calculate_message_latency source_region dest_region
            message_size_kb qos_class).
Proof.
  pose proof frames_neural_network_predict.
  unfold _calculate_message_latency. frames_steps.
Qed.

Lemma frames_simulate_message_processing
    (message_type : MessageType) (payload_size_kb : Q) :
  frames (_simulate_message_processing message_type payload_size_kb).
Proof.
  pose proof frames_neural_network_predict.
  pose proof frames_calculate_message_latency.
  unfold _simulate_message_processing. frames_steps.
Qed.

Lemma frames_for_fold {A L} (xs : list A) (body : A → L → Method L) (l : L) :
  (∀ x l, frames (body x l)) → frames (for_fold xs body l).
Proof.
  intros Hbody. revert l. induction xs as [| x xs IH]; intros l.
  - apply frames_ret.
  - cbn [for_fold]. apply frames_bind; [apply Hbody | intros l'; apply IH].
Qed.

(** *** Choosing the endpoints *)

Lemma Agent_eq_refl (a : Agent) : Agent_eq a a = true.
Proof.
  unfold Agent_eq. rewrite !bool_decide_eq_true_2 by reflexivity.
  by rewrite !Qeq_bool_refl.
Qed.

(** In a population of at least two pairwise distinct agents, every agent
    leaves another one to choose. *)
Lemma other_agents_nonempty (population : list Agent) (s : Agent) :
  population_ok population → s ∈ population →
  filter (λ a, negb (Agent_eq a s) = true) population ≠ [].
Proof.
  intros [Hlen Hdistinct] Hs.
  apply list_elem_of_lookup in Hs as [i Hi].
  set (j := match i with O => 1%nat | _ => 0%nat end).
  assert (Hj : is_Some (population !! j)).
  { apply lookup_lt_is_Some. subst j. destruct i; lia. }
  destruct Hj as [b Hb].
  assert (Hbs : Agent_eq b s = false).
  { apply (Hdistinct j i); [exact Hb | exact Hi |]. subst j. destruct i; lia. }
  assert (Hin : b ∈ filter (λ a, negb (Agent_eq a s) = true) population).
  { apply list_elem_of_filter. split.
    - by rewrite Hbs.
    - apply list_elem_of_lookup. by exists j. }
  intros Hnil. rewrite Hnil in Hin. by apply elem_of_nil in Hin.
Qed.

Lemma select_endpoints_returns (w : World G) :
  population_ok (agents (self w)) →
  returns select_endpoints
    (λ sd, sd.1 ∈ agents (self w) ∧ sd.2 ∈ agents (self w)
           ∧ Agent_eq sd.2 sd.1 = false) w.
Proof.
  intros Hpop. unfold select_endpoints.
  eapply returns_bind; [apply returns_gets_eq |]. intros population g0 ->.
  cbn [self].
  eapply returns_bind.
  { apply returns_random_choice. destruct Hpop as [Hlen _].
    destruct (agents (self w)); [cbn in Hlen; lia | done]. }
  intros s g1 Hs.
  eapply returns_bind.
  { apply returns_random_choice. by apply other_agents_nonempty. }
  intros d g2 Hd. apply returns_ret. cbn [fst snd].
  apply list_elem_of_filter in Hd as [Hds Hd].
  split; [exact Hs |]. split; [exact Hd |].
  by apply negb_true_iff in Hds.
Qed.

Lemma process_between_returns (s d : Agent) (payload : Q) (w : World G) :
  shapes_ok (self w) →
  returns (process_between s d payload) (λ r, (10 <= r.1)%Q) w.
Proof.
  intros [Hlat Hfail]. unfold process_between.
  eapply returns_bind; [apply returns_gets_eq |]. intros population g0 _.
  eapply returns_bind; [by apply calculate_message_latency_returns |].
  intros latency g1 Hlatency.
  eapply returns_bind; [apply returns_random_uniform; lra |]. intros error_rate g2 _.
  eapply returns_bind; [apply returns_gets_eq |]. intros weights g3 ->.
  eapply returns_bind;
    [apply returns_neural_network_predict; cbn [self]; by rewrite Hfail |].
  intros failure_probability g4 _.
  eapply returns_bind; [apply returns_random_random |]. intros draw g5 _.
  by apply returns_ret.
Qed.

(** [_simulate_message_processing] is the choice of the endpoints followed
    by the processing between them. *)
Lemma simulate_message_processing_split
    (message_type : MessageType) (payload : Q) (w : World G) :
  _simulate_message_processing message_type payload w
  = bind select_endpoints (λ sd, process_between sd.1 sd.2 payload) w.
Proof.
  unfold _simulate_message_processing, select_endpoints.
  rewrite bind_assoc, !bind_gets, bind_assoc.
  pose proof (frames_random_choice (agents (self w)) w) as Hself1.
  destruct (random_choice (agents (self w)) w) as [[s | e] w1] eqn:Hs.
  2: { by rewrite !(bind_raise _ _ _ _ _ Hs). }
  rewrite !(bind_ok _ _ _ _ _ Hs). rewrite bind_assoc.
  cbn [snd] in Hself1.
  pose proof (frames_random_choice
    (filter (λ a, negb (Agent_eq a s) = true) (agents (self w))) w1) as Hself2.
  destruct (random_choice _ w1) as [[d | e] w2] eqn:Hd.
  2: { by rewrite !(bind_raise _ _ _ _ _ Hd). }
  rewrite !(bind_ok _ _ _ _ _ Hd). rewrite bind_ret.
  cbn [snd fst] in *. unfold process_between. rewrite bind_gets.
  rewrite Hself2, Hself1. reflexivity.
Qed.

Lemma simulate_message_processing_returns
    (message_type : MessageType) (payload : Q) (w : World G) :
  ready (self w) →
  returns (_simulate_message_processing message_type payload)
    (λ r, (10 <= r.1)%Q) w.
Proof.
  intros [Hpop Hshapes].
  assert (returns (bind select_endpoints (λ sd, process_between sd.1 sd.2 payload))
            (λ r, (10 <= r.1)%Q) w) as (r & g' & Hrun & Hr).
  { eapply returns_bind; [by apply select_endpoints_returns |].
    intros sd g' _. by apply process_between_returns. }
  exists r, g'. split; [| exact Hr].
  rewrite simulate_message_processing_split. exact Hrun.
Qed.

(** *** What a returned latency satisfies, whatever the weights *)

Lemma ensures_bind {A B} (m : Method A) (k : A → Method B) (Q : B → Prop) :
  (∀ a, ensures (k a) Q) → ensures (bind m k) Q.
Proof.
  intros Hk w. unfold bind. destruct (m w) as [[a | e] w1]; [| exact I].
  apply Hk.
Qed.

Lemma ensures_bind_with {A B} (m : Method A) (k : A → Method B)
    (P : A → Prop) (Q : B → Prop) :
  ensures m P → (∀ a, P a → ensures (k a) Q) → ensures (bind m k) Q.
Proof.
  intros Hm Hk w. unfold bind. specialize (Hm w).
  destruct (m w) as [[a | e] w1]; [| exact I].
  by apply Hk.
Qed.

Lemma ensures_ret {A} (a : A) (P : A → Prop) : P a → ensures (ret a : Method A) P.
Proof. intros Ha w. exact Ha. Qed.

Lemma ensures_calculate_message_latency
    (source_region dest_region : string) (message_size_kb : Q)
    (qos_class : QoSClass) :
  ensures
    (_calculate_message_latency source_region dest_region message_size_kb qos_class)
    (λ v, (10 <= v)%Q).
Proof.
  unfold _calculate_message_latency.
  repeat (apply ensures_bind; intros ?).
  apply ensures_ret, py_max_lower.
Qed.

Lemma ensures_simulate_message_processing
    (message_type : MessageType) (payload_size_kb : Q) :
  ensures (_simulate_message_processing message_type payload_size_kb)
    (λ r, (10 <= r.1)%Q).
Proof.
  unfold _simulate_message_processing.
  do 3 (apply ensures_bind; intros ?).
  eapply ensures_bind_with; [apply ensures_calculate_message_latency |].
  intros latency Hlatency.
  repeat (apply ensures_bind; intros ?).
  by apply ensures_ret.
Qed.

(** *** Loops *)

Lemma returns_for_fold {A L} (I : nat → L → Prop) (xs : list A)
    (body : A → L → Method L) (l0 : L) (w : World G) :
  I 0%nat l0 →
  (∀ i x l g, xs !! i = Some x → I i l →
     returns (body x l) (I (S i)) {| self := self w; env := g |}) →
  returns (for_fold xs body l0) (I (length xs)) w.
Proof.
  revert I l0 w. induction xs as [| x xs IH]; intros I l0 w H0 Hbody.
  - by apply returns_ret.
  - cbn [for_fold length].
    apply (returns_bind _ _ (I 1%nat)).
    + destruct w as [s g]. by apply (Hbody 0%nat).
    + intros l1 g1 Hl1.
      apply (IH (λ i, I (S i))); [exact Hl1 |].
      intros i y l g Hy Hl. by apply (Hbody (S i)).
Qed.

Lemma completes_bind {A B} (m : Method A) (k : A → Method B)
    (P : A → World G → Prop) (Q : B → World G → Prop) (w : World G) :
  completes m P w →
  (∀ a w', P a w' → completes (k a) Q w') →
  completes (bind m k) Q w.
Proof.
  intros (a & w1 & Hm & Ha) Hk.
  destruct (Hk a w1 Ha) as (b & w2 & Hkb & Hb).
  exists b, w2. split; [| exact Hb].
  rewrite (bind_ok _ _ _ _ _ Hm). exact Hkb.
Qed.

Lemma completes_ret {A} (a : A) (P : A → World G → Prop) (w : World G) :
  P a w → completes (ret a) P w.
Proof. intros Ha. by exists a, w. Qed.

Lemma returns_completes {A} (m : Method A) (P : A → Prop) (w : World G) :
  returns m P w → completes m (λ a w', P a ∧ self w' = self w) w.
Proof. intros (a & g' & Hm & Ha). by exists a, {| self := self w; env := g' |}. Qed.

Lemma completes_for_fold {A L} (I : nat → L → World G → Prop) (xs : list A)
    (body : A → L → Method L) (l0 : L) (w : World G) :
  I 0%nat l0 w →
  (∀ i x l w', xs !! i = Some x → I i l w' →
     completes (body x l) (I (S i)) w') →
  completes (for_fold xs body l0) (I (length xs)) w.
Proof.
  revert I l0 w. induction xs as [| x xs IH]; intros I l0 w H0 Hbody.
  - by apply completes_ret.
  - cbn [for_fold length].
    apply (completes_bind _ _ (I 1%nat)).
    + by apply (Hbody 0%nat).
    + intros l1 w1 Hl1.
      apply (IH (λ i, I (S i))); [exact Hl1 |].
      intros i y l w' Hy Hl. by apply (Hbody (S i)).
Qed.

(** *** The large-scale run *)

Lemma same_setup_refl (s : IICPNeuralNetworkSimulator) : same_setup s s.
Proof. by repeat split. Qed.

Lemma same_setup_trans (s1 s2 s3 : IICPNeuralNetworkSimulator) :
  same_setup s1 s2 → same_setup s2 s3 → same_setup s1 s3.
Proof.
  unfold same_setup. intros (?&?&?&?&?&?&?) (?&?&?&?&?&?&?).
  repeat split; congruence.
Qed.

Lemma ready_same_setup (s s' : IICPNeuralNetworkSimulator) :
  same_setup s s' → ready s → ready s'.
Proof.
  unfold same_setup, ready, shapes_ok.
  intros (_&_&_&Hagents&_&_&Hweights). by rewrite Hagents, Hweights.
Qed.

Lemma large_scale_message_event (i : Z) (locals : LargeScaleLocals)
    (w : World G) :
  large_scale_message i locals w
  = bind message_event (λ r, ret (record_message locals r)) w.
Proof.
  unfold large_scale_message, message_event.
  rewrite bind_assoc. apply bind_congr; [reflexivity |]. intros message_type w1.
  rewrite bind_assoc. apply bind_congr; [reflexivity |]. intros payload w2.
  apply bind_congr; [reflexivity |]. intros [latency success] w3.
  reflexivity.
Qed.

Lemma large_scale_messages_events (xs : list Z) (locals : LargeScaleLocals)
    (w : World G) :
  for_fold xs large_scale_message locals w
  = bind (message_events (length xs))
      (λ outcomes, ret (fold_left record_message outcomes locals)) w.
Proof.
  revert locals w. induction xs as [| x xs IH]; intros locals w; [reflexivity |].
  cbn [for_fold length message_events].
  rewrite (bind_congr _ (bind message_event (λ r, ret (record_message locals r)))
             _ (λ l', bind (message_events (length xs))
                        (λ outcomes, ret (fold_left record_message outcomes l'))));
    [| apply large_scale_message_event | intros; apply IH].
  rewrite !bind_assoc. apply bind_congr; [reflexivity |]. intros r w1.
  rewrite bind_ret, bind_assoc. apply bind_congr; [reflexivity |].
  intros outcomes w2. reflexivity.
Qed.

Lemma large_scale_seconds_events (mps : Z) (seconds : list Z)
    (locals : LargeScaleLocals) (w : World G) :
  for_fold seconds (large_scale_second mps) locals w
  = bind (simulated_seconds (Z.to_nat mps) seconds)
      (λ outcomes, ret (fold_left record_message outcomes locals)) w.
Proof.
  revert locals w.
  induction seconds as [| second seconds IH]; intros locals w; [reflexivity |].
  cbn [for_fold simulated_seconds]. unfold large_scale_second.
  rewrite !bind_assoc. apply bind_congr; [reflexivity |]. intros [] w1.
  rewrite (bind_congr _ (bind (message_events (Z.to_nat mps))
                           (λ outcomes, ret (fold_left record_message outcomes locals)))
             _ (λ l', bind (simulated_seconds (Z.to_nat mps) seconds)
                        (λ later, ret (fold_left record_message later l'))));
    [| | intros; apply IH].
  2: { rewrite large_scale_messages_events. unfold py_range.
       rewrite length_seqZ. by rewrite Z.sub_0_r. }
  rewrite !bind_assoc. apply bind_congr; [reflexivity |]. intros outcomes w2.
  rewrite bind_ret, bind_assoc. apply bind_congr; [reflexivity |].
  intros later w3. rewrite bind_ret. by rewrite fold_left_app.
Qed.

Lemma record_messages_total outcomes locals :
  total_messages (fold_left record_message outcomes locals)
  = total_messages locals + Z.of_nat (length outcomes).
Proof.
  revert locals. induction outcomes as [| r outcomes IH]; intros locals.
  - cbn. lia.
  - cbn [fold_left length]. rewrite IH. cbn [record_message total_messages]. lia.
Qed.

Lemma record_messages_latencies outcomes locals :
  latencies (fold_left record_message outcomes locals)
  = latencies locals ++ outcomes.*1.
Proof.
  revert locals. induction outcomes as [| r outcomes IH]; intros locals.
  - cbn. by rewrite app_nil_r.
  - cbn [fold_left]. rewrite IH. cbn [record_message latencies].
    by rewrite <- app_assoc.
Qed.

Lemma record_messages_tally outcomes locals :
  successful_messages (fold_left record_message outcomes locals)
  + ls_error_count (fold_left record_message outcomes locals)
  = successful_messages locals + ls_error_count locals
    + Z.of_nat (length outcomes).
Proof.
  revert locals. induction outcomes as [| [latency success] outcomes IH];
    intros locals.
  - cbn. lia.
  - cbn [fold_left length]. rewrite IH.
    cbn [record_message successful_messages ls_error_count snd].
    destruct success; lia.
Qed.

Lemma message_event_returns (w : World G) :
  ready (self w) → returns message_event (λ r, (10 <= r.1)%Q) w.
Proof.
  intros Hready. unfold message_event.
  eapply returns_bind; [by apply returns_random_choice |]. intros message_type g1 _.
  eapply returns_bind; [apply returns_random_uniform; lra |]. intros payload g2 _.
  by apply simulate_message_processing_returns.
Qed.

Lemma message_events_returns (n : nat) (w : World G) :
  ready (self w) →
  returns (message_events n) (λ outcomes, length outcomes = n) w.
Proof.
  revert w. induction n as [| n IH]; intros w Hready.
  - by apply returns_ret.
  - cbn [message_events].
    eapply returns_bind; [by apply message_event_returns |]. intros r g1 _.
    eapply returns_bind; [by apply IH |]. intros outcomes g2 Hlen.
    apply returns_ret. cbn [length]. by rewrite Hlen.
Qed.

Lemma simulated_seconds_completes (mps : nat) (seconds : list Z) (w : World G) :
  ready (self w) →
  completes (simulated_seconds mps seconds)
    (λ outcomes w', length outcomes = (length seconds * mps)%nat
                    ∧ same_setup (self w) (self w')) w.
Proof.
  revert w. induction seconds as [| second seconds IH]; intros w Hready.
  - apply completes_ret. split; [reflexivity | apply same_setup_refl].
  - cbn [simulated_seconds].
    apply (completes_bind _ _ (λ _ w', same_setup (self w) (self w'))).
    { eexists tt, _. split; [reflexivity |]. by repeat split. }
    intros [] w1 Hsetup1.
    assert (Hready1 : ready (self w1)) by by apply (ready_same_setup (self w)).
    apply (completes_bind _ _
             (λ outcomes w', length outcomes = mps ∧ self w' = self w1)).
    { by apply returns_completes, message_events_returns. }
    intros outcomes w2 [Hlen Hself2].
    eapply completes_bind.
    { apply IH. by rewrite Hself2. }
    intros later w3 [Hlater Hsetup3]. apply completes_ret.
    split.
    + rewrite length_app, Hlen, Hlater. cbn [length]. lia.
    + apply (same_setup_trans _ (self w1)); [exact Hsetup1 |].
      by rewrite <- Hself2.
Qed.

(** *** The build-pipeline run *)

Lemma build_request_stages (build_id : Z) (locals : BuildLocals) (w : World G) :
  build_request build_id locals w
  = bind build_stages (λ t, ret (record_trial locals t)) w.
Proof.
  unfold build_request, build_stages.
  rewrite bind_assoc. apply bind_congr; [reflexivity |]. intros rust_payload w1.
  rewrite bind_assoc. apply bind_congr; [reflexivity |].
  intros [rust_latency rust_success] w2.
  rewrite bind_assoc. apply bind_congr; [reflexivity |]. intros python_payload w3.
  rewrite bind_assoc. apply bind_congr; [reflexivity |].
  intros [python_latency python_success] w4.
  reflexivity.
Qed.

Lemma build_requests_trials (xs : list Z) (locals : BuildLocals) (w : World G) :
  for_fold xs build_request locals w
  = bind (build_trials (length xs))
      (λ trials, ret (fold_left record_trial trials locals)) w.
Proof.
  revert locals w. induction xs as [| x xs IH]; intros locals w; [reflexivity |].
  cbn [for_fold length build_trials].
  rewrite (bind_congr _ (bind build_stages (λ t, ret (record_trial locals t)))
             _ (λ l', bind (build_trials (length xs))
                        (λ trials, ret (fold_left record_trial trials l'))));
    [| apply build_request_stages | intros; apply IH].
  rewrite !bind_assoc. apply bind_congr; [reflexivity |]. intros t w1.
  rewrite bind_ret, bind_assoc. apply bind_congr; [reflexivity |].
  intros trials w2. reflexivity.
Qed.

Lemma record_trials_total trials locals :
  total_builds (fold_left record_trial trials locals)
  = total_builds locals + Z.of_nat (length trials).
Proof.
  revert locals. induction trials as [| t trials IH]; intros locals.
  - cbn. lia.
  - cbn [fold_left length]. rewrite IH. cbn [record_trial total_builds]. lia.
Qed.

Lemma record_trials_latencies trials locals :
  build_latencies (fold_left record_trial trials locals)
  = build_latencies locals ++ (trial_latency <$> trials).
Proof.
  revert locals. induction trials as [| t trials IH]; intros locals.
  - cbn. by rewrite app_nil_r.
  - cbn [fold_left]. rewrite IH. cbn [record_trial build_latencies].
    by rewrite <- app_assoc.
Qed.

Lemma record_trials_successful trials locals :
  successful_builds (fold_left record_trial trials locals)
  = successful_builds locals + successes trials.
Proof.
  revert locals. induction trials as [| t trials IH]; intros locals.
  - change (successes []) with 0. cbn [fold_left]. lia.
  - cbn [fold_left]. rewrite IH. cbn [record_trial successful_builds].
    unfold successes. rewrite filter_cons.
    destruct (trial_success t) eqn:Ht.
    + rewrite decide_True by reflexivity. cbn [length]. lia.
    + rewrite decide_False by discriminate. lia.
Qed.

Lemma build_stages_returns (w : World G) :
  ready (self w) →
  returns build_stages (λ t, (10 <= t.1.1)%Q ∧ (10 <= t.2.1)%Q) w.
Proof.
  intros Hready. unfold build_stages.
  eapply returns_bind; [apply returns_random_uniform; lra |]. intros rp g1 _.
  eapply returns_bind; [by apply simulate_message_processing_returns |].
  intros rust g2 Hrust.
  eapply returns_bind; [apply returns_random_uniform; lra |]. intros pp g3 _.
  eapply returns_bind; [by apply simulate_message_processing_returns |].
  intros python g4 Hpython. by apply returns_ret.
Qed.

Lemma build_trials_returns (n : nat) (w : World G) :
  ready (self w) →
  returns (build_trials n) (λ trials, length trials = n) w.
Proof.
  revert w. induction n as [| n IH]; intros w Hready.
  - by apply returns_ret.
  - cbn [build_trials].
    eapply returns_bind; [by apply build_stages_returns |]. intros t g1 _.
    eapply returns_bind; [by apply IH |]. intros trials g2 Hlen.
    apply returns_ret. cbn [length]. by rewrite Hlen.
Qed.

(** C6.  A build-pipeline run on a ready simulator performs 1000 trials, each
    of two stage invocations: the loop leaves 1000 latency samples, the
    sample of a trial being the sum of its two stage latencies, counts as
    successful the trials whose two stage outcomes are both true, and the
    metrics it returns carry [error_count = 1000 - successful]. *)
Theorem build_pipeline_run (w : World G) :
  ready (self w) →
  ∃ trials locals metrics g1 g2,
    build_trials (Z.to_nat 1000) w = (Ok trials, {| self := self w; env := g1 |})
    ∧ Z.of_nat (length trials) = 1000
    ∧ build_loop w = (Ok locals, {| self := self w; env := g1 |})
    ∧ total_builds locals = 1000
    ∧ Z.of_nat (length (build_latencies locals)) = 1000
    ∧ build_latencies locals = (λ t, t.1.1 + t.2.1)%Q <$> trials
    ∧ successful_builds locals
      = Z.of_nat (length (filter (λ t, t.1.2 && t.2.2 = true) trials))
    ∧ run_build_system_simulation w
      = (Ok metrics, {| self := self w; env := g2 |})
    ∧ error_count metrics = 1000 - successful_builds locals.
Proof.
  intros Hready.
  destruct (build_trials_returns (Z.to_nat 1000) w Hready)
    as (trials & g1 & Htrials & Hlen).
  set (locals0 := {| total_builds := 0; successful_builds := 0;
                     build_latencies := [] |}).
  set (locals := fold_left record_trial trials locals0).
  assert (Hloop : build_loop w = (Ok locals, {| self := self w; env := g1 |})).
  { unfold build_loop. rewrite bind_gets. cbv zeta.
    rewrite build_requests_trials.
    unfold py_range. rewrite length_seqZ. change (1000 - 0) with 1000.
    by rewrite (bind_ok _ _ _ _ _ Htrials). }
  assert (Htotal : total_builds locals = 1000).
  { unfold locals. rewrite record_trials_total, Hlen. cbn [total_builds locals0].
    rewrite Z2Nat.id; lia. }
  assert (Hlat : build_latencies locals = trial_latency <$> trials).
  { unfold locals. by rewrite record_trials_latencies. }
  assert (Hsucc : successful_builds locals = successes trials).
  { unfold locals. rewrite record_trials_successful. cbn [successful_builds locals0]. lia. }
  destruct (returns_random_uniform 70 85 {| self := self w; env := g1 |})
    as (cpu & g2 & Hcpu & _); [lra |].
  eexists trials, locals, _, g1, g2.
  split; [exact Htrials |].
  split; [rewrite Hlen, Z2Nat.id; lia |].
  split; [exact Hloop |].
  split; [exact Htotal |].
  split; [rewrite Hlat, length_fmap, Hlen, Z2Nat.id; lia |].
  split; [exact Hlat |].
  split; [exact Hsucc |].
  split.
  - unfold run_build_system_simulation.
    rewrite (bind_ok _ _ _ _ _ Hloop). unfold py_truediv. rewrite Htotal.
    change (Qeq_bool (inject_Z 1000) 0) with false.
    change (Qeq_bool 300 0) with false. cbv beta iota.
    rewrite !bind_ret, (bind_ok _ _ _ _ _ Hcpu). reflexivity.
  - reflexivity.
Qed.

(** *** What the runs leave of the simulator object *)

Lemma frames_keeps_setup {A} (m : Method A) : frames m → keeps_setup m.
Proof. intros Hm w. rewrite Hm. apply same_setup_refl. Qed.

Lemma keeps_setup_bind {A B} (m : Method A) (k : A → Method B) :
  keeps_setup m → (∀ a, keeps_setup (k a)) → keeps_setup (bind m k).
Proof.
  intros Hm Hk w. unfold bind. specialize (Hm w).
  destruct (m w) as [[a | e] w1]; cbn [snd] in *; [| exact Hm].
  eapply same_setup_trans; [exact Hm | apply Hk].
Qed.

Lemma keeps_setup_for_fold {A L} (xs : list A) (body : A → L → Method L) (l : L) :
  (∀ x l, keeps_setup (body x l)) → keeps_setup (for_fold xs body l).
Proof.
  intros Hbody. revert l. induction xs as [| x xs IH]; intros l.
  - apply frames_keeps_setup, frames_ret.
  - cbn [for_fold]. apply keeps_setup_bind; [apply Hbody | intros l'; apply IH].
Qed.

Lemma keeps_setup_set_simulation_time (value : Q) :
  keeps_setup (set_simulation_time value : Method unit).
Proof. intros w. by repeat split. Qed.

Lemma frames_large_scale_message (i : Z) (locals : LargeScaleLocals) :
  frames (large_scale_message i locals).
Proof.
  pose proof frames_simulate_message_processing.
  unfold large_scale_message. frames_steps.
Qed.

Lemma keeps_setup_large_scale_loop (duration_seconds : Z) :
  keeps_setup (large_scale_loop duration_seconds).
Proof.
  unfold large_scale_loop.
  apply keeps_setup_bind;
    [apply frames_keeps_setup, frames_py_floordiv | intros mps].
  apply keeps_setup_bind;
    [apply frames_keeps_setup, frames_time_time | intros start_time].
  apply keeps_setup_bind; [| intros; apply frames_keeps_setup, frames_ret].
  apply keeps_setup_for_fold. intros second l. unfold large_scale_second.
  apply keeps_setup_bind; [apply keeps_setup_set_simulation_time | intros _].
  apply frames_keeps_setup, frames_for_fold, frames_large_scale_message.
Qed.

Lemma keeps_setup_run_large_scale_simulation (duration_seconds : Z) :
  keeps_setup (run_large_scale_simulation duration_seconds).
Proof.
  unfold run_large_scale_simulation.
  apply keeps_setup_bind; [apply keeps_setup_large_scale_loop |].
  intros [start_time locals]. apply frames_keeps_setup. frames_steps.
Qed.

Lemma frames_build_request (build_id : Z) (locals : BuildLocals) :
  frames (build_request build_id locals).
Proof.
  pose proof frames_simulate_message_processing.
  unfold build_request. frames_steps.
Qed.

Lemma frames_run_build_system_simulation : frames run_build_system_simulation.
Proof.
  unfold run_build_system_simulation, build_loop.
  apply frames_bind; [| intros locals; frames_steps].
  apply frames_bind; [apply frames_gets | intros population].
  apply frames_for_fold, frames_build_request.
Qed.

Lemma frames_simulate_all (calls : list (MessageType * Q)) :
  frames (simulate_all calls).
Proof.
  induction calls as [| [message_type payload] calls IH]; [apply frames_ret |].
  cbn [simulate_all].
  apply frames_bind; [apply frames_simulate_message_processing | intros outcome].
  apply frames_bind; [exact IH | intros; apply frames_ret].
Qed.

(** C9.  Simulation does not mutate the population.  A call of
    [_simulate_message_processing], any sequence of such calls and a
    build-pipeline run leave the whole simulator object as it was; a
    large-scale run leaves every agent and every router (and everything but
    [simulation_time]) as it was.  This holds whether the method returns or
    raises. *)
Theorem simulation_never_mutates_population (w : World G) :
  (∀ message_type payload,
     self (snd (_simulate_message_processing message_type payload w)) = self w)
  ∧ (∀ calls, self (snd (simulate_all calls w)) = self w)
  ∧ (∀ duration_seconds,
       agents (self (snd (run_large_scale_simulation duration_seconds w)))
       = agents (self w)
       ∧ routers (self (snd (run_large_scale_simulation duration_seconds w)))
         = routers (self w))
  ∧ self (snd (run_build_system_simulation w)) = self w.
Proof.
  split; [intros; apply frames_simulate_message_processing |].
  split; [intros; apply frames_simulate_all |].
  split; [| apply frames_run_build_system_simulation].
  intros duration_seconds.
  destruct (keeps_setup_run_large_scale_simulation duration_seconds w)
    as (_ & _ & _ & Hagents & Hrouters & _).
  by split.
Qed.

(** C10.  The [message_type] argument has no influence on the outcome of
    [_simulate_message_processing]: two calls that differ in it only return
    the same pair and leave the same world. *)
Theorem message_type_has_no_influence
    (message_type1 message_type2 : MessageType) (payload_size_kb : Q)
    (w : World G) :
  _simulate_message_processing message_type1 payload_size_kb w
  = _simulate_message_processing message_type2 payload_size_kb w.
Proof. reflexivity. Qed.

(** *** Populations too small to choose from *)

Lemma random_choice_singleton {A} (a : A) (w : World G) :
  random_choice [a] w
  = (Ok a, {| self := self w; env := (next_raw (env w)).2 |}).
Proof.
  unfold random_choice, bind, draw_raw, ret.
  destruct (next_raw (env w)) as [k g']. cbn [length snd].
  change (N.of_nat 1) with 1%N. by rewrite N.mod_1_r.
Qed.

Lemma select_endpoints_too_few (w : World G) :
  (length (agents (self w)) < 2)%nat →
  ∃ g', select_endpoints w
        = (Raise IndexError, {| self := self w; env := g' |}).
Proof.
  intros Hlen. unfold select_endpoints. rewrite bind_gets.
  destruct (agents (self w)) as [| a [| b population]] eqn:Hagents.
  - exists (env w). by destruct w.
  - exists (next_raw (env w)).2.
    rewrite (bind_ok _ _ _ _ _ (random_choice_singleton a w)).
    rewrite filter_cons, decide_False, filter_nil.
    + reflexivity.
    + rewrite Agent_eq_refl. discriminate.
  - cbn [length] in Hlen. lia.
Qed.

(** C8.  In a population of at least two pairwise distinct agents the
    source and the destination that [_simulate_message_processing] chooses
    are agents of the population and differ, and the call goes on with them;
    with fewer than two agents the choice raises [IndexError], so that the
    call returns nothing. *)
Theorem endpoints_distinct_or_fault
    (message_type : MessageType) (payload : Q) (w : World G) :
  (population_ok (agents (self w)) →
   ∃ s d g',
     select_endpoints w = (Ok (s, d), {| self := self w; env := g' |})
     ∧ s ∈ agents (self w) ∧ d ∈ agents (self w)
     ∧ Agent_eq d s = false ∧ s ≠ d
     ∧ _simulate_message_processing message_type payload w
       = process_between s d payload {| self := self w; env := g' |})
  ∧ ((length (agents (self w)) < 2)%nat →
     ∃ g',
       _simulate_message_processing message_type payload w
       = (Raise IndexError, {| self := self w; env := g' |})).
Proof.
  split.
  - intros Hpop.
    destruct (select_endpoints_returns w Hpop)
      as ([s d] & g' & Hselect & Hs & Hd & Hds).
    cbn [fst snd] in *.
    exists s, d, g'. split; [exact Hselect |].
    split; [exact Hs |]. split; [exact Hd |]. split; [exact Hds |].
    split.
    + intros ->. rewrite Agent_eq_refl in Hds. discriminate.
    + rewrite simulate_message_processing_split.
      by rewrite (bind_ok _ _ _ _ _ Hselect).
  - intros Hlen.
    destruct (select_endpoints_too_few w Hlen) as (g' & Hselect).
    exists g'. rewrite simulate_message_processing_split.
    by rewrite (bind_raise _ _ _ _ _ Hselect).
Qed.

(** C2.  Every latency that [_calculate_message_latency] returns, and so
    every latency that [_simulate_message_processing] returns, is at least
    10, whatever the environment, the population, the QoS class and the
    payload size; and on a simulator whose weight matrices have the shapes the
    constructor gives them (resp. on a ready simulator) the two methods do
    return. *)
Theorem latency_floor
    (source_region dest_region : string) (message_size_kb : Q)
    (qos_class : QoSClass) (message_type : MessageType) (payload_size_kb : Q)
    (w : World G) :
  (∀ v w',
     _calculate_message_latency source_region dest_region message_size_kb
       qos_class w = (Ok v, w') →
     (10 <= v)%Q)
  ∧ (∀ latency success w',
       _simulate_message_processing message_type payload_size_kb w
       = (Ok (latency, success), w') →
       (10 <= latency)%Q)
  ∧ (nrows (latency_prediction (nn_weights (self w))) = 10%nat →
     ∃ v w',
       _calculate_message_latency source_region dest_region message_size_kb
         qos_class w = (Ok v, w')
       ∧ (10 <= v)%Q)
  ∧ (ready (self w) →
     ∃ latency success w',
       _simulate_message_processing message_type payload_size_kb w
       = (Ok (latency, success), w')
       ∧ (10 <= latency)%Q).
Proof.
  split; [| split; [| split]].
  - intros v w' Hrun.
    pose proof (ensures_calculate_message_latency source_region dest_region
                  message_size_kb qos_class w) as Hfloor.
    by rewrite Hrun in Hfloor.
  - intros latency success w' Hrun.
    pose proof (ensures_simulate_message_processing message_type
                  payload_size_kb w) as Hfloor.
    by rewrite Hrun in Hfloor.
  - intros Hshape.
    destruct (calculate_message_latency_returns source_region dest_region
                message_size_kb qos_class w Hshape) as (v & g' & Hrun & Hv).
    by eexists _, _.
  - intros Hready.
    destruct (simulate_message_processing_returns message_type
                payload_size_kb w Hready) as ([latency success] & g' & Hrun & Hv).
    by eexists _, _, _.
Qed.

(** C5.  For every feature vector and weight matrix whose shapes align,
    [_neural_network_predict] returns the mean of the componentwise
    [max(0, x . W)] floored at 0.001; the value is at least 0.001, hence
    positive, and it is a function of the two arguments alone: the call reads
    and changes nothing of the world it runs in. *)
Theorem scoring_function_contract (x : list Q) (W : ndarray2) (w : World G) :
  length x = nrows W →
  ∃ v,
    _neural_network_predict x W w = (Ok v, w)
    ∧ (v == spec_scoring x W)%Q
    ∧ (1 # 1000 <= v)%Q
    ∧ (0 < v)%Q
    ∧ (∀ w' : World G, _neural_network_predict x W w' = (Ok v, w')).
Proof.
  intros Hshape.
  assert (Hrun : ∀ w' : World G,
    _neural_network_predict x W w'
    = (Ok (py_max (1 # 1000)
             (np_mean (np_maximum0
                ((λ j, Qsum (imap (λ i xi, xi * entry W i j)%Q x))
                   <$> seq 0 (ncols W))))), w')).
  { intros w'. unfold _neural_network_predict, np_dot.
    assert ((length x =? nrows W)%nat = true) as -> by by apply Nat.eqb_eq.
    reflexivity. }
  eexists. split; [apply Hrun |].
  split; [apply forward_pass_spec |].
  split; [apply py_max_lower |].
  split; [| exact Hrun].
  eapply Qlt_le_trans; [| apply py_max_lower]. reflexivity.
Qed.

(** *** The latency, draw by draw *)

Lemma random_uniform_run (a b : Q) (w : World G) :
  random_uniform a b w
  = (Ok (uniform_at a b (env w)),
     {| self := self w; env := skip_raw (env w) |}).
Proof.
  unfold random_uniform, random_random, draw_raw, bind, ret, uniform_at,
    skip_raw, unit_interval.
  by destruct (next_raw (env w)).
Qed.

Lemma uniform_at_bounds (a b : Q) (g : G) :
  (a <= b)%Q → (a <= uniform_at a b g)%Q ∧ (uniform_at a b g <= b)%Q.
Proof.
  intros Hab. apply uniform_bounds; [exact Hab | |];
    apply unit_interval_bounds.
Qed.

Lemma qos_priority_run (qos : QoSClass) (w : World G) :
  dict_getitem
    (<["batch" := (3 # 10)%Q]>
       (<["interactive" := (6 # 10)%Q]> (<["realtime" := 1%Q]> ∅)))
    (QoSClass_value qos) w
  = (Ok (spec_qos_priority qos), w).
Proof. destruct qos; vm_compute; reflexivity. Qed.

Lemma base_latency_run (qos : QoSClass) (w : World G) :
  dict_getitem
    (<["batch" := 500%Q]>
       (<["interactive" := 150%Q]> (<["realtime" := 50%Q]> ∅)))
    (QoSClass_value qos) w
  = (Ok (spec_base_latency qos), w).
Proof. destruct qos; vm_compute; reflexivity. Qed.

Lemma neural_network_predict_run (x : list Q) (W : ndarray2) (w : World G) :
  length x = nrows W →
  _neural_network_predict x W w = (Ok (forward_pass x W), w).
Proof.
  intros Hshape. unfold _neural_network_predict, np_dot.
  assert ((length x =? nrows W)%nat = true) as -> by by apply Nat.eqb_eq.
  reflexivity.
Qed.

Lemma np_random_normal_run (loc scale : Q) (w : World G) :
  (0 <= scale)%Q →
  np_random_normal loc scale w
  = (Ok (loc + scale * (next_gauss (env w)).1)%Q,
     {| self := self w; env := (next_gauss (env w)).2 |}).
Proof.
  intros Hscale. unfold np_random_normal.
  assert (Qlt_bool scale 0 = false) as -> by by apply Qlt_bool_false.
  unfold bind, draw_gauss, ret. by destruct (next_gauss (env w)).
Qed.

Lemma forward_pass_lower (x : list Q) (W : ndarray2) :
  (1 # 1000 <= forward_pass x W)%Q.
Proof. apply py_max_lower. Qed.

Lemma noise_scale_nonneg (base scoring : Q) :
  (0 <= base)%Q → (1 # 1000 <= scoring)%Q →
  (0 <= base * ((5 # 10) + scoring * 2) * (1 # 10))%Q.
Proof.
  intros Hbase Hscoring.
  apply Qmult_le_0_compat; [| lra].
  apply Qmult_le_0_compat; [exact Hbase | lra].
Qed.

Lemma calculate_message_latency_run
    (source_region dest_region : string) (message_size_kb : Q)
    (qos_class : QoSClass) (w : World G) :
  nrows (latency_prediction (nn_weights (self w))) = 10%nat →
  _calculate_message_latency source_region dest_region message_size_kb
    qos_class w
  = (Ok (spec_message_latency (self w) (env w) source_region dest_region
           message_size_kb qos_class).1,
     {| self := self w;
        env := (spec_message_latency (self w) (env w) source_region
                  dest_region message_size_kb qos_class).2 |}).
Proof.
  intros Hshape. unfold _calculate_message_latency.
  rewrite (bind_ok _ _ _ _ _ (qos_priority_run qos_class w)).
  do 4 (erewrite bind_ok; [| apply random_uniform_run]; cbn [self env]).
  rewrite !bind_gets. cbn [self env].
  erewrite bind_ok; [| apply random_uniform_run]. cbn [self env].
  rewrite bind_gets. cbn [self env].
  erewrite bind_ok;
    [| apply neural_network_predict_run; by rewrite Hshape]. cbn [self env].
  erewrite bind_ok; [| apply base_latency_run].
  fold (spec_latency_features (self w) (env w) source_region dest_region
          message_size_kb qos_class).
  set (scoring := forward_pass _ _).
  pose proof (forward_pass_lower
    (spec_latency_features (self w) (env w) source_region dest_region
       message_size_kb qos_class)
    (latency_prediction (nn_weights (self w)))) as Hscoring.
  fold scoring in Hscoring.
  pose proof (spec_base_latency_pos qos_class) as Hbase.
  unfold spec_message_latency. fold scoring.
  set (g5 := skip_raw (skip_raw (skip_raw (skip_raw (skip_raw (env w)))))).
  destruct (bool_decide (source_region ≠ dest_region)).
  - change (negb (Qeq_bool 1 0)) with true. cbv beta iota.
    rewrite bind_assoc.
    erewrite bind_ok; [| apply random_uniform_run]. cbn [self env].
    rewrite bind_ret.
    pose proof (uniform_at_bounds 2 4 g5) as [Hfactor _]; [lra |].
    erewrite bind_ok;
      [| apply np_random_normal_run, noise_scale_nonneg;
         [apply Qmult_le_0_compat; lra | exact Hscoring]].
    reflexivity.
  - change (negb (Qeq_bool 0 0)) with false. cbv beta iota.
    rewrite bind_ret.
    erewrite bind_ok;
      [| apply np_random_normal_run, noise_scale_nonneg;
         [lra | exact Hscoring]].
    reflexivity.
Qed.

Lemma frames_select_endpoints : frames select_endpoints.
Proof. unfold select_endpoints. frames_steps. Qed.

(** The latency that [_simulate_message_processing] returns is the one the
    latency computation yields for the chosen endpoints. *)
Lemma process_between_latency (s d : Agent) (payload latency : Q)
    (w1 w2 : World G) :
  nrows (failure_prediction (nn_weights (self w1))) = 6%nat →
  _calculate_message_latency (region s) (region d) payload
    (performance_class s) w1 = (Ok latency, w2) →
  ∃ success w3, process_between s d payload w1 = (Ok (latency, success), w3).
Proof.
  intros Hshape Hcalc.
  pose proof (frames_calculate_message_latency (region s) (region d) payload
                (performance_class s) w1) as Hself.
  rewrite Hcalc in Hself. cbn [snd] in Hself.
  unfold process_between. rewrite bind_gets, (bind_ok _ _ _ _ _ Hcalc).
  match goal with
  | |- ∃ _ _, ?m w2 = _ =>
      assert (returns m (λ r, r.1 = latency) w2)
        as ([latency' success] & g' & Hrun & Hlatency)
  end.
  { eapply returns_bind; [apply returns_random_uniform; lra |].
    intros error_rate g1 _.
    eapply returns_bind; [apply returns_gets_eq |]. intros weights g2 ->.
    eapply returns_bind;
      [apply returns_neural_network_predict; cbn [self];
       by rewrite Hself, Hshape |].
    intros failure_probability g3 _.
    eapply returns_bind; [apply returns_random_random |]. intros draw g4 _.
    by apply returns_ret. }
  cbn [fst] in Hlatency. subst latency'. by eexists _, _.
Qed.

(** C4.  The latency of a message is computed from the base latency of the
    QoS class it is simulated with: 50, 150 or 500; when the two regions
    differ, and only then, that base is first multiplied by one factor drawn
    uniformly from [2, 4]; the scoring adjustment, the noise and the floor
    come after.  [_simulate_message_processing] computes the latency it
    returns in this way from the regions of the chosen source and destination
    and from the QoS class of the source. *)
Theorem base_latency_by_qos_and_region
    (source_region dest_region : string) (message_size_kb : Q)
    (qos_class : QoSClass) (message_type : MessageType) (payload : Q)
    (w : World G) :
  shapes_ok (self w) →
  let g5 := skip_raw (skip_raw (skip_raw (skip_raw (skip_raw (env w))))) in
  let scoring :=
    forward_pass
      (spec_latency_features (self w) (env w) source_region dest_region
         message_size_kb qos_class)
      (latency_prediction (nn_weights (self w))) in
  (spec_base_latency REALTIME = 50%Q
   ∧ spec_base_latency INTERACTIVE = 150%Q
   ∧ spec_base_latency BATCH = 500%Q)
  ∧ (source_region = dest_region →
     _calculate_message_latency source_region dest_region message_size_kb
       qos_class w
     = (Ok (spec_final_latency (spec_base_latency qos_class) scoring
              (next_gauss g5).1),
        {| self := self w; env := (next_gauss g5).2 |}))
  ∧ (source_region ≠ dest_region →
     (2 <= uniform_at 2 4 g5)%Q ∧ (uniform_at 2 4 g5 <= 4)%Q
     ∧ _calculate_message_latency source_region dest_region message_size_kb
         qos_class w
       = (Ok (spec_final_latency
                (spec_base_latency qos_class * uniform_at 2 4 g5) scoring
                (next_gauss (skip_raw g5)).1),
          {| self := self w; env := (next_gauss (skip_raw g5)).2 |}))
  ∧ (∀ s d w1 latency w2,
       select_endpoints w = (Ok (s, d), w1) →
       _calculate_message_latency (region s) (region d) payload
         (performance_class s) w1 = (Ok latency, w2) →
       ∃ success w3,
         _simulate_message_processing message_type payload w
         = (Ok (latency, success), w3)).
Proof.
  intros [Hlat Hfail] g5 scoring.
  pose proof (calculate_message_latency_run source_region dest_region
                message_size_kb qos_class w Hlat) as Hrun.
  unfold spec_message_latency in Hrun. fold g5 scoring in Hrun.
  split; [by repeat split |].
  split; [| split].
  - intros Heq. rewrite Hrun.
    by rewrite (bool_decide_eq_false_2 (source_region ≠ dest_region))
      by (intros Hne; by apply Hne).
  - intros Hne. pose proof (uniform_at_bounds 2 4 g5) as [Hlo Hhi]; [lra |].
    split; [exact Hlo |]. split; [exact Hhi |].
    rewrite Hrun. by rewrite (bool_decide_eq_true_2 _ Hne).
  - intros s d w1 latency w2 Hselect Hcalc.
    pose proof (frames_select_endpoints w) as Hself.
    rewrite Hselect in Hself.
    cbn [snd] in Hself.
    destruct (process_between_latency s d payload latency w1 w2)
      as (success & w3 & Hprocess); [by rewrite Hself | exact Hcalc |].
    exists success, w3.
    rewrite simulate_message_processing_split.
    by rewrite (bind_ok _ _ _ _ _ Hselect).
Qed.

End SimulatorFacts.

(** ** The properties on concrete inputs *)

Module ExampleFacts.
Import Examples.

Lemma two_agents_ready : ready (self two_agents).
Proof.
  split; [split |].
  - cbn. lia.
  - intros i j a b Ha Hb Hij.
    destruct i as [| [| i]], j as [| [| j]]; cbn in Ha, Hb;
      try discriminate; try (exfalso; lia);
      inversion Ha; inversion Hb; subst; reflexivity.
  - split; reflexivity.
Qed.

Example predict_small :
  _neural_network_predict [1; 2]%Q (constant_matrix 2 3 (1 # 2)) two_agents
  = (Ok (288 # 192)%Q, two_agents).
Proof. vm_compute. reflexivity. Qed.

Example predict_shape_mismatch :
  _neural_network_predict [1; 2; 3]%Q (constant_matrix 2 3 (1 # 2)) two_agents
  = (Raise ValueError, two_agents).
Proof. vm_compute. reflexivity. Qed.

Example predict_negative_weights :
  _neural_network_predict [1; 2]%Q (constant_matrix 2 3 (-1 # 2)) two_agents
  = (Ok (1 # 1000)%Q, two_agents).
Proof. vm_compute. reflexivity. Qed.

Example simulate_two_agents :
  match (_simulate_message_processing CALL 10 two_agents).1 with
  | Ok (latency, success) => Qle_bool 10 latency
  | Raise _ => false
  end = true.
Proof. vm_compute. reflexivity. Qed.

Example simulate_one_agent :
  (_simulate_message_processing CALL 10 one_agent).1 = Raise IndexError.
Proof. vm_compute. reflexivity. Qed.

Example simulate_no_agent :
  (_simulate_message_processing CALL 10 (world [])).1 = Raise IndexError.
Proof. vm_compute. reflexivity. Qed.

Example large_scale_zero_duration :
  (run_large_scale_simulation 0 two_agents).1 = Raise ZeroDivisionError.
Proof. vm_compute. reflexivity. Qed.

End ExampleFacts.

Lemma latency_floor_witness :
  (nrows (latency_prediction (nn_weights (self Examples.two_agents))) = 10%nat
   ∧ ∃ v w',
       _calculate_message_latency "us-east-1" "us-west-2" 10 BATCH
         Examples.two_agents = (Ok v, w')
       ∧ (10 <= v)%Q)
  ∧ (ready (self Examples.two_agents)
     ∧ ∃ latency success w',
         _simulate_message_processing CALL 10 Examples.two_agents
         = (Ok (latency, success), w')
         ∧ (10 <= latency)%Q).
Proof.
  pose proof (latency_floor "us-east-1" "us-west-2" 10 BATCH CALL 10
                Examples.two_agents) as (Hcalc & Hsim & Hcalc_returns & Hsim_returns).
  assert (Hshape :
    nrows (latency_prediction (nn_weights (self Examples.two_agents))) = 10%nat)
    by reflexivity.
  split.
  - split; [exact Hshape |].
    destruct (Hcalc_returns Hshape) as (v & w' & Hrun & _).
    exists v, w'. split; [exact Hrun | exact (Hcalc v w' Hrun)].
  - split; [exact ExampleFacts.two_agents_ready |].
    destruct (Hsim_returns ExampleFacts.two_agents_ready)
      as (latency & success & w' & Hrun & _).
    exists latency, success, w'.
    split; [exact Hrun | exact (Hsim latency success w' Hrun)].
Defined.

Lemma base_latency_by_qos_and_region_witness :
  shapes_ok (self Examples.two_agents)
  ∧ (∃ scoring gauss w',
       _calculate_message_latency "us-east-1" "us-east-1" 10 INTERACTIVE
         Examples.two_agents
       = (Ok (spec_final_latency 150 scoring gauss), w'))
  ∧ (∃ factor scoring gauss w',
       (2 <= factor)%Q ∧ (factor <= 4)%Q
       ∧ _calculate_message_latency "us-east-1" "us-west-2" 10 BATCH
           Examples.two_agents
         = (Ok (spec_final_latency (500 * factor) scoring gauss), w'))
  ∧ ∃ latency success w',
      _simulate_message_processing CALL 10 Examples.two_agents
      = (Ok (latency, success), w').
Proof.
  assert (Hshapes : shapes_ok (self Examples.two_agents))
    by (split; reflexivity).
  split; [exact Hshapes |]. split; [| split].
  - destruct (base_latency_by_qos_and_region "us-east-1" "us-east-1" 10
                INTERACTIVE CALL 10 Examples.two_agents Hshapes)
      as (_ & Hsame & _).
    eexists _, _, _. exact (Hsame eq_refl).
  - destruct (base_latency_by_qos_and_region "us-east-1" "us-west-2" 10
                BATCH CALL 10 Examples.two_agents Hshapes)
      as (_ & _ & Hcross & _).
    destruct Hcross as (Hlo & Hhi & Hrun); [discriminate |].
    eexists _, _, _, _. split; [exact Hlo |]. split; [exact Hhi | exact Hrun].
  - destruct (base_latency_by_qos_and_region "us-east-1" "us-west-2" 10
                BATCH CALL 10 Examples.two_agents Hshapes)
      as (_ & _ & _ & Hsim).
    destruct (select_endpoints_returns Examples.two_agents
                (proj1 ExampleFacts.two_agents_ready))
      as ([s d] & g1 & Hselect & _).
    destruct (calculate_message_latency_returns (region s) (region d) 10
                (performance_class s)
                {| self := self Examples.two_agents; env := g1 |})
      as (latency & g2 & Hcalc & _); [reflexivity |].
    destruct (Hsim s d _ latency _ Hselect Hcalc) as (success & w3 & Hrun).
    by exists latency, success, w3.
Defined.

Lemma scoring_function_contract_witness :
  length [1; 2]%Q = nrows (Examples.constant_matrix 2 3 (1 # 2))
  ∧ ∃ v,
      _neural_network_predict [1; 2]%Q (Examples.constant_matrix 2 3 (1 # 2))
        Examples.two_agents = (Ok v, Examples.two_agents)
      ∧ (v == spec_scoring [1; 2]%Q (Examples.constant_matrix 2 3 (1 # 2)))%Q
      ∧ (0 < v)%Q.
Proof.
  split; [reflexivity |].
  destruct (scoring_function_contract [1; 2]%Q
              (Examples.constant_matrix 2 3 (1 # 2)) Examples.two_agents eq_refl)
    as (v & Hrun & Hspec & _ & Hpos & _).
  exists v. split; [exact Hrun |]. split; [exact Hspec | exact Hpos].
Defined.

Lemma build_pipeline_run_witness :
  ready (self Examples.two_agents)
  ∧ ∃ locals metrics w1 w2,
      build_loop Examples.two_agents = (Ok locals, w1)
      ∧ Z.of_nat (length (build_latencies locals)) = 1000
      ∧ run_build_system_simulation Examples.two_agents = (Ok metrics, w2)
      ∧ error_count metrics = 1000 - successful_builds locals.
Proof.
  split; [exact ExampleFacts.two_agents_ready |].
  destruct (build_pipeline_run Examples.two_agents
              ExampleFacts.two_agents_ready)
    as (trials & locals & metrics & g1 & g2 & _ & _ & Hloop & _ & Hsamples
        & _ & _ & Hrun & Herrors).
  eexists locals, metrics, _, _.
  split; [exact Hloop |]. split; [exact Hsamples |].
  split; [exact Hrun | exact Herrors].
Defined.

Lemma endpoints_distinct_or_fault_witness :
  (population_ok (agents (self Examples.two_agents))
   ∧ ∃ s d w',
       select_endpoints Examples.two_agents = (Ok (s, d), w') ∧ s ≠ d)
  ∧ ((length (agents (self Examples.one_agent)) < 2)%nat
     ∧ ∃ w',
         _simulate_message_processing CALL 10 Examples.one_agent
         = (Raise IndexError, w')).
Proof.
  split.
  - split; [exact (proj1 ExampleFacts.two_agents_ready) |].
    destruct (proj1 (endpoints_distinct_or_fault CALL 10 Examples.two_agents)
                (proj1 ExampleFacts.two_agents_ready))
      as (s & d & g' & Hselect & _ & _ & _ & Hne & _).
    by eexists s, d, _.
  - assert (Hlen : (length (agents (self Examples.one_agent)) < 2)%nat)
      by (cbn; lia).
    split; [exact Hlen |].
    destruct (proj2 (endpoints_distinct_or_fault CALL 10 Examples.one_agent)
                Hlen) as (g' & Hrun).
    by eexists.
Defined.

(** ** The analyzer on arbitrary tables *)

Module AnalyzerTables.
Import Analyzer AnalyzerSpec SetFacts AnalyzerFacts.

Lemma analyze_header_field_consistency_hardcoded :
  analyze_header_field_consistency
  = analyze_header_field_consistency_of iicp_headers.
Proof. reflexivity. Qed.

Lemma analyze_version_compatibility_hardcoded :
  analyze_version_compatibility
  = analyze_version_compatibility_of 0x09 0x0E 0x0E.
Proof. reflexivity. Qed.

Lemma calculate_integrity_score_hardcoded :
  calculate_integrity_score
  = calculate_integrity_score_of expected_opcodes iicp_headers 0x09 0x0E 0x0E.
Proof. reflexivity. Qed.

(** A loop that clears the flag [key] and logs [msg x] for every [x] that
    fails [ok]. *)
Lemma flag_loop_run {A} (ok : A → bool) (msg : A → string) (key : string)
    (xs : list A) (cc : gmap string bool) self :
  for_fold xs
    (λ x cc,
       if negb (ok x)
       then issues_append (msg x) ;;; ret (<[key := false]> cc)
       else ret cc)
    cc self
  = (Ok (if forallb ok xs then cc else <[key := false]> cc),
     logged self (msg <$> filter (λ x, ok x = false) xs)).
Proof.
  revert cc self. induction xs as [| x xs IH]; intros cc self.
  - cbn. by rewrite logged_nil.
  - cbn [for_fold forallb]. rewrite bind_unfold.
    destruct (ok x) eqn:Hx; cbn [negb andb].
    + unfold ret at 1. rewrite IH.
      by rewrite filter_cons_False by (rewrite Hx; discriminate).
    + rewrite bind_unfold, issues_append_run. unfold ret at 1. rewrite IH.
      rewrite filter_cons_True by exact Hx.
      rewrite logged_logged, insert_insert_eq.
      by destruct (forallb ok xs).
Qed.

Lemma message_flags_unique u r c :
  <["opcode_uniqueness" := false]> (message_flags u r c) = message_flags false r c.
Proof.
  unfold message_flags.
  rewrite (insert_insert_ne _ "opcode_uniqueness" "completeness") by done.
  rewrite (insert_insert_ne _ "opcode_uniqueness" "range_validity") by done.
  by rewrite insert_insert_eq.
Qed.

Lemma message_flags_range u r c :
  <["range_validity" := false]> (message_flags u r c) = message_flags u false c.
Proof.
  unfold message_flags.
  rewrite (insert_insert_ne _ "range_validity" "completeness") by done.
  by rewrite insert_insert_eq.
Qed.

Lemma message_flags_complete u r c :
  <["completeness" := false]> (message_flags u r c) = message_flags u r false.
Proof. unfold message_flags. by rewrite insert_insert_eq. Qed.

Lemma header_flags_named n :
  <["naming_convention" := false]> (header_flags n) = header_flags false.
Proof.
  unfold header_flags.
  rewrite (insert_insert_ne _ "naming_convention" "required_coverage") by done.
  rewrite (insert_insert_ne _ "naming_convention" "type_consistency") by done.
  by rewrite insert_insert_eq.
Qed.

Lemma version_flags_valid v :
  <["range_validity" := false]> (version_flags v) = version_flags false.
Proof.
  unfold version_flags.
  rewrite (insert_insert_ne _ "range_validity" "forward_compatibility") by done.
  rewrite (insert_insert_ne _ "range_validity" "backward_compatibility") by done.
  by rewrite insert_insert_eq.
Qed.

(** What [analyze_message_consistency] returns and logs, for any table. *)
Lemma message_consistency_run (table : list (MessageType * Z)) self :
  analyze_message_consistency_of table self
  = (Ok (message_flags (opcodes_unique table.*2)
           (forallb opcode_in_range table.*2) (opcodes_complete table.*2)),
     logged self (message_issues table.*2)).
Proof.
  unfold analyze_message_consistency_of, message_issues.
  set (opcodes := table.*2).
  change (<["completeness" := true]> _) with (message_flags true true true).
  fold (opcodes_unique opcodes).
  rewrite bind_unfold.
  assert ((if negb (opcodes_unique opcodes)
           then issues_append "Duplicate opcodes found in message type definitions" ;;;
                ret (<["opcode_uniqueness" := false]> (message_flags true true true))
           else ret (message_flags true true true)) self
          = (Ok (message_flags (opcodes_unique opcodes) true true),
             logged self (if opcodes_unique opcodes then []
                          else ["Duplicate opcodes found in message type definitions"])))
    as ->.
  { destruct (opcodes_unique opcodes); cbn [negb].
    - by rewrite logged_nil.
    - by rewrite bind_unfold, issues_append_run, message_flags_unique. }
  rewrite bind_unfold.
  rewrite (flag_loop_run opcode_in_range range_issue "range_validity").
  rewrite logged_logged.
  assert ((if forallb opcode_in_range opcodes
           then message_flags (opcodes_unique opcodes) true true
           else <["range_validity" := false]>
                  (message_flags (opcodes_unique opcodes) true true))
          = message_flags (opcodes_unique opcodes)
              (forallb opcode_in_range opcodes) true) as ->.
  { destruct (forallb opcode_in_range opcodes);
      [reflexivity | apply message_flags_range]. }
  rewrite bind_unfold.
  fold (missing_opcodes opcodes).
  unfold opcodes_complete.
  destruct (decide (missing_opcodes opcodes = ∅)) as [Hnone | Hsome].
  - rewrite (bool_decide_eq_true_2 _ Hnone), app_nil_r.
    rewrite (bool_decide_eq_false_2 (missing_opcodes opcodes ≠ ∅))
      by (intros Hne; by apply Hne).
    by destruct (bool_decide _).
  - rewrite (bool_decide_eq_false_2 _ Hsome).
    rewrite (bool_decide_eq_true_2 (missing_opcodes opcodes ≠ ∅)) by exact Hsome.
    rewrite bool_decide_eq_true_2.
    + rewrite bind_unfold, issues_append_run. unfold ret.
      by rewrite logged_logged, <- app_assoc, message_flags_complete.
    + intros Heq. apply Hsome. unfold missing_opcodes. rewrite Heq.
      apply elem_of_equiv_empty_L. intros x [? ?]%elem_of_difference. done.
Qed.

Lemma header_consistency_run (headers : list string) self :
  analyze_header_field_consistency_of headers self
  = (Ok (header_flags (forallb (String.prefix "X-IICP-") headers)),
     logged self (header_issues headers)).
Proof.
  unfold analyze_header_field_consistency_of, header_issues.
  change (<["required_coverage" := true]> _) with (header_flags true).
  rewrite bind_unfold.
  rewrite (flag_loop_run (String.prefix "X-IICP-") header_issue "naming_convention").
  unfold ret. f_equal. f_equal.
  destruct (forallb _ headers); [reflexivity | apply header_flags_named].
Qed.

Lemma version_compatibility_run (min_version max_version current_version : Z) self :
  analyze_version_compatibility_of min_version max_version current_version self
  = (Ok (version_flags (version_valid min_version max_version current_version)),
     logged self (version_issues min_version max_version current_version)).
Proof.
  unfold analyze_version_compatibility_of, version_issues, version_valid.
  change (<["forward_compatibility" := true]> _) with (version_flags true).
  rewrite bind_unfold.
  destruct (min_version >=? max_version);
    destruct ((current_version <? min_version) || (current_version >? max_version));
    cbn [negb andb];
    rewrite ?bind_unfold, ?issues_append_run; unfold ret;
    rewrite ?bind_unfold, ?issues_append_run, ?logged_logged, ?logged_nil,
      ?version_flags_valid;
    reflexivity.
Qed.

Lemma message_flags_count u r c :
  py_len_dict (message_flags u r c) = 3
  ∧ py_sum_values (message_flags u r c) = Z.b2z u + Z.b2z r + Z.b2z c.
Proof. destruct u, r, c; vm_compute; split; reflexivity. Qed.

Lemma header_flags_count n :
  py_len_dict (header_flags n) = 3
  ∧ py_sum_values (header_flags n) = Z.b2z n + 2.
Proof. destruct n; vm_compute; split; reflexivity. Qed.

Lemma version_flags_count v :
  py_len_dict (version_flags v) = 3
  ∧ py_sum_values (version_flags v) = Z.b2z v + 2.
Proof. destruct v; vm_compute; split; reflexivity. Qed.

Lemma integrity_score_run (table : list (MessageType * Z))
    (headers : list string) (min_version max_version current_version : Z) self :
  calculate_integrity_score_of table headers min_version max_version
    current_version self
  = (Ok (inject_Z
           (passed_flags (opcodes_unique table.*2)
              (forallb opcode_in_range table.*2) (opcodes_complete table.*2)
              (forallb (String.prefix "X-IICP-") headers)
              (version_valid min_version max_version current_version))
         / inject_Z 9 * 100)%Q,
     logged self
       (message_issues table.*2 ++ header_issues headers
        ++ version_issues min_version max_version current_version)).
Proof.
  unfold calculate_integrity_score_of.
  rewrite (bind_ok _ _ _ _ _ (message_consistency_run table self)).
  rewrite (bind_ok _ _ _ _ _ (header_consistency_run headers _)).
  rewrite (bind_ok _ _ _ _ _ (version_compatibility_run _ _ _ _)).
  rewrite !logged_logged.
  destruct (message_flags_count (opcodes_unique table.*2)
              (forallb opcode_in_range table.*2) (opcodes_complete table.*2))
    as [-> ->].
  destruct (header_flags_count (forallb (String.prefix "X-IICP-") headers))
    as [-> ->].
  destruct (version_flags_count
              (version_valid min_version max_version current_version))
    as [-> ->].
  unfold py_truediv. change (Qeq_bool (inject_Z (3 + 3 + 3)) 0) with false.
  cbv beta iota. rewrite bind_ret. unfold ret, passed_flags.
  match goal with
  | |- context [(inject_Z ?a / inject_Z (3 + 3 + 3))%Q] =>
      match goal with
      | |- _ = (Ok (inject_Z ?b / _ * _)%Q, _) => replace a with b by lia
      end
  end.
  reflexivity.
Qed.

(** *** The conditions in mathematical terms *)

Lemma opcodes_unique_NoDup (opcodes : list Z) :
  opcodes_unique opcodes = true ↔ NoDup opcodes.
Proof.
  unfold opcodes_unique. rewrite Nat.eqb_eq. split.
  - induction opcodes as [| x l IH]; intros Hsize; [constructor |].
    rewrite list_to_set_cons, size_union_alt, size_singleton in Hsize.
    cbn [length] in Hsize.
    pose proof (size_list_to_set_le l) as Hle.
    assert (size (list_to_set l ∖ {[x]} : gset Z) ≤ size (list_to_set l : gset Z))%nat
      as Hdiff by (apply subseteq_size, subseteq_difference_l; reflexivity).
    assert (Heq : size (list_to_set l ∖ {[x]} : gset Z)
                  = size (list_to_set l : gset Z)) by lia.
    apply NoDup_cons. split; [| apply IH; lia].
    intros Hx.
    assert (list_to_set l ∖ {[x]} ⊂ (list_to_set l : gset Z)) as Hstrict.
    { split; [apply subseteq_difference_l; reflexivity |].
      intros Hsub. specialize (Hsub x).
      rewrite elem_of_difference, elem_of_list_to_set in Hsub.
      destruct (Hsub Hx) as [_ Hne]. apply Hne. by apply elem_of_singleton. }
    apply subset_size in Hstrict. lia.
  - intros Hnodup. symmetry. by apply size_list_to_set.
Qed.

Lemma opcodes_in_range_Forall (opcodes : list Z) :
  forallb opcode_in_range opcodes = true ↔ Forall (λ o, 1 ≤ o ≤ 14) opcodes.
Proof.
  rewrite <- Is_true_true, forallb_True. apply Forall_iff. intros o.
  unfold opcode_in_range. rewrite andb_True, !Is_true_true. lia.
Qed.

Lemma opcodes_complete_covers (opcodes : list Z) :
  opcodes_complete opcodes = true ↔ ∀ v, 1 ≤ v ≤ 14 → v ∈ opcodes.
Proof.
  unfold opcodes_complete, missing_opcodes. rewrite bool_decide_eq_true.
  rewrite elem_of_equiv_empty_L. split.
  - intros Hnone v Hv. destruct (decide (v ∈ opcodes)) as [| Hnot]; [done |].
    exfalso. apply (Hnone v), elem_of_difference. split.
    + by apply elem_of_expected_range.
    + by rewrite elem_of_list_to_set.
  - intros Hall v [Hv Hnot]%elem_of_difference.
    apply Hnot, elem_of_list_to_set, Hall. by apply elem_of_expected_range.
Qed.

Lemma prefix_append (p s : string) :
  String.prefix p s = true ↔ ∃ rest, s = p +:+ rest.
Proof.
  revert s. induction p as [| c p IH]; intros s.
  - split; [intros _; by exists s | intros _; by destruct s].
  - destruct s as [| c' s]; cbn [String.prefix].
    + split; [discriminate | intros [rest Hrest]; discriminate].
    + destruct (Ascii.ascii_dec c c') as [-> | Hne].
      * rewrite IH. split; intros [rest Hrest]; exists rest.
        -- change (String c' s = String c' (p +:+ rest)). by f_equal.
        -- change (String c' s = String c' (p +:+ rest)) in Hrest.
           by inversion Hrest.
      * split; [discriminate |]. intros [rest Hrest].
        change (String c' s = String c (p +:+ rest)) in Hrest.
        inversion Hrest. congruence.
Qed.

Lemma message_flags_lookup u r c :
  message_flags u r c !! "opcode_uniqueness" = Some u
  ∧ message_flags u r c !! "range_validity" = Some r
  ∧ message_flags u r c !! "completeness" = Some c.
Proof. destruct u, r, c; vm_compute; repeat split; reflexivity. Qed.

(** X1.  For every opcode table, [analyze_message_consistency] returns a
    dict of exactly three flags: ["opcode_uniqueness"] holds exactly when no
    opcode occurs twice, ["range_validity"] exactly when every opcode lies in
    0x01..0x0E, and ["completeness"] exactly when every value of 0x01..0x0E
    occurs among the opcodes. *)
Theorem opcode_flags_meaning (table : list (MessageType * Z))
    (self : ProtocolIntegrityAnalyzer) :
  ∃ cc self',
    analyze_message_consistency_of table self = (Ok cc, self')
    ∧ size cc = 3%nat
    ∧ (cc !! "opcode_uniqueness" = Some true ↔ NoDup table.*2)
    ∧ (cc !! "range_validity" = Some true
       ↔ Forall (λ o, 1 ≤ o ≤ 14) table.*2)
    ∧ (cc !! "completeness" = Some true
       ↔ ∀ v, 1 ≤ v ≤ 14 → v ∈ table.*2).
Proof.
  eexists _, _. split; [apply message_consistency_run |].
  destruct (message_flags_lookup (opcodes_unique table.*2)
              (forallb opcode_in_range table.*2) (opcodes_complete table.*2))
    as (-> & -> & ->).
  destruct (message_flags_count (opcodes_unique table.*2)
              (forallb opcode_in_range table.*2) (opcodes_complete table.*2))
    as [Hlen _].
  split; [unfold py_len_dict in Hlen; lia |].
  rewrite <- opcodes_unique_NoDup, <- opcodes_in_range_Forall,
    <- opcodes_complete_covers.
  repeat split; congruence.
Qed.

(** X2.  What [analyze_message_consistency] appends to the issue log, for
    every table: the duplicate message once if some opcode occurs twice, then
    one message per out-of-range opcode, in table order and with its [hex],
    then the missing-opcodes message once if a value of the range is
    missing; the earlier entries of the log are kept.  The message lists the
    [hex] of every missing value once, in the order in which the set of the
    missing values is iterated: the order of the slots of its table, which is
    the ascending order for five missing values or more. *)
Theorem opcode_issues_logged (table : list (MessageType * Z))
    (self : ProtocolIntegrityAnalyzer) :
  let missing := filter (λ v, v ∉ table.*2) (py_range 0x01 0x0F) in
  ∃ cc self',
    analyze_message_consistency_of table self = (Ok cc, self')
    ∧ validation_results self' = validation_results self
    ∧ issues self'
      = issues self
        ++ (if decide (NoDup table.*2) then []
            else ["Duplicate opcodes found in message type definitions"])
        ++ ((λ o, "Opcode " +:+ py_hex o +:+ " outside valid range")
              <$> filter (λ o, ¬ (1 ≤ o ≤ 14)) table.*2)
        ++ (if decide (Forall (λ v, v ∈ table.*2) (py_range 0x01 0x0F)) then []
            else ["Missing opcodes: "
                  +:+ py_str_list (py_hex <$> missing_order table.*2)])
    ∧ missing_order table.*2 ≡ₚ missing
    ∧ ((5 ≤ length missing)%nat → missing_order table.*2 = missing).
Proof.
  intros missing.
  assert (Hmissing :
    filter (λ v, v ∉ (list_to_set table.*2 : gset Z)) (py_range 0x01 0x0F)
    = missing).
  { apply list_filter_iff. intros v. by rewrite elem_of_list_to_set. }
  eexists _, _. split; [apply message_consistency_run |].
  split; [reflexivity |].
  split; [| split].
  2: { by rewrite missing_order_perm, <- missing_values, Hmissing. }
  2: { intros Hfive. rewrite <- Hmissing. apply missing_order_ascending.
       rewrite <- Hmissing, (Permutation_length (missing_values table.*2))
         in Hfive.
       exact Hfive. }
  unfold logged, message_issues. cbn [issues]. f_equal. f_equal; [| f_equal].
  - destruct (opcodes_unique table.*2) eqn:Hu.
    + apply opcodes_unique_NoDup in Hu. by rewrite decide_True.
    + rewrite decide_False; [reflexivity |].
      intros Hn. apply opcodes_unique_NoDup in Hn. congruence.
  - f_equal. apply list_filter_iff. intros o. unfold opcode_in_range.
    rewrite andb_false_iff, Z.leb_gt, Z.leb_gt. lia.
  - destruct (opcodes_complete table.*2) eqn:Hc.
    + rewrite decide_True; [reflexivity |].
      apply Forall_forall. intros v Hv.
      apply (proj1 (opcodes_complete_covers _) Hc).
      unfold py_range in Hv. apply elem_of_seqZ in Hv. lia.
    + rewrite decide_False; [reflexivity |].
      intros Hall. rewrite Forall_forall in Hall.
      assert (opcodes_complete table.*2 = true); [| congruence].
      apply opcodes_complete_covers. intros v Hv. apply Hall.
      unfold py_range. apply elem_of_seqZ. lia.
Qed.

(** Two missing values, as the program lists them: 1 and 2 in this order,
    7 and 8 in the other (8 takes slot 0 of the table of eight slots). *)
Example missing_order_of_two :
  missing_order [3; 4; 5; 6; 7; 8; 9; 10; 11; 12; 13; 14] = [1; 2]
  ∧ missing_order [1; 2; 3; 4; 5; 6; 9; 10; 11; 12; 13; 14] = [8; 7]
  ∧ missing_order [2; 3; 4; 5; 6; 7; 8; 10; 11; 12; 13; 14] = [1; 9]
  ∧ missing_order [1; 3; 4; 5; 7; 8; 9; 10; 11; 12; 13] = [2; 6; 14].
Proof. vm_compute. repeat split; reflexivity. Qed.

Lemma header_flags_lookup n :
  header_flags n !! "naming_convention" = Some n
  ∧ header_flags n !! "type_consistency" = Some true
  ∧ header_flags n !! "required_coverage" = Some true.
Proof. destruct n; vm_compute; repeat split; reflexivity. Qed.

Lemma version_flags_lookup v :
  version_flags v !! "range_validity" = Some v
  ∧ version_flags v !! "backward_compatibility" = Some true
  ∧ version_flags v !! "forward_compatibility" = Some true.
Proof. destruct v; vm_compute; repeat split; reflexivity. Qed.

Lemma headers_named_Forall (headers : list string) :
  forallb (String.prefix "X-IICP-") headers = true
  ↔ Forall (λ h, ∃ rest, h = "X-IICP-" +:+ rest) headers.
Proof.
  rewrite <- Is_true_true, forallb_True. apply Forall_iff. intros h.
  rewrite Is_true_true. apply prefix_append.
Qed.

Lemma version_valid_range (min_version max_version current_version : Z) :
  version_valid min_version max_version current_version = true
  ↔ min_version < max_version
    ∧ min_version ≤ current_version ≤ max_version.
Proof.
  unfold version_valid.
  rewrite andb_true_iff, !negb_true_iff, orb_false_iff.
  rewrite Z.geb_leb, Z.leb_gt, Z.ltb_ge, Z.gtb_ltb, Z.ltb_ge. lia.
Qed.

(** X3.  For every list of designated headers,
    [analyze_header_field_consistency] clears ["naming_convention"] exactly
    when some header does not start with ["X-IICP-"], logs one message per
    such header in list order, and never clears ["type_consistency"] or
    ["required_coverage"]. *)
Theorem header_naming_check (headers : list string)
    (self : ProtocolIntegrityAnalyzer) :
  ∃ hc self',
    analyze_header_field_consistency_of headers self = (Ok hc, self')
    ∧ (hc !! "naming_convention" = Some true
       ↔ Forall (λ h, ∃ rest, h = "X-IICP-" +:+ rest) headers)
    ∧ hc !! "type_consistency" = Some true
    ∧ hc !! "required_coverage" = Some true
    ∧ validation_results self' = validation_results self
    ∧ issues self'
      = issues self
        ++ ((λ h, "Header " +:+ h +:+ " doesn't follow X-IICP- convention")
              <$> filter (λ h, String.prefix "X-IICP-" h = false) headers).
Proof.
  eexists _, _. split; [apply header_consistency_run |].
  destruct (header_flags_lookup (forallb (String.prefix "X-IICP-") headers))
    as (-> & -> & ->).
  rewrite <- headers_named_Forall.
  repeat split; congruence.
Qed.

(** X4.  For all version numbers, [analyze_version_compatibility] keeps
    ["range_validity"] exactly when [min < max] and [min <= current <= max];
    it logs the invalid-range message when [min >= max] and then the
    outside-range message when [current] is outside, and it never clears
    ["backward_compatibility"] or ["forward_compatibility"]. *)
Theorem version_range_check (min_version max_version current_version : Z)
    (self : ProtocolIntegrityAnalyzer) :
  ∃ vc self',
    analyze_version_compatibility_of min_version max_version current_version
      self = (Ok vc, self')
    ∧ (vc !! "range_validity" = Some true
       ↔ min_version < max_version
         ∧ min_version ≤ current_version ≤ max_version)
    ∧ vc !! "backward_compatibility" = Some true
    ∧ vc !! "forward_compatibility" = Some true
    ∧ validation_results self' = validation_results self
    ∧ issues self'
      = issues self
        ++ (if decide (max_version ≤ min_version)
            then ["Invalid version range: min >= max"] else [])
        ++ (if decide (current_version < min_version
                       ∨ max_version < current_version)
            then ["Current version outside supported range"] else []).
Proof.
  eexists _, _. split; [apply version_compatibility_run |].
  destruct (version_flags_lookup
              (version_valid min_version max_version current_version))
    as (-> & -> & ->).
  rewrite <- version_valid_range.
  split; [split; congruence |]. do 3 (split; [reflexivity |]).
  unfold logged, version_issues. cbn [issues]. f_equal. f_equal.
  - rewrite Z.geb_leb. destruct (Z.leb_spec max_version min_version).
    + by rewrite decide_True.
    + rewrite decide_False; [reflexivity | lia].
  - destruct ((current_version <? min_version) || (current_version >? max_version))
      eqn:Hout.
    + rewrite decide_True; [reflexivity |].
      apply orb_true_iff in Hout. rewrite Z.gtb_ltb, !Z.ltb_lt in Hout. lia.
    + rewrite decide_False; [reflexivity |].
      apply orb_false_iff in Hout. rewrite Z.gtb_ltb, !Z.ltb_ge in Hout. lia.
Qed.

Lemma filter_failing_nil {A} (ok : A → bool) (xs : list A) :
  filter (λ x, ok x = false) xs = [] ↔ forallb ok xs = true.
Proof.
  induction xs as [| x xs IH]; [done |].
  cbn [forallb]. destruct (ok x) eqn:Hx.
  - rewrite filter_cons_False by (rewrite Hx; discriminate). by rewrite IH.
  - rewrite filter_cons_True by exact Hx. split; discriminate.
Qed.

Lemma message_issues_nil (opcodes : list Z) :
  message_issues opcodes = []
  ↔ opcodes_unique opcodes = true
    ∧ forallb opcode_in_range opcodes = true
    ∧ opcodes_complete opcodes = true.
Proof.
  unfold message_issues. rewrite !app_nil, <- filter_failing_nil.
  assert (range_issue <$> filter (λ o, opcode_in_range o = false) opcodes = []
          ↔ filter (λ o, opcode_in_range o = false) opcodes = []) as ->
    by (split; [apply fmap_nil_inv | by intros ->]).
  destruct (opcodes_unique opcodes), (opcodes_complete opcodes); naive_solver.
Qed.

Lemma version_issues_nil (min_version max_version current_version : Z) :
  version_issues min_version max_version current_version = []
  ↔ version_valid min_version max_version current_version = true.
Proof.
  unfold version_issues, version_valid.
  destruct (min_version >=? max_version),
    ((current_version <? min_version) || (current_version >? max_version));
    cbn; naive_solver.
Qed.

Lemma passed_flags_score (u r c n v : bool) :
  (400 # 9 <= inject_Z (passed_flags u r c n v) / inject_Z 9 * 100)%Q
  ∧ (inject_Z (passed_flags u r c n v) / inject_Z 9 * 100 <= 100)%Q
  ∧ ((inject_Z (passed_flags u r c n v) / inject_Z 9 * 100 == 100)%Q
     ↔ u = true ∧ r = true ∧ c = true ∧ n = true ∧ v = true).
Proof.
  destruct u, r, c, n, v; (split; [| split]);
    try (vm_compute; discriminate);
    (split; [intros Heq; try (vm_compute in Heq; discriminate); by repeat split
            | intros (? & ? & ? & ? & ?); try discriminate; reflexivity]).
Qed.

(** X5.  For all tables, [calculate_integrity_score] returns (the nine flags
    never leave a zero divisor); the score lies between 400/9 (about 44.4,
    four of the nine flags are never tested) and 100; it equals 100 exactly
    when the opcodes are unique, in range and cover the range, every header
    is named by the convention and the version range is valid, and exactly
    when the call logs no issue. *)
Theorem integrity_score_bounds (table : list (MessageType * Z))
    (headers : list string) (min_version max_version current_version : Z)
    (self : ProtocolIntegrityAnalyzer) :
  ∃ score self',
    calculate_integrity_score_of table headers min_version max_version
      current_version self = (Ok score, self')
    ∧ (400 # 9 <= score)%Q ∧ (score <= 100)%Q
    ∧ ((score == 100)%Q
       ↔ NoDup table.*2
         ∧ Forall (λ o, 1 ≤ o ≤ 14) table.*2
         ∧ (∀ v, 1 ≤ v ≤ 14 → v ∈ table.*2)
         ∧ Forall (λ h, ∃ rest, h = "X-IICP-" +:+ rest) headers
         ∧ (min_version < max_version
            ∧ min_version ≤ current_version ≤ max_version))
    ∧ ((score == 100)%Q ↔ issues self' = issues self).
Proof.
  eexists _, _. split; [apply integrity_score_run |].
  destruct (passed_flags_score (opcodes_unique table.*2)
              (forallb opcode_in_range table.*2) (opcodes_complete table.*2)
              (forallb (String.prefix "X-IICP-") headers)
              (version_valid min_version max_version current_version))
    as (Hlo & Hhi & Hfull).
  split; [exact Hlo |]. split; [exact Hhi |].
  rewrite Hfull.
  split.
  - by rewrite opcodes_unique_NoDup, opcodes_in_range_Forall,
      opcodes_complete_covers, headers_named_Forall, version_valid_range.
  - unfold logged. cbn [issues].
    rewrite <- (app_nil_r (issues self)) at 2.
    split.
    + intros (Hu & Hr & Hc & Hn & Hv). f_equal.
      rewrite (proj2 (message_issues_nil _)) by done.
      unfold header_issues.
      rewrite (proj2 (filter_failing_nil _ _) Hn).
      by rewrite (proj2 (version_issues_nil _ _ _) Hv).
    + intros Heq. apply app_inv_head in Heq.
      apply app_nil in Heq as [Hm Heq]. apply app_nil in Heq as [Hh Hv].
      apply message_issues_nil in Hm as (Hu & Hr & Hc).
      unfold header_issues in Hh. apply fmap_nil_inv in Hh.
      apply filter_failing_nil in Hh. apply version_issues_nil in Hv.
      done.
Qed.

(** X6.  The issue log is never reset: a second [calculate_integrity_score]
    on the same analyzer returns the same score and appends the same issues
    a second time, whatever the log held before. *)
Theorem integrity_score_twice (table : list (MessageType * Z))
    (headers : list string) (min_version max_version current_version : Z) :
  ∃ score extra,
    ∀ self : ProtocolIntegrityAnalyzer,
      calculate_integrity_score_of table headers min_version max_version
        current_version self
      = (Ok score,
         {| issues := issues self ++ extra;
            validation_results := validation_results self |})
      ∧ bind (calculate_integrity_score_of table headers min_version
                max_version current_version)
          (λ first,
             bind (calculate_integrity_score_of table headers min_version
                     max_version current_version)
               (λ second, ret (first, second))) self
        = (Ok (score, score),
           {| issues := issues self ++ extra ++ extra;
              validation_results := validation_results self |}).
Proof.
  eexists _, _. intros self.
  split; [apply integrity_score_run |].
  rewrite (bind_ok _ _ _ _ _ (integrity_score_run _ _ _ _ _ self)).
  rewrite (bind_ok _ _ _ _ _ (integrity_score_run _ _ _ _ _ _)).
  rewrite logged_logged. reflexivity.
Qed.

End AnalyzerTables.

(** ** More on the message simulation *)

Section MessageFacts.
Context {G : Type} `{Environment G}.

Lemma py_min_saturated (a : Q) : (1 < a)%Q → py_min a 1 = 1%Q.
Proof.
  intros Ha. unfold py_min.
  by rewrite (proj2 (Qlt_bool_true 1 a) Ha).
Qed.

Lemma normalized_size_saturated (size : Q) :
  (100 < size)%Q → py_min (size / 100) 1 = 1%Q.
Proof.
  intros Hsize. apply py_min_saturated.
  apply Qlt_shift_div_l; [reflexivity | lra].
Qed.

(** X7.  The latency does not depend on the payload size beyond 100 KB: the
    normalized size is capped at 1, so two calls of
    [_calculate_message_latency] that differ only in sizes above 100 give
    the same outcome in the same world. *)
Theorem latency_saturates_in_size
    (source_region dest_region : string) (size1 size2 : Q)
    (qos_class : QoSClass) (w : World G) :
  (100 < size1)%Q → (100 < size2)%Q →
  _calculate_message_latency source_region dest_region size1 qos_class w
  = _calculate_message_latency source_region dest_region size2 qos_class w.
Proof.
  intros H1 H2. unfold _calculate_message_latency.
  by rewrite (normalized_size_saturated size1 H1),
    (normalized_size_saturated size2 H2).
Qed.

(** X8.  The regions enter the latency only through whether they are equal:
    two pairs of regions that are both equal or both different give the same
    outcome of [_calculate_message_latency] in the same world. *)
Theorem latency_depends_on_region_equality
    (source1 dest1 source2 dest2 : string) (message_size_kb : Q)
    (qos_class : QoSClass) (w : World G) :
  (source1 = dest1 ↔ source2 = dest2) →
  _calculate_message_latency source1 dest1 message_size_kb qos_class w
  = _calculate_message_latency source2 dest2 message_size_kb qos_class w.
Proof.
  intros Hsame. unfold _calculate_message_latency.
  assert (bool_decide (source1 ≠ dest1) = bool_decide (source2 ≠ dest2)) as ->.
  { apply bool_decide_ext. tauto. }
  reflexivity.
Qed.

Lemma random_random_run (w : World G) :
  random_random w
  = (Ok (unit_interval (next_raw (env w)).1),
     {| self := self w; env := skip_raw (env w) |}).
Proof.
  unfold random_random, draw_raw, bind, ret, skip_raw, unit_interval.
  by destruct (next_raw (env w)).
Qed.

(** The outcome of the processing between two agents, draw by draw. *)
Lemma process_between_run (s d : Agent) (payload : Q) (w : World G) :
  shapes_ok (self w) →
  process_between s d payload w
  = (Ok ((spec_message_latency (self w) (env w) (region s) (region d) payload
            (performance_class s)).1,
         Qlt_bool (spec_failure_probability (self w) (env w) s d payload
                   * (1 # 100))
           (spec_success_draw (self w) (env w) s d payload)),
     {| self := self w;
        env := skip_raw (skip_raw
                 (spec_message_latency (self w) (env w) (region s) (region d)
                    payload (performance_class s)).2) |}).
Proof.
  intros [Hlat Hfail]. unfold process_between.
  rewrite bind_gets.
  rewrite (bind_ok _ _ _ _ _
             (calculate_message_latency_run (region s) (region d) payload
                (performance_class s) w Hlat)).
  erewrite bind_ok; [| apply random_uniform_run]. cbn [self env].
  rewrite bind_gets. cbn [self env].
  erewrite bind_ok;
    [| apply neural_network_predict_run; by rewrite Hfail]. cbn [self env].
  erewrite bind_ok; [| apply random_random_run]. cbn [self env].
  reflexivity.
Qed.

(** X9.  The failure scoring output is scaled by 0.01 but not clamped.  On
    a ready simulator [_simulate_message_processing] returns, and its
    success flag is [draw > 0.01 * scoring], where [scoring], the output of
    the failure network on the features of the two agents chosen, is at least
    0.001 and [draw] lies in [0, 1); so the message fails whatever the draw
    once the scoring output reaches 100, and it fails whatever the weights
    when the draw is at most 0.00001. *)
Theorem failure_probability_unclamped
    (message_type : MessageType) (payload : Q) (w : World G) :
  ready (self w) →
  ∃ s d g0,
    select_endpoints w = (Ok (s, d), {| self := self w; env := g0 |})
    ∧ s ∈ agents (self w) ∧ d ∈ agents (self w)
    ∧ let scoring := spec_failure_probability (self w) g0 s d payload in
      let draw := spec_success_draw (self w) g0 s d payload in
      ∃ latency success g',
        _simulate_message_processing message_type payload w
        = (Ok (latency, success), {| self := self w; env := g' |})
        ∧ success = Qlt_bool (scoring * (1 # 100)) draw
        ∧ (1 # 1000 <= scoring)%Q
        ∧ (0 <= draw)%Q ∧ (draw < 1)%Q
        ∧ ((100 <= scoring)%Q → success = false)
        ∧ ((draw <= 1 # 100000)%Q → success = false).
Proof.
  intros [Hpop Hshapes].
  destruct (select_endpoints_returns w Hpop)
    as ([s d] & g0 & Hselect & Hs & Hd & _).
  cbn [fst snd] in *.
  exists s, d, g0. split; [exact Hselect |].
  split; [exact Hs |]. split; [exact Hd |]. cbv zeta.
  set (scoring := spec_failure_probability (self w) g0 s d payload).
  set (draw := spec_success_draw (self w) g0 s d payload).
  set (w0 := {| self := self w; env := g0 |}).
  eexists _, _, _. split.
  { rewrite simulate_message_processing_split, (bind_ok _ _ _ _ _ Hselect).
    cbn [fst snd]. by apply (process_between_run s d payload w0). }
  cbn [w0 self env]. fold scoring draw.
  assert (Hscoring : (1 # 1000 <= scoring)%Q) by apply forward_pass_lower.
  destruct (unit_interval_bounds
              (next_raw (skip_raw
                 (spec_message_latency (self w) g0 (region s) (region d)
                    payload (performance_class s)).2)).1) as [Hlo Hhi].
  fold (spec_success_draw (self w) g0 s d payload) in Hlo, Hhi.
  fold draw in Hlo, Hhi.
  split; [reflexivity |]. split; [exact Hscoring |].
  split; [exact Hlo |]. split; [exact Hhi |].
  split; intros Hcase; apply Qlt_bool_false; lra.
Qed.

End MessageFacts.

(** ** Percentile and median of bounded samples *)

Lemma sort_Forall (P : Q → Prop) (a : list Q) :
  Forall P a → Forall P (QSort.sort a).
Proof. apply Permutation.Permutation_Forall, QSort.Permuted_sort. Qed.

Lemma sort_length (a : list Q) : length (QSort.sort a) = length a.
Proof. symmetry. apply Permutation.Permutation_length, QSort.Permuted_sort. Qed.

Lemma Forall_nth_in (P : Q → Prop) (l : list Q) (i : nat) :
  Forall P l → (i < length l)%nat → P (nth i l 0%Q).
Proof. intros Hall Hi. by apply Forall_nth. Qed.

Lemma interpolation_lower (c lo hi frac : Q) :
  (c <= lo)%Q → (c <= hi)%Q → (0 <= frac)%Q → (frac <= 1)%Q →
  (c <= lo + (hi - lo) * frac)%Q.
Proof. intros. nra. Qed.

Lemma interpolation_upper (c lo hi frac : Q) :
  (lo <= c)%Q → (hi <= c)%Q → (0 <= frac)%Q → (frac <= 1)%Q →
  (lo + (hi - lo) * frac <= c)%Q.
Proof. intros. nra. Qed.

(** The index arithmetic of [np.percentile] stays within the sample. *)
Lemma percentile_index (n : Z) (q : Q) :
  1 ≤ n → (0 <= q)%Q → (q <= 100)%Q →
  let h := (inject_Z (n - 1) * q / 100)%Q in
  0 ≤ Qfloor h ≤ n - 1
  ∧ (0 <= h - inject_Z (Qfloor h))%Q
  ∧ (h - inject_Z (Qfloor h) <= 1)%Q.
Proof.
  intros Hn Hq0 Hq100 h.
  assert (Hn1 : (0 <= inject_Z (n - 1))%Q).
  { change 0%Q with (inject_Z 0). rewrite <- Zle_Qle. lia. }
  assert (Hh0 : (0 <= h)%Q).
  { unfold h. apply Qle_shift_div_l; [reflexivity |]. nra. }
  assert (Hh1 : (h <= inject_Z (n - 1))%Q).
  { unfold h. apply Qle_shift_div_r; [reflexivity |]. nra. }
  split; [| split].
  - split.
    + change 0 with (Qfloor 0). by apply Qfloor_resp_le.
    + rewrite <- (Qfloor_Z (n - 1)). by apply Qfloor_resp_le.
  - pose proof (Qfloor_le h). lra.
  - pose proof (Qlt_floor h) as Hlt. rewrite inject_Z_plus in Hlt.
    change (inject_Z 1) with 1%Q in Hlt. lra.
Qed.

Lemma np_percentile_lower (c : Q) (a : list Q) (q : Q) :
  a ≠ [] → (0 <= q)%Q → (q <= 100)%Q →
  Forall (λ x, (c <= x)%Q) a → (c <= np_percentile a q)%Q.
Proof.
  intros Hne Hq0 Hq100 Hall. unfold np_percentile.
  pose proof (sort_Forall _ a Hall) as Hsorted.
  pose proof (sort_length a) as Hlen.
  set (s := QSort.sort a) in *.
  assert (Hn : 1 ≤ Z.of_nat (length s)).
  { rewrite Hlen. destruct a; [done | cbn [length]; lia]. }
  destruct (percentile_index (Z.of_nat (length s)) q Hn Hq0 Hq100)
    as (Hlo & Hfrac0 & Hfrac1).
  cbv zeta.
  apply interpolation_lower; [| | exact Hfrac0 | exact Hfrac1];
    apply Forall_nth_in; [exact Hsorted | lia | exact Hsorted | lia].
Qed.

Lemma np_percentile_upper (c : Q) (a : list Q) (q : Q) :
  a ≠ [] → (0 <= q)%Q → (q <= 100)%Q →
  Forall (λ x, (x <= c)%Q) a → (np_percentile a q <= c)%Q.
Proof.
  intros Hne Hq0 Hq100 Hall. unfold np_percentile.
  pose proof (sort_Forall _ a Hall) as Hsorted.
  pose proof (sort_length a) as Hlen.
  set (s := QSort.sort a) in *.
  assert (Hn : 1 ≤ Z.of_nat (length s)).
  { rewrite Hlen. destruct a; [done | cbn [length]; lia]. }
  destruct (percentile_index (Z.of_nat (length s)) q Hn Hq0 Hq100)
    as (Hlo & Hfrac0 & Hfrac1).
  cbv zeta.
  apply interpolation_upper; [| | exact Hfrac0 | exact Hfrac1];
    apply Forall_nth_in; [exact Hsorted | lia | exact Hsorted | lia].
Qed.

Lemma np_median_lower (c : Q) (a : list Q) :
  a ≠ [] → Forall (λ x, (c <= x)%Q) a → (c <= np_median a)%Q.
Proof.
  intros Hne Hall. unfold np_median.
  pose proof (sort_Forall _ a Hall) as Hsorted.
  pose proof (sort_length a) as Hlen.
  set (s := QSort.sort a) in *.
  assert (Hn : (1 ≤ length s)%nat).
  { rewrite Hlen. destruct a; [done | cbn [length]; lia]. }
  cbv zeta.
  assert (Hhalf : (length s / 2 < length s)%nat)
    by (apply Nat.div_lt; lia).
  destruct (Nat.even (length s)) eqn:Heven.
  - assert (c <= nth (length s / 2 - 1) s 0)%Q
      by (apply Forall_nth_in; [exact Hsorted | lia]).
    assert (c <= nth (length s / 2) s 0)%Q
      by (apply Forall_nth_in; [exact Hsorted | lia]).
    apply Qle_shift_div_l; [reflexivity | lra].
  - by apply Forall_nth_in.
Qed.

Lemma np_median_upper (c : Q) (a : list Q) :
  a ≠ [] → Forall (λ x, (x <= c)%Q) a → (np_median a <= c)%Q.
Proof.
  intros Hne Hall. unfold np_median.
  pose proof (sort_Forall _ a Hall) as Hsorted.
  pose proof (sort_length a) as Hlen.
  set (s := QSort.sort a) in *.
  assert (Hn : (1 ≤ length s)%nat).
  { rewrite Hlen. destruct a; [done | cbn [length]; lia]. }
  cbv zeta.
  assert (Hhalf : (length s / 2 < length s)%nat)
    by (apply Nat.div_lt; lia).
  destruct (Nat.even (length s)) eqn:Heven.
  - assert (nth (length s / 2 - 1) s 0 <= c)%Q
      by (apply Forall_nth_in; [exact Hsorted | lia]).
    assert (nth (length s / 2) s 0 <= c)%Q
      by (apply Forall_nth_in; [exact Hsorted | lia]).
    apply Qle_shift_div_r; [reflexivity | lra].
  - by apply Forall_nth_in.
Qed.

(** ** The runs, from start to metrics *)

Section RunFacts.
Context {G : Type} `{Environment G}.

Lemma ensures_message_event :
  ensures (message_event (G := G)) (λ r, (10 <= r.1)%Q).
Proof.
  unfold message_event.
  do 2 (apply ensures_bind; intros ?).
  apply ensures_simulate_message_processing.
Qed.

Lemma ensures_message_events (n : nat) :
  ensures (message_events (G := G) n) (Forall (λ r, (10 <= r.1)%Q)).
Proof.
  induction n as [| n IH]; [by apply ensures_ret |].
  cbn [message_events].
  eapply ensures_bind_with; [apply ensures_message_event |]. intros r Hr.
  eapply ensures_bind_with; [apply IH |]. intros outcomes Houtcomes.
  apply ensures_ret. by constructor.
Qed.

Lemma ensures_simulated_seconds (mps : nat) (seconds : list Z) :
  ensures (simulated_seconds (G := G) mps seconds)
    (Forall (λ r, (10 <= r.1)%Q)).
Proof.
  induction seconds as [| second seconds IH]; [by apply ensures_ret |].
  cbn [simulated_seconds].
  apply ensures_bind. intros _.
  eapply ensures_bind_with; [apply ensures_message_events |].
  intros outcomes Houtcomes.
  eapply ensures_bind_with; [apply IH |]. intros later Hlater.
  apply ensures_ret. by apply Forall_app.
Qed.

Lemma record_messages_successful outcomes locals :
  successful_messages (fold_left record_message outcomes locals)
  = successful_messages locals
    + Z.of_nat (length (filter (λ r, r.2 = true) outcomes)).
Proof.
  revert locals. induction outcomes as [| [latency success] outcomes IH];
    intros locals.
  - cbn. lia.
  - cbn [fold_left]. rewrite IH. cbn [record_message successful_messages snd].
    destruct success.
    + rewrite filter_cons_True by reflexivity. cbn [length]. lia.
    + rewrite filter_cons_False by discriminate. lia.
Qed.

Lemma record_messages_errors outcomes locals :
  ls_error_count (fold_left record_message outcomes locals)
  = ls_error_count locals
    + Z.of_nat (length (filter (λ r, r.2 = false) outcomes)).
Proof.
  revert locals. induction outcomes as [| [latency success] outcomes IH];
    intros locals.
  - cbn. lia.
  - cbn [fold_left]. rewrite IH. cbn [record_message ls_error_count snd].
    destruct success.
    + rewrite filter_cons_False by discriminate. lia.
    + rewrite filter_cons_True by reflexivity. cbn [length]. lia.
Qed.

(** The simulated seconds of a ready simulator: they complete, with [mps]
    outcomes per second, and leave [simulation_time] at the last second. *)
Lemma simulated_seconds_time (mps : nat) (seconds : list Z) (w : World G) :
  ready (self w) →
  completes (simulated_seconds mps seconds)
    (λ outcomes w',
       length outcomes = (length seconds * mps)%nat
       ∧ same_setup (self w) (self w')
       ∧ simulation_time (self w')
         = default (simulation_time (self w)) (inject_Z <$> last seconds)) w.
Proof.
  revert w. induction seconds as [| second seconds IH]; intros w Hready.
  - apply completes_ret. split; [reflexivity |].
    split; [apply same_setup_refl | reflexivity].
  - cbn [simulated_seconds].
    apply (completes_bind _ _
             (λ _ w', same_setup (self w) (self w')
                      ∧ simulation_time (self w') = inject_Z second)).
    { eexists tt, _. split; [reflexivity |]. split; [by repeat split | reflexivity]. }
    intros [] w1 [Hsetup1 Htime1].
    assert (Hready1 : ready (self w1)) by by apply (ready_same_setup (self w)).
    apply (completes_bind _ _
             (λ outcomes w', length outcomes = mps ∧ self w' = self w1)).
    { by apply returns_completes, message_events_returns. }
    intros outcomes w2 [Hlen Hself2].
    eapply completes_bind.
    { apply IH. by rewrite Hself2. }
    intros later w3 (Hlater & Hsetup3 & Htime3). apply completes_ret.
    split; [| split].
    + rewrite length_app, Hlen, Hlater. cbn [length]. lia.
    + apply (same_setup_trans _ (self w1)); [exact Hsetup1 |].
      by rewrite <- Hself2.
    + rewrite Htime3, Hself2, Htime1.
      destruct seconds as [| s2 seconds]; [reflexivity |].
      rewrite last_cons_cons.
      destruct (last (s2 :: seconds)) eqn:Hlast; [reflexivity |].
      by apply last_None in Hlast.
Qed.

(** Seconds without message events set the clock of the simulation and
    nothing else, on any simulator. *)
Lemma simulated_seconds_idle (seconds : list Z) (w : World G) :
  completes (simulated_seconds 0 seconds)
    (λ outcomes w',
       outcomes = [] ∧ same_setup (self w) (self w') ∧ env w' = env w) w.
Proof.
  revert w. induction seconds as [| second seconds IH]; intros w.
  - apply completes_ret. split; [reflexivity |].
    split; [apply same_setup_refl | reflexivity].
  - cbn [simulated_seconds message_events].
    apply (completes_bind _ _
             (λ _ w', same_setup (self w) (self w') ∧ env w' = env w)).
    { eexists tt, _. split; [reflexivity |]. split; [by repeat split | reflexivity]. }
    intros [] w1 [Hsetup1 Henv1].
    apply (completes_bind _ _ (λ outcomes w', outcomes = [] ∧ w' = w1));
      [by apply completes_ret |].
    intros ? ? [-> ->].
    eapply completes_bind; [apply IH |].
    intros later w2 (-> & Hsetup2 & Henv2). apply completes_ret.
    split; [reflexivity |].
    split; [by apply (same_setup_trans _ (self w1)) | congruence].
Qed.

Lemma last_py_range (n : Z) : 0 < n → last (py_range 0 n) = Some (n - 1).
Proof.
  intros Hn. unfold py_range. rewrite last_lookup, length_seqZ.
  rewrite lookup_seqZ_lt by lia. f_equal. lia.
Qed.

Lemma Qeq_bool_inject_Z_nonzero (n : Z) :
  n ≠ 0 → Qeq_bool (inject_Z n) 0 = false.
Proof.
  intros Hn. destruct (Qeq_bool (inject_Z n) 0) eqn:Heq; [| reflexivity].
  apply Qeq_bool_eq in Heq. exfalso. apply Hn.
  apply inject_Z_injective. exact Heq.
Qed.

(** A percentage of a part of a whole. *)
Lemma percentage_bounds (part whole : Z) :
  0 ≤ part ≤ whole → 0 < whole →
  (0 <= inject_Z part / inject_Z whole * 100)%Q
  ∧ (inject_Z part / inject_Z whole * 100 <= 100)%Q.
Proof.
  intros [Hlo Hhi] Hwhole.
  assert (Hw : (0 < inject_Z whole)%Q)
    by (change 0%Q with (inject_Z 0); by rewrite <- Zlt_Qlt).
  assert (Hp : (0 <= inject_Z part)%Q)
    by (change 0%Q with (inject_Z 0); by rewrite <- Zle_Qle).
  assert (Hpw : (inject_Z part <= inject_Z whole)%Q) by by rewrite <- Zle_Qle.
  assert (H0 : (0 <= inject_Z part / inject_Z whole)%Q)
    by (apply Qle_shift_div_l; [exact Hw | lra]).
  assert (H1 : (inject_Z part / inject_Z whole <= 1)%Q)
    by (apply Qle_shift_div_r; [exact Hw | lra]).
  split; lra.
Qed.

(** The loop of the large-scale run on a ready simulator, with the outcomes
    it records. *)
Lemma large_scale_loop_run (duration_seconds : Z) (w : World G) :
  0 < duration_seconds → ready (self w) →
  ∃ outcomes w',
    large_scale_loop duration_seconds w
    = (Ok ((next_time (env w)).1,
           fold_left record_message outcomes
             {| total_messages := 0; total_latency := 0%Q;
                successful_messages := 0; ls_error_count := 0;
                latencies := [] |}),
       w')
    ∧ Z.of_nat (length outcomes)
      = duration_seconds * (900000 / duration_seconds)
    ∧ Forall (λ r, (10 <= r.1)%Q) outcomes
    ∧ same_setup (self w) (self w')
    ∧ simulation_time (self w') = inject_Z (duration_seconds - 1).
Proof.
  intros Hd Hready.
  set (locals0 := {| total_messages := 0; total_latency := 0%Q;
                     successful_messages := 0; ls_error_count := 0;
                     latencies := [] |}).
  set (mps := 900000 / duration_seconds).
  assert (Hmps : 0 ≤ mps) by (apply Z.div_pos; lia).
  set (w0 := {| self := self w; env := (next_time (env w)).2 |}).
  destruct (simulated_seconds_time (Z.to_nat mps)
              (py_range 0 duration_seconds) w0 Hready)
    as (outcomes & w' & Hrun & Hlen & Hsetup & Htime).
  pose proof (ensures_simulated_seconds (Z.to_nat mps)
                (py_range 0 duration_seconds) w0) as Hfloor.
  rewrite Hrun in Hfloor.
  rewrite last_py_range in Htime by exact Hd. cbn in Htime.
  unfold py_range in Hlen. rewrite length_seqZ in Hlen.
  exists outcomes, w'. split.
  { unfold large_scale_loop, py_floordiv.
    assert ((duration_seconds =? 0) = false) as -> by lia.
    rewrite bind_ret, bind_unfold. unfold time_time.
    destruct (next_time (env w)) as [start_time g0]. cbn [fst snd] in *.
    fold mps. fold w0. fold locals0.
    rewrite (bind_congr _ (bind (simulated_seconds (Z.to_nat mps)
                                   (py_range 0 duration_seconds))
                             (λ outcomes, ret (fold_left record_message outcomes locals0)))
               _ (λ locals, ret (start_time, locals)));
      [| apply large_scale_seconds_events | reflexivity].
    rewrite bind_assoc, (bind_ok _ _ _ _ _ Hrun). reflexivity. }
  split; [rewrite Hlen; lia |].
  split; [exact Hfloor |]. split; [exact Hsetup | exact Htime].
Qed.

Lemma time_time_run (w : World G) :
  time_time w
  = (Ok (next_time (env w)).1,
     {| self := self w; env := (next_time (env w)).2 |}).
Proof. unfold time_time. by destruct (next_time (env w)). Qed.

(** The two ways in which a large-scale run on a ready simulator ends, and
    the metrics it returns. *)
Lemma large_scale_run_outcome (duration_seconds : Z) (w : World G) :
  0 < duration_seconds ≤ 900000 → ready (self w) →
  let count := duration_seconds * (900000 / duration_seconds) in
  ∃ start_time locals w',
    large_scale_loop duration_seconds w = (Ok (start_time, locals), w')
    ∧ same_setup (self w) (self w')
    ∧ simulation_time (self w') = inject_Z (duration_seconds - 1)
    ∧ 0 < count
    ∧ let elapsed := ((next_time (env w')).1 - start_time)%Q in
      if Qeq_bool elapsed 0
      then run_large_scale_simulation duration_seconds w
           = (Raise ZeroDivisionError,
              {| self := self w'; env := (next_time (env w')).2 |})
      else ∃ metrics g',
          run_large_scale_simulation duration_seconds w
          = (Ok metrics, {| self := self w'; env := g' |})
          ∧ 0 ≤ error_count metrics ≤ count
          ∧ (success_rate metrics
             == inject_Z (count - error_count metrics) / inject_Z count * 100)%Q
          ∧ (0 <= success_rate metrics)%Q ∧ (success_rate metrics <= 100)%Q
          ∧ (10 <= latency_ms metrics)%Q
          ∧ throughput_msg_per_sec metrics = (inject_Z count / elapsed)%Q
          ∧ (65 <= cpu_utilization metrics)%Q
          ∧ (cpu_utilization metrics <= 85)%Q
          ∧ memory_usage_mb metrics = 45%Q.
Proof.
  intros [Hd Hmax] Hready count.
  destruct (large_scale_loop_run duration_seconds w Hd Hready)
    as (outcomes & w' & Hloop & Hlen & Hfloor & Hsetup & Htime).
  fold count in Hlen.
  assert (Hcount : 0 < count).
  { unfold count. apply Z.mul_pos_pos; [exact Hd |].
    apply Z.div_str_pos. lia. }
  set (locals := fold_left record_message outcomes _) in Hloop.
  assert (Htotal : total_messages locals = count)
    by (unfold locals; rewrite record_messages_total; cbn; lia).
  assert (Hsucc : successful_messages locals
                  = Z.of_nat (length (filter (λ r, r.2 = true) outcomes)))
    by (unfold locals; rewrite record_messages_successful; cbn; lia).
  assert (Herr : ls_error_count locals
                 = Z.of_nat (length (filter (λ r, r.2 = false) outcomes)))
    by (unfold locals; rewrite record_messages_errors; cbn; lia).
  assert (Htally : successful_messages locals + ls_error_count locals = count)
    by (unfold locals; rewrite record_messages_tally; cbn; lia).
  assert (Hlat : latencies locals = outcomes.*1)
    by (unfold locals; by rewrite record_messages_latencies).
  exists (next_time (env w)).1, locals, w'.
  split; [exact Hloop |]. split; [exact Hsetup |]. split; [exact Htime |].
  split; [exact Hcount |]. cbv zeta.
  unfold run_large_scale_simulation.
  rewrite (bind_ok _ _ _ _ _ Hloop). cbv beta iota.
  rewrite (bind_ok _ _ _ _ _ (time_time_run w')).
  set (end_time := (next_time (env w')).1).
  set (g1 := (next_time (env w')).2).
  unfold py_truediv. rewrite Htotal.
  rewrite (Qeq_bool_inject_Z_nonzero count) by lia. cbv beta iota.
  rewrite !bind_ret.
  destruct (Qeq_bool (end_time - (next_time (env w)).1) 0) eqn:Helapsed.
  - reflexivity.
  - cbv beta iota. rewrite bind_ret.
    rewrite (bind_ok _ _ _ _ _ (random_uniform_run 65 85 _)).
    cbn [self env].
    eexists _, _. split; [reflexivity |].
    cbn [error_count success_rate latency_ms throughput_msg_per_sec
           cpu_utilization memory_usage_mb].
    destruct (percentage_bounds (successful_messages locals) count)
      as [Hrate0 Hrate100]; [lia | lia |].
    destruct (uniform_at_bounds 65 85 g1) as [Hcpu0 Hcpu1]; [lra |].
    split; [lia |].
    split; [by replace (count - ls_error_count locals)
               with (successful_messages locals) by lia |].
    split; [exact Hrate0 |]. split; [exact Hrate100 |].
    split.
    { apply np_percentile_lower; [| lra | lra |].
      - rewrite Hlat. intros Hnil. apply fmap_nil_inv in Hnil.
        rewrite Hnil in Hlen. cbn in Hlen. lia.
      - rewrite Hlat. by apply Forall_fmap. }
    split; [reflexivity |].
    split; [exact Hcpu0 |]. split; [exact Hcpu1 | reflexivity].
Qed.

(** C3.  For every positive duration [d], a large-scale run on a ready
    simulator invokes the message simulation [d * (900000 // d)] times,
    [900000 // d] times in each of the [d] simulated seconds, and the run is
    made of these invocations: their outcomes, in order, number
    [d * (900000 // d)] (900000 for [d = 300]), the loop counts each and keeps
    its latency, and what the run answers it computes from them.  It raises
    [ZeroDivisionError] when there is no invocation at all or no elapsed
    time on the clock; otherwise it returns the 95th percentile of their
    latencies, the share of the successful ones, their number over the
    elapsed time and the number of the failed ones. *)
Theorem large_scale_run_tick_exact (duration_seconds : Z) (w : World G) :
  0 < duration_seconds → ready (self w) →
  let mps := 900000 / duration_seconds in
  let count := duration_seconds * mps in
  ∃ outcomes locals w',
    simulated_seconds (Z.to_nat mps) (py_range 0 duration_seconds)
      {| self := self w; env := (next_time (env w)).2 |}
    = (Ok outcomes, w')
    ∧ Z.of_nat (length outcomes) = count
    ∧ (duration_seconds = 300 → Z.of_nat (length outcomes) = 900000)
    ∧ large_scale_loop duration_seconds w
      = (Ok ((next_time (env w)).1, locals), w')
    ∧ total_messages locals = count
    ∧ latencies locals = outcomes.*1
    ∧ let successes :=
        Z.of_nat (length (filter (λ r, r.2 = true) outcomes)) in
      let failures :=
        Z.of_nat (length (filter (λ r, r.2 = false) outcomes)) in
      let elapsed := ((next_time (env w')).1 - (next_time (env w)).1)%Q in
      let g1 := (next_time (env w')).2 in
      successes + failures = count
      ∧ run_large_scale_simulation duration_seconds w
        = if (count =? 0) || Qeq_bool elapsed 0
          then (Raise ZeroDivisionError, {| self := self w'; env := g1 |})
          else (Ok {| latency_ms := np_percentile outcomes.*1 95;
                      success_rate :=
                        (inject_Z successes / inject_Z count * 100)%Q;
                      throughput_msg_per_sec := (inject_Z count / elapsed)%Q;
                      error_count := failures;
                      cpu_utilization := uniform_at 65 85 g1;
                      memory_usage_mb := 45 |},
                {| self := self w'; env := skip_raw g1 |}).
Proof.
  intros Hd Hready mps count.
  assert (Hmps : 0 ≤ mps) by (apply Z.div_pos; lia).
  set (w0 := {| self := self w; env := (next_time (env w)).2 |}).
  destruct (simulated_seconds_completes (Z.to_nat mps)
              (py_range 0 duration_seconds) w0 Hready)
    as (outcomes & w' & Hrun & Hlen & _).
  unfold py_range in Hlen. rewrite length_seqZ in Hlen.
  assert (Hcount : Z.of_nat (length outcomes) = count)
    by (unfold count; rewrite Hlen; lia).
  set (locals0 := {| total_messages := 0; total_latency := 0%Q;
                     successful_messages := 0; ls_error_count := 0;
                     latencies := [] |}).
  set (locals := fold_left record_message outcomes locals0).
  assert (Hloop : large_scale_loop duration_seconds w
                  = (Ok ((next_time (env w)).1, locals), w')).
  { unfold large_scale_loop, py_floordiv.
    assert ((duration_seconds =? 0) = false) as -> by lia.
    rewrite bind_ret, (bind_ok _ _ _ _ _ (time_time_run w)).
    fold mps. fold locals0. fold w0.
    rewrite (bind_congr _ (bind (simulated_seconds (Z.to_nat mps)
                                   (py_range 0 duration_seconds))
                             (λ outcomes, ret (fold_left record_message outcomes locals0)))
               _ (λ locals, ret ((next_time (env w)).1, locals)));
      [| apply large_scale_seconds_events | reflexivity].
    rewrite bind_assoc, (bind_ok _ _ _ _ _ Hrun). reflexivity. }
  assert (Htotal : total_messages locals = count)
    by (unfold locals; rewrite record_messages_total; cbn; lia).
  assert (Hsucc : successful_messages locals
                  = Z.of_nat (length (filter (λ r, r.2 = true) outcomes)))
    by (unfold locals; rewrite record_messages_successful; cbn; lia).
  assert (Herr : ls_error_count locals
                 = Z.of_nat (length (filter (λ r, r.2 = false) outcomes)))
    by (unfold locals; rewrite record_messages_errors; cbn; lia).
  assert (Htally : successful_messages locals + ls_error_count locals = count)
    by (unfold locals; rewrite record_messages_tally; cbn; lia).
  assert (Hlat : latencies locals = outcomes.*1)
    by (unfold locals; by rewrite record_messages_latencies).
  exists outcomes, locals, w'.
  split; [exact Hrun |]. split; [exact Hcount |].
  split; [intros Heq; rewrite Hcount; unfold count, mps; by rewrite Heq |].
  split; [exact Hloop |]. split; [exact Htotal |]. split; [exact Hlat |].
  cbv zeta. rewrite <- Hsucc, <- Herr. split; [exact Htally |].
  unfold run_large_scale_simulation.
  rewrite (bind_ok _ _ _ _ _ Hloop). cbv beta iota.
  rewrite (bind_ok _ _ _ _ _ (time_time_run w')).
  unfold py_truediv. rewrite Htotal, Hlat.
  destruct (count =? 0) eqn:Hzero.
  - apply Z.eqb_eq in Hzero. rewrite Hzero.
    change (Qeq_bool (inject_Z 0) 0) with true. reflexivity.
  - apply Z.eqb_neq in Hzero.
    rewrite (Qeq_bool_inject_Z_nonzero count) by exact Hzero.
    cbv beta iota. rewrite !bind_ret. cbn [orb].
    destruct (Qeq_bool ((next_time (env w')).1 - (next_time (env w)).1) 0);
      [reflexivity |].
    cbv beta iota. rewrite bind_ret.
    rewrite (bind_ok _ _ _ _ _ (random_uniform_run 65 85 _)).
    reflexivity.
Qed.

(** X10.  A large-scale run of [0 < d <= 900000] seconds on a ready
    simulator ends in one of two ways.  If the clock shows no elapsed time
    it raises [ZeroDivisionError] at the throughput.  Otherwise it returns
    metrics with [error_count] between 0 and the message count,
    [success_rate = (count - error_count) / count * 100] within [0, 100], a
    p95 latency of at least 10, the throughput [count / elapsed], a cpu filler
    in [65, 85] and memory 45.  Either way [simulation_time] is left at
    [d - 1] and nothing else of the simulator changed. *)
Theorem large_scale_run_metrics (duration_seconds : Z) (w : World G) :
  0 < duration_seconds ≤ 900000 → ready (self w) →
  let count := duration_seconds * (900000 / duration_seconds) in
  ∃ start_time locals w',
    large_scale_loop duration_seconds w = (Ok (start_time, locals), w')
    ∧ same_setup (self w) (self w')
    ∧ simulation_time (self w') = inject_Z (duration_seconds - 1)
    ∧ 0 < count
    ∧ let elapsed := ((next_time (env w')).1 - start_time)%Q in
      if Qeq_bool elapsed 0
      then run_large_scale_simulation duration_seconds w
           = (Raise ZeroDivisionError,
              {| self := self w'; env := (next_time (env w')).2 |})
      else ∃ metrics g',
          run_large_scale_simulation duration_seconds w
          = (Ok metrics, {| self := self w'; env := g' |})
          ∧ 0 ≤ error_count metrics ≤ count
          ∧ (success_rate metrics
             == inject_Z (count - error_count metrics) / inject_Z count * 100)%Q
          ∧ (0 <= success_rate metrics)%Q ∧ (success_rate metrics <= 100)%Q
          ∧ (10 <= latency_ms metrics)%Q
          ∧ throughput_msg_per_sec metrics = (inject_Z count / elapsed)%Q
          ∧ (65 <= cpu_utilization metrics)%Q
          ∧ (cpu_utilization metrics <= 85)%Q
          ∧ memory_usage_mb metrics = 45%Q.
Proof. exact (large_scale_run_outcome duration_seconds w). Qed.

(** Outside [1 .. 900000] the loop simulates no message. *)
Lemma large_scale_loop_idle (duration_seconds : Z) (w : World G) :
  duration_seconds < 0 ∨ 900000 < duration_seconds →
  ∃ w',
    large_scale_loop duration_seconds w
    = (Ok ((next_time (env w)).1,
           {| total_messages := 0; total_latency := 0%Q;
              successful_messages := 0; ls_error_count := 0;
              latencies := [] |}),
       w')
    ∧ same_setup (self w) (self w')
    ∧ env w' = (next_time (env w)).2.
Proof.
  intros Hd.
  set (locals0 := {| total_messages := 0; total_latency := 0%Q;
                     successful_messages := 0; ls_error_count := 0;
                     latencies := [] |}).
  set (mps := 900000 / duration_seconds).
  set (w0 := {| self := self w; env := (next_time (env w)).2 |}).
  assert (∃ w',
    simulated_seconds (Z.to_nat mps) (py_range 0 duration_seconds) w0
    = (Ok [], w')
    ∧ same_setup (self w) (self w') ∧ env w' = (next_time (env w)).2)
    as (w' & Hrun & Hsetup & Henv).
  { destruct Hd as [Hneg | Hbig].
    - assert (py_range 0 duration_seconds = []) as ->.
      { apply nil_length_inv. unfold py_range. rewrite length_seqZ. lia. }
      exists w0. split; [reflexivity |].
      split; [apply same_setup_refl | reflexivity].
    - assert (mps = 0) as -> by (unfold mps; apply Z.div_small; lia).
      destruct (simulated_seconds_idle (py_range 0 duration_seconds) w0)
        as (outcomes & w' & Hrun & -> & Hsetup & Henv).
      by exists w'. }
  exists w'. split; [| by split].
  unfold large_scale_loop, py_floordiv.
  assert ((duration_seconds =? 0) = false) as -> by lia.
  rewrite bind_ret, (bind_ok _ _ _ _ _ (time_time_run w)).
  fold mps. fold w0. fold locals0.
  rewrite (bind_congr _ (bind (simulated_seconds (Z.to_nat mps)
                                 (py_range 0 duration_seconds))
                           (λ outcomes, ret (fold_left record_message outcomes locals0)))
             _ (λ locals, ret ((next_time (env w)).1, locals)));
    [| apply large_scale_seconds_events | reflexivity].
  rewrite bind_assoc, (bind_ok _ _ _ _ _ Hrun). reflexivity.
Qed.

(** X11.  A large-scale run whose duration is not in [1 .. 900000] raises
    [ZeroDivisionError] on every simulator, ready or not: at once for a zero
    duration, and otherwise after a loop that simulates no message (zero
    messages per second, or no second at all), at the success rate.  It
    never consults the population and changes at most [simulation_time]. *)
Theorem large_scale_run_degenerate (duration_seconds : Z) (w : World G) :
  duration_seconds ≤ 0 ∨ 900000 < duration_seconds →
  ∃ w',
    run_large_scale_simulation duration_seconds w
    = (Raise ZeroDivisionError, w')
    ∧ same_setup (self w) (self w')
    ∧ (duration_seconds = 0 → w' = w).
Proof.
  intros Hd.
  destruct (decide (duration_seconds = 0)) as [-> | Hne].
  - exists w. split; [reflexivity |]. split; [apply same_setup_refl | done].
  - destruct (large_scale_loop_idle duration_seconds w) as (w' & Hloop & Hsetup & _);
      [lia |].
    exists {| self := self w'; env := (next_time (env w')).2 |}.
    split; [| split].
    + unfold run_large_scale_simulation.
      rewrite (bind_ok _ _ _ _ _ Hloop). cbv beta iota.
      rewrite (bind_ok _ _ _ _ _ (time_time_run w')).
      reflexivity.
    + exact Hsetup.
    + intros Hzero. by destruct Hne.
Qed.

End RunFacts.

(** ** The further properties on concrete inputs *)

Lemma latency_saturates_in_size_witness :
  (100 < 200)%Q ∧ (100 < 450)%Q
  ∧ _calculate_message_latency "us-east-1" "us-west-2" 200 BATCH
      Examples.two_agents
    = _calculate_message_latency "us-east-1" "us-west-2" 450 BATCH
        Examples.two_agents.
Proof.
  assert (H1 : (100 < 200)%Q) by reflexivity.
  assert (H2 : (100 < 450)%Q) by reflexivity.
  split; [exact H1 |]. split; [exact H2 |].
  exact (latency_saturates_in_size "us-east-1" "us-west-2" 200 450 BATCH
           Examples.two_agents H1 H2).
Defined.

Lemma latency_depends_on_region_equality_witness :
  ("us-east-1" = "us-west-2" ↔ "eu-west-1" = "ap-south-1")
  ∧ _calculate_message_latency "us-east-1" "us-west-2" 10 REALTIME
      Examples.two_agents
    = _calculate_message_latency "eu-west-1" "ap-south-1" 10 REALTIME
        Examples.two_agents.
Proof.
  assert (Hsame : "us-east-1" = "us-west-2" ↔ "eu-west-1" = "ap-south-1")
    by (split; discriminate).
  split; [exact Hsame |].
  exact (latency_depends_on_region_equality "us-east-1" "us-west-2"
           "eu-west-1" "ap-south-1" 10 REALTIME Examples.two_agents Hsame).
Defined.

Lemma failure_probability_unclamped_witness :
  ready (self Examples.two_agents)
  ∧ ∃ latency success g',
      _simulate_message_processing CALL 10 Examples.two_agents
      = (Ok (latency, success),
         {| self := self Examples.two_agents; env := g' |}).
Proof.
  split; [exact ExampleFacts.two_agents_ready |].
  destruct (failure_probability_unclamped CALL 10 Examples.two_agents
              ExampleFacts.two_agents_ready)
    as (s & d & g0 & _ & _ & _ & latency & success & g' & Hrun & _).
  exists latency, success, g'. exact Hrun.
Defined.

Lemma large_scale_run_tick_exact_witness :
  0 < 300
  ∧ ready (self Examples.two_agents)
  ∧ ∃ outcomes w',
      simulated_seconds (Z.to_nat (900000 / 300)) (py_range 0 300)
        {| self := self Examples.two_agents;
           env := (next_time (env Examples.two_agents)).2 |}
      = (Ok outcomes, w')
      ∧ Z.of_nat (length outcomes) = 900000
      ∧ let successes :=
          Z.of_nat (length (filter (λ r, r.2 = true) outcomes)) in
        let failures :=
          Z.of_nat (length (filter (λ r, r.2 = false) outcomes)) in
        let elapsed :=
          ((next_time (env w')).1
           - (next_time (env Examples.two_agents)).1)%Q in
        let g1 := (next_time (env w')).2 in
        successes + failures = 300 * (900000 / 300)
        ∧ run_large_scale_simulation 300 Examples.two_agents
          = if (300 * (900000 / 300) =? 0) || Qeq_bool elapsed 0
            then (Raise ZeroDivisionError, {| self := self w'; env := g1 |})
            else (Ok {| latency_ms := np_percentile outcomes.*1 95;
                        success_rate :=
                          (inject_Z successes
                           / inject_Z (300 * (900000 / 300)) * 100)%Q;
                        throughput_msg_per_sec :=
                          (inject_Z (300 * (900000 / 300)) / elapsed)%Q;
                        error_count := failures;
                        cpu_utilization := uniform_at 65 85 g1;
                        memory_usage_mb := 45 |},
                  {| self := self w'; env := skip_raw g1 |}).
Proof.
  assert (Hd : 0 < 300) by lia.
  split; [exact Hd |]. split; [exact ExampleFacts.two_agents_ready |].
  destruct (large_scale_run_tick_exact 300 Examples.two_agents Hd
              ExampleFacts.two_agents_ready)
    as (outcomes & locals & w' & Hrun & _ & H300 & _ & _ & _ & Hanswer).
  exists outcomes, w'.
  exact (conj Hrun (conj (H300 eq_refl) Hanswer)).
Defined.

Lemma large_scale_run_metrics_witness :
  0 < 300 ≤ 900000
  ∧ ready (self Examples.two_agents)
  ∧ ∃ start_time locals w',
      large_scale_loop 300 Examples.two_agents = (Ok (start_time, locals), w')
      ∧ simulation_time (self w') = inject_Z (300 - 1).
Proof.
  assert (Hd : 0 < 300 ≤ 900000) by lia.
  split; [exact Hd |]. split; [exact ExampleFacts.two_agents_ready |].
  destruct (large_scale_run_metrics 300 Examples.two_agents Hd
              ExampleFacts.two_agents_ready)
    as (start_time & locals & w' & Hloop & _ & Htime & _).
  exists start_time, locals, w'. exact (conj Hloop Htime).
Defined.

Lemma large_scale_run_degenerate_witness :
  (900001 ≤ 0 ∨ 900000 < 900001)
  ∧ ∃ w',
      run_large_scale_simulation 900001 Examples.one_agent
      = (Raise ZeroDivisionError, w').
Proof.
  assert (Hd : 900001 ≤ 0 ∨ 900000 < 900001) by (right; lia).
  split; [exact Hd |].
  destruct (large_scale_run_degenerate 900001 Examples.one_agent Hd)
    as (w' & Hrun & _).
  exists w'. exact Hrun.
Defined.

(** ** The build-pipeline run, from start to metrics *)

Section BuildFacts.
Context {G : Type} `{Environment G}.

Lemma ensures_build_stages :
  ensures (build_stages (G := G)) (λ t, (20 <= trial_latency t)%Q).
Proof.
  unfold build_stages.
  apply ensures_bind. intros rust_payload.
  eapply ensures_bind_with; [apply ensures_simulate_message_processing |].
  intros rust Hrust.
  apply ensures_bind. intros python_payload.
  eapply ensures_bind_with; [apply ensures_simulate_message_processing |].
  intros python Hpython.
  apply ensures_ret. unfold trial_latency. cbn [fst snd] in *.
  destruct rust as [rl rs], python as [pl ps]. cbn [fst snd] in *. lra.
Qed.

Lemma ensures_build_trials (n : nat) :
  ensures (build_trials (G := G) n) (Forall (λ t, (20 <= trial_latency t)%Q)).
Proof.
  induction n as [| n IH]; [by apply ensures_ret |].
  cbn [build_trials].
  eapply ensures_bind_with; [apply ensures_build_stages |]. intros t Ht.
  eapply ensures_bind_with; [apply IH |]. intros trials Htrials.
  apply ensures_ret. by constructor.
Qed.

(** The loop of the build-pipeline run on a ready simulator, with the
    trials it records. *)
Lemma build_loop_run (w : World G) :
  ready (self w) →
  ∃ trials g',
    build_loop w
    = (Ok (fold_left record_trial trials
             {| total_builds := 0; successful_builds := 0;
                build_latencies := [] |}),
       {| self := self w; env := g' |})
    ∧ Z.of_nat (length trials) = 1000
    ∧ Forall (λ t, (20 <= trial_latency t)%Q) trials.
Proof.
  intros Hready.
  destruct (build_trials_returns (Z.to_nat 1000) w Hready)
    as (trials & g' & Htrials & Hlen).
  pose proof (ensures_build_trials (Z.to_nat 1000) w) as Hfloor.
  rewrite Htrials in Hfloor.
  exists trials, g'. split; [| split; [rewrite Hlen; lia | exact Hfloor]].
  unfold build_loop. rewrite bind_gets. cbv zeta.
  rewrite build_requests_trials.
  unfold py_range. rewrite length_seqZ. change (1000 - 0) with 1000.
  by rewrite (bind_ok _ _ _ _ _ Htrials).
Qed.

(** The build-pipeline run on a ready simulator, from the loop to the
    metrics. *)
Lemma build_run_outcome (w : World G) :
  ready (self w) →
  ∃ metrics g',
    run_build_system_simulation w
    = (Ok metrics, {| self := self w; env := g' |})
    ∧ 0 ≤ error_count metrics ≤ 1000
    ∧ (success_rate metrics
       == inject_Z (1000 - error_count metrics) / inject_Z 1000 * 100)%Q
    ∧ (0 <= success_rate metrics)%Q ∧ (success_rate metrics <= 100)%Q
    ∧ (20 <= latency_ms metrics)%Q
    ∧ (throughput_msg_per_sec metrics == 10 # 3)%Q
    ∧ (70 <= cpu_utilization metrics)%Q
    ∧ (cpu_utilization metrics <= 85)%Q
    ∧ memory_usage_mb metrics = 45%Q.
Proof.
  intros Hready.
  destruct (build_loop_run w Hready) as (trials & g1 & Hloop & Hlen & Hfloor).
  set (locals := fold_left record_trial trials _) in Hloop.
  assert (Htotal : total_builds locals = 1000)
    by (unfold locals; rewrite record_trials_total; cbn; lia).
  assert (Hsucc : successful_builds locals = successes trials)
    by (unfold locals; rewrite record_trials_successful; cbn; lia).
  assert (Hlat : build_latencies locals = trial_latency <$> trials)
    by (unfold locals; by rewrite record_trials_latencies).
  assert (Hrange : 0 ≤ successes trials ≤ 1000).
  { unfold successes.
    pose proof (length_filter (λ t, trial_success t = true) trials). lia. }
  unfold run_build_system_simulation.
  rewrite (bind_ok _ _ _ _ _ Hloop). unfold py_truediv. rewrite Htotal.
  change (Qeq_bool (inject_Z 1000) 0) with false.
  change (Qeq_bool 300 0) with false. cbv beta iota.
  rewrite !bind_ret, (bind_ok _ _ _ _ _ (random_uniform_run 70 85 _)).
  cbn [self env].
  eexists _, _. split; [reflexivity |].
  cbn [error_count success_rate latency_ms throughput_msg_per_sec
         cpu_utilization memory_usage_mb].
  rewrite Hsucc.
  destruct (percentage_bounds (successes trials) 1000) as [Hrate0 Hrate100];
    [lia | lia |].
  destruct (uniform_at_bounds 70 85 g1) as [Hcpu0 Hcpu1]; [lra |].
  split; [lia |].
  split; [by replace (1000 - (1000 - successes trials))
             with (successes trials) by lia |].
  split; [exact Hrate0 |]. split; [exact Hrate100 |].
  split.
  { apply np_median_lower.
    - rewrite Hlat. intros Hnil. apply fmap_nil_inv in Hnil.
      rewrite Hnil in Hlen. cbn in Hlen. lia.
    - rewrite Hlat. by apply Forall_fmap. }
  split; [reflexivity |].
  split; [exact Hcpu0 |]. split; [exact Hcpu1 | reflexivity].
Qed.

(** X12.  A build-pipeline run on a ready simulator returns, leaving the
    simulator as it was, metrics with [error_count] between 0 and 1000,
    [success_rate = (1000 - error_count) / 1000 * 100] within [0, 100], a
    median latency of at least 20 (two stages of at least 10 each), the
    constant throughput 1000 / 300, a cpu filler in [70, 85] and memory 45. *)
Theorem build_run_metrics (w : World G) :
  ready (self w) →
  ∃ metrics g',
    run_build_system_simulation w
    = (Ok metrics, {| self := self w; env := g' |})
    ∧ 0 ≤ error_count metrics ≤ 1000
    ∧ (success_rate metrics
       == inject_Z (1000 - error_count metrics) / inject_Z 1000 * 100)%Q
    ∧ (0 <= success_rate metrics)%Q ∧ (success_rate metrics <= 100)%Q
    ∧ (20 <= latency_ms metrics)%Q
    ∧ (throughput_msg_per_sec metrics == 10 # 3)%Q
    ∧ (70 <= cpu_utilization metrics)%Q
    ∧ (cpu_utilization metrics <= 85)%Q
    ∧ memory_usage_mb metrics = 45%Q.
Proof. exact (build_run_outcome w). Qed.

End BuildFacts.

Lemma build_run_metrics_witness :
  ready (self Examples.two_agents)
  ∧ ∃ metrics w',
      run_build_system_simulation Examples.two_agents = (Ok metrics, w')
      ∧ 0 ≤ error_count metrics ≤ 1000
      ∧ (20 <= latency_ms metrics)%Q.
Proof.
  split; [exact ExampleFacts.two_agents_ready |].
  destruct (build_run_metrics Examples.two_agents
              ExampleFacts.two_agents_ready)
    as (metrics & g' & Hrun & Herrors & _ & _ & _ & Hmedian & _).
  exists metrics, {| self := self Examples.two_agents; env := g' |}.
  exact (conj Hrun (conj Herrors Hmedian)).
Defined.

(** ** Faults of the population reach the caller of a run *)

Section FaultFacts.
Context {G : Type} `{Environment G}.
Abbreviation Method := (M (World G)).

(** A call that returns, followed by one that raises, raises. *)
Lemma returns_then_raises {A B} (m : Method A) (k : A → Method B)
    (P : A → Prop) (e : exn) (w : World G) :
  returns m P w →
  (∀ a g', P a →
     ∃ g'', k a {| self := self w; env := g' |}
            = (Raise e, {| self := self w; env := g'' |})) →
  ∃ g'', bind m k w = (Raise e, {| self := self w; env := g'' |}).
Proof.
  intros (a & g' & Hm & Ha) Hk.
  destruct (Hk a g' Ha) as (g'' & Hraise).
  exists g''. by rewrite (bind_ok _ _ _ _ _ Hm).
Qed.

Lemma simulate_message_processing_too_few
    (message_type : MessageType) (payload : Q) (w : World G) :
  (length (agents (self w)) < 2)%nat →
  ∃ g', _simulate_message_processing message_type payload w
        = (Raise IndexError, {| self := self w; env := g' |}).
Proof.
  intros Hlen.
  destruct (select_endpoints_too_few w Hlen) as (g' & Hselect).
  exists g'. rewrite simulate_message_processing_split.
  by rewrite (bind_raise _ _ _ _ _ Hselect).
Qed.

Lemma message_event_too_few (w : World G) :
  (length (agents (self w)) < 2)%nat →
  ∃ g', message_event w
        = (Raise IndexError, {| self := self w; env := g' |}).
Proof.
  intros Hlen. unfold message_event.
  eapply returns_then_raises; [by apply returns_random_choice |].
  intros message_type g1 _.
  apply (returns_then_raises _ _ _ _ {| self := self w; env := g1 |}
           (returns_random_uniform 1 500 _ ltac:(lra))).
  intros payload g2 _.
  by apply (simulate_message_processing_too_few message_type payload
              {| self := self w; env := g2 |}).
Qed.

Lemma build_stages_too_few (w : World G) :
  (length (agents (self w)) < 2)%nat →
  ∃ g', build_stages w
        = (Raise IndexError, {| self := self w; env := g' |}).
Proof.
  intros Hlen. unfold build_stages.
  eapply returns_then_raises; [apply returns_random_uniform; lra |].
  intros payload g1 _.
  destruct (simulate_message_processing_too_few CALL payload
              {| self := self w; env := g1 |} Hlen) as (g2 & Hraise).
  exists g2. by rewrite (bind_raise _ _ _ _ _ Hraise).
Qed.

(** X13.  On a population of fewer than two agents the build-pipeline run
    raises [IndexError], at the first stage of the first trial, and leaves the
    simulator as it was: the fault of the endpoint choice is not caught on
    the way. *)
Theorem build_run_needs_two_agents (w : World G) :
  (length (agents (self w)) < 2)%nat →
  ∃ g',
    run_build_system_simulation w
    = (Raise IndexError, {| self := self w; env := g' |}).
Proof.
  intros Hlen.
  destruct (build_stages_too_few w Hlen) as (g' & Hraise).
  exists g'. unfold run_build_system_simulation.
  apply bind_raise. unfold build_loop. rewrite bind_gets. cbv zeta.
  rewrite build_requests_trials. apply bind_raise.
  unfold py_range. rewrite length_seqZ.
  replace (Z.to_nat (1000 - 0)) with (S (Z.to_nat 999)) by lia.
  cbn [build_trials]. by apply bind_raise.
Qed.

(** X14.  On a population of fewer than two agents a large-scale run of a
    duration in [1 .. 900000] raises [IndexError] at the first message of
    second 0: the simulator is as it was, but for [simulation_time], which is
    0 by then. *)
Theorem large_scale_run_needs_two_agents
    (duration_seconds : Z) (w : World G) :
  0 < duration_seconds ≤ 900000 →
  (length (agents (self w)) < 2)%nat →
  ∃ w',
    run_large_scale_simulation duration_seconds w = (Raise IndexError, w')
    ∧ same_setup (self w) (self w')
    ∧ simulation_time (self w') = 0%Q.
Proof.
  intros Hd Hlen.
  set (mps := 900000 / duration_seconds).
  assert (Hmps : 0 < mps).
  { apply Z.div_str_pos. lia. }
  set (w0 := {| self := self w; env := (next_time (env w)).2 |}).
  set (w1 := (set_simulation_time 0 w0).2).
  assert (Hsetup : same_setup (self w) (self w1)).
  { apply (keeps_setup_set_simulation_time 0 w0). }
  destruct (message_event_too_few w1) as (g' & Hraise).
  { destruct Hsetup as (_ & _ & _ & Hagents & _).
    by rewrite Hagents. }
  exists {| self := self w1; env := g' |}.
  split; [| split; [exact Hsetup | reflexivity]].
  unfold run_large_scale_simulation. apply bind_raise.
  unfold large_scale_loop, py_floordiv.
  assert ((duration_seconds =? 0) = false) as -> by lia.
  rewrite bind_ret, (bind_ok _ _ _ _ _ (time_time_run w)).
  fold mps. fold w0. apply bind_raise.
  rewrite large_scale_seconds_events. apply bind_raise.
  unfold py_range. rewrite seqZ_cons by lia.
  replace (Z.to_nat mps) with (S (Z.to_nat (mps - 1))) by lia.
  cbn [simulated_seconds message_events].
  rewrite bind_unfold.
  change (set_simulation_time (inject_Z 0) w0) with (Ok tt, w1).
  cbv beta iota.
  apply bind_raise. by apply bind_raise.
Qed.

End FaultFacts.

Lemma build_run_needs_two_agents_witness :
  (length (agents (self Examples.one_agent)) < 2)%nat
  ∧ ∃ w',
      run_build_system_simulation Examples.one_agent = (Raise IndexError, w').
Proof.
  assert (Hlen : (length (agents (self Examples.one_agent)) < 2)%nat)
    by (cbn; lia).
  split; [exact Hlen |].
  destruct (build_run_needs_two_agents Examples.one_agent Hlen)
    as (g' & Hrun).
  exists {| self := self Examples.one_agent; env := g' |}. exact Hrun.
Defined.

Lemma large_scale_run_needs_two_agents_witness :
  0 < 300 ≤ 900000
  ∧ (length (agents (self Examples.one_agent)) < 2)%nat
  ∧ ∃ w',
      run_large_scale_simulation 300 Examples.one_agent
      = (Raise IndexError, w').
Proof.
  assert (Hd : 0 < 300 ≤ 900000) by lia.
  assert (Hlen : (length (agents (self Examples.one_agent)) < 2)%nat)
    by (cbn; lia).
  split; [exact Hd |]. split; [exact Hlen |].
  destruct (large_scale_run_needs_two_agents 300 Examples.one_agent Hd Hlen)
    as (w' & Hrun & _).
  exists w'. exact Hrun.
Defined.

(** ** The constructor *)

(** ** Decimal formatting *)

Lemma zeros_S (n : nat) : zeros (S n) = String "0"%char (zeros n).
Proof. reflexivity. Qed.

Lemma py_digits_parse (n : N) :
  NilEmpty.uint_of_string (py_digits n) = Some (N.to_uint n).
Proof.
  unfold py_digits.
  assert (Hnonnil : N.to_uint n ≠ Decimal.Nil).
  { destruct n as [| p]; [discriminate |]. apply DecimalPos.Unsigned.to_uint_nonnil. }
  destruct (N.to_uint n) eqn:Hd; try done; rewrite <- Hd at 2;
    rewrite <- (NilEmpty.usu (N.to_uint n)); by rewrite Hd.
Qed.

Lemma zeros_digits_parse (k : nat) (n : N) :
  ∃ d, NilEmpty.uint_of_string (zeros k +:+ py_digits n) = Some d
       ∧ N.of_uint d = n.
Proof.
  induction k as [| k (d & Hd & Hn)].
  - exists (N.to_uint n). split; [apply py_digits_parse |].
    apply DecimalN.Unsigned.of_to.
  - exists (Decimal.D0 d). split; [| exact Hn].
    rewrite zeros_S.
    change (String "0"%char (zeros k) +:+ py_digits n)
      with (String "0"%char (zeros k +:+ py_digits n)).
    cbn [NilEmpty.uint_of_string]. by rewrite Hd.
Qed.

Lemma py_format_0d_nonneg (width : nat) (i : Z) :
  0 ≤ i →
  py_format_0d width i
  = zeros (width - String.length (py_digits (Z.to_N i))) +:+ py_digits (Z.to_N i).
Proof.
  intros Hi. unfold py_format_0d.
  assert ((i <? 0) = false) as -> by lia.
  by replace (Z.abs_N i) with (Z.to_N i) by lia.
Qed.

(** A non-negative number is read back from its padded digits. *)
Lemma py_format_0d_parse (width : nat) (i : Z) :
  0 ≤ i →
  ∃ d, NilEmpty.uint_of_string (py_format_0d width i) = Some d
       ∧ Z.of_N (N.of_uint d) = i.
Proof.
  intros Hi. rewrite py_format_0d_nonneg by exact Hi.
  destruct (zeros_digits_parse
              (width - String.length (py_digits (Z.to_N i))) (Z.to_N i))
    as (d & Hd & Hn).
  exists d. split; [exact Hd |]. rewrite Hn. lia.
Qed.

Lemma py_format_0d_inj (width : nat) (i j : Z) :
  0 ≤ i → 0 ≤ j → py_format_0d width i = py_format_0d width j → i = j.
Proof.
  intros Hi Hj Heq.
  destruct (py_format_0d_parse width i Hi) as (d & Hd & <-).
  destruct (py_format_0d_parse width j Hj) as (d' & Hd' & <-).
  rewrite Heq in Hd. by simplify_eq.
Qed.

(** No string of digits has a dash in it. *)
Lemma dash_not_digits (pre post : string) :
  NilEmpty.uint_of_string (pre +:+ "-" +:+ post) = None.
Proof.
  induction pre as [| c pre IH].
  - change ("" +:+ "-" +:+ post) with (String "-"%char post).
    cbn [NilEmpty.uint_of_string].
    by destruct (NilEmpty.uint_of_string post).
  - change (String c pre +:+ "-" +:+ post)
      with (String c (pre +:+ "-" +:+ post)).
    cbn [NilEmpty.uint_of_string]. by rewrite IH.
Qed.

(** The digits after the last dash determine what precedes it. *)
Lemma dash_digits_inj (pre1 pre2 digits1 digits2 : string) :
  is_Some (NilEmpty.uint_of_string digits1) →
  is_Some (NilEmpty.uint_of_string digits2) →
  pre1 +:+ "-" +:+ digits1 = pre2 +:+ "-" +:+ digits2 →
  pre1 = pre2 ∧ digits1 = digits2.
Proof.
  intros H1 H2. revert pre2.
  induction pre1 as [| c1 pre1 IH]; intros [| c2 pre2] Heq.
  - change (String "-"%char digits1 = String "-"%char digits2) in Heq.
    by simplify_eq.
  - change (String "-"%char digits1 = String c2 (pre2 +:+ "-" +:+ digits2)) in Heq.
    simplify_eq. rewrite dash_not_digits in H1. by destruct H1.
  - change (String c1 (pre1 +:+ "-" +:+ digits1) = String "-"%char digits2) in Heq.
    simplify_eq. rewrite dash_not_digits in H2. by destruct H2.
  - change (String c1 (pre1 +:+ "-" +:+ digits1)
            = String c2 (pre2 +:+ "-" +:+ digits2)) in Heq.
    simplify_eq. destruct (IH pre2) as [-> ->]; done.
Qed.

(** Agents created for different indices have different identities,
    whatever their regions. *)
Lemma agent_id_inj (region1 region2 : string) (i j : Z) :
  0 ≤ i → 0 ≤ j →
  "llm://agent-" +:+ region1 +:+ "-" +:+ py_format_0d 4 i
  = "llm://agent-" +:+ region2 +:+ "-" +:+ py_format_0d 4 j →
  i = j.
Proof.
  intros Hi Hj Heq. apply String.app_inj in Heq.
  apply dash_digits_inj in Heq as [_ Heq].
  - by apply (py_format_0d_inj 4).
  - destruct (py_format_0d_parse 4 i Hi) as (d & -> & _). by eexists.
  - destruct (py_format_0d_parse 4 j Hj) as (d & -> & _). by eexists.
Qed.

(** ** The pool of [random.sample] *)

(** Taking slot [j] out of the first [live] slots and refilling it with the
    last of them leaves the same elements. *)
Lemma pool_round {A} (pool : list A) (live j : nat) (chosen last_live : A) :
  (j < live)%nat →
  pool !! j = Some chosen → pool !! (live - 1)%nat = Some last_live →
  take live pool ≡ₚ chosen :: take (live - 1) (<[j := last_live]> pool).
Proof.
  intros Hj Hchosen Hlast.
  replace live with (S (live - 1)) at 1 by lia.
  rewrite (take_S_r _ _ _ Hlast).
  destruct (decide (j = live - 1)%nat) as [-> | Hne].
  - rewrite take_insert_ge by lia. simplify_eq.
    by rewrite <- Permutation_cons_append.
  - rewrite take_insert_lt by lia.
    set (t := take (live - 1) pool).
    assert (Ht : t !! j = Some chosen).
    { unfold t. rewrite lookup_take_lt by lia. exact Hchosen. }
    rewrite <- Permutation_cons_append.
    rewrite (delete_Permutation t j chosen Ht) at 1.
    rewrite perm_swap. f_equiv.
    rewrite insert_take_drop by (apply lookup_lt_Some in Ht; exact Ht).
    rewrite <- Permutation_middle. f_equiv.
    by rewrite delete_take_drop.
Qed.

Section ConstructorFacts.
Context {G : Type} `{Environment G}.
Abbreviation Method := (M (World G)).

Lemma returns_weaken {A} (m : Method A) (P Q : A → Prop) (w : World G) :
  returns m P w → (∀ a, P a → Q a) → returns m Q w.
Proof. intros (a & g' & Hm & Ha) HPQ. exists a, g'. split; [exact Hm | by apply HPQ]. Qed.

Lemma returns_random_randint (a b : Z) (w : World G) :
  a ≤ b → returns (random_randint a b) (λ v, a ≤ v ≤ b) w.
Proof.
  intros Hab. unfold random_randint.
  assert ((b <? a) = false) as -> by lia.
  eapply returns_bind; [apply returns_draw_raw |].
  intros k g' _. apply returns_ret.
  pose proof (Z.mod_pos_bound (Z.of_N k) (b - a + 1)). lia.
Qed.

Lemma returns_sample_round {A} (n i : nat) (pool result : list A)
    (w : World G) :
  length pool = n → (i < n)%nat →
  returns (sample_round n (Z.of_nat i) (pool, result))
    (λ l, length l.1 = n
          ∧ ∃ chosen, l.2 = result ++ [chosen]
                      ∧ take (n - i) pool ≡ₚ chosen :: take (n - S i) l.1) w.
Proof.
  intros Hlen Hi. unfold sample_round. rewrite Nat2Z.id.
  eapply returns_bind; [apply returns_draw_raw |].
  intros k g' _.
  set (live := (n - i)%nat).
  set (j := N.to_nat (k mod N.of_nat live)).
  assert (Hj : (j < live)%nat).
  { unfold j.
    assert ((k mod N.of_nat live < N.of_nat live)%N)
      by (apply N.mod_upper_bound; lia).
    lia. }
  destruct (lookup_lt_is_Some_2 pool j) as [chosen Hchosen]; [lia |].
  destruct (lookup_lt_is_Some_2 pool (live - 1)) as [last_live Hlast]; [lia |].
  rewrite Hchosen, Hlast. apply returns_ret. cbn [fst snd].
  split; [by rewrite length_insert |].
  exists chosen. split; [reflexivity |].
  replace (n - S i)%nat with (live - 1)%nat by lia.
  by apply pool_round.
Qed.

Lemma returns_random_sample {A} (population : list A) (k : Z) (w : World G) :
  0 ≤ k ≤ Z.of_nat (length population) → NoDup population →
  returns (random_sample population k)
    (λ chosen, length chosen = Z.to_nat k ∧ NoDup chosen
               ∧ chosen ⊆ population) w.
Proof.
  intros Hk Hnodup. unfold random_sample.
  set (n := length population).
  assert ((k <? 0) || (Z.of_nat n <? k) = false) as ->
    by (apply orb_false_iff; lia).
  eapply returns_bind.
  - apply (returns_for_fold
             (λ i l, length l.1 = n ∧ length l.2 = i
                     ∧ l.2 ++ take (n - i) l.1 ≡ₚ population)).
    + cbn [fst snd length app]. split; [reflexivity |]. split; [reflexivity |].
      rewrite Nat.sub_0_r. by rewrite take_ge.
    + intros i x [pool result] g Hx (Hlen & Hres & Hperm).
      cbn [fst snd] in *. unfold py_range in Hx.
      apply lookup_seqZ in Hx as [-> Hi].
      rewrite Z.add_0_l.
      eapply returns_weaken;
        [apply (returns_sample_round n i pool result); [exact Hlen | lia] |].
      intros [pool' result'] (Hlen' & chosen & -> & Hround).
      cbn [fst snd] in *. split; [exact Hlen' |].
      split; [rewrite length_app; cbn [length]; lia |].
      rewrite <- Hperm, <- app_assoc. cbn [app]. by rewrite Hround.
  - intros [pool result] g' (Hlen & Hres & Hperm). cbn [fst snd] in *.
    apply returns_ret.
    unfold py_range in Hres. rewrite length_seqZ, Z.sub_0_r in Hres.
    split; [exact Hres |].
    rewrite <- Hperm in Hnodup.
    split; [by apply NoDup_app in Hnodup as [? _] |].
    intros x Hx. rewrite <- Hperm. apply elem_of_app. by left.
Qed.

(** *** The assignments of [__init__] *)

Lemma draw_gausses_run (n : nat) (w : World G) :
  draw_gausses n w
  = (Ok (gauss_values n (env w)),
     {| self := self w; env := skip_gauss n (env w) |}).
Proof.
  revert w. induction n as [| n IH]; intros w; [by destruct w |].
  cbn [draw_gausses gauss_values skip_gauss].
  rewrite bind_unfold. unfold draw_gauss at 1.
  destruct (next_gauss (env w)) as [z g]. cbn [fst snd].
  rewrite bind_unfold, IH. reflexivity.
Qed.

Lemma np_random_normal_shape_run (rows cols : nat) (w : World G) :
  np_random_normal_shape 0 (1 # 10) rows cols w
  = (Ok (tenth_matrix rows cols (env w)),
     {| self := self w; env := skip_gauss (rows * cols) (env w) |}).
Proof.
  unfold np_random_normal_shape.
  change (Qlt_bool (1 # 10) 0) with false. cbv beta iota.
  by rewrite bind_unfold, draw_gausses_run.
Qed.

(** [__init__] is the creation of the agents and of the routers on the
    object that its assignments leave; nothing of the object it was called
    on is left. *)
Lemma init_assigns (n_agents n_routers : Z) (region_names : list string)
    (w : World G) :
  __init__ n_agents n_routers region_names w
  = bind _initialize_agents (λ _, _initialize_routers)
      (assigned n_agents n_routers region_names (env w)).
Proof.
  unfold __init__. rewrite bind_unfold. unfold modify at 1.
  rewrite bind_unfold, np_random_normal_shape_run.
  rewrite bind_unfold, np_random_normal_shape_run.
  rewrite bind_unfold, np_random_normal_shape_run.
  reflexivity.
Qed.

(** *** The population *)

Lemma with_population_same (s : IICPNeuralNetworkSimulator) :
  with_population s (agents s) (routers s) = s.
Proof. by destruct s. Qed.

Lemma initialize_agent_run (i : Z) (w : World G) :
  regions (self w) ≠ [] →
  ∃ a g',
    initialize_agent i tt w
    = (Ok tt,
       {| self := with_population (self w) (agents (self w) ++ [a])
                    (routers (self w));
          env := g' |})
    ∧ agent_ok (regions (self w)) i a.
Proof.
  intros Hregions. unfold initialize_agent. rewrite bind_gets.
  destruct (returns_random_choice (regions (self w)) w Hregions)
    as (chosen & g1 & Hregion & Hin).
  rewrite (bind_ok _ _ _ _ _ Hregion).
  destruct (returns_random_randint 1 3 {| self := self w; env := g1 |})
    as (count & g2 & Hcount & Hrange); [lia |].
  rewrite (bind_ok _ _ _ _ _ Hcount). cbn [self].
  destruct (returns_random_sample intent_types count
              {| self := self w; env := g2 |})
    as (intents & g3 & Hintents & Hlen & Hnodup & Hsub).
  { cbn [intent_types length]. lia. }
  { apply (bool_decide_unpack _). vm_compute. reflexivity. }
  rewrite (bind_ok _ _ _ _ _ Hintents). cbn [self].
  destruct (returns_random_choice QoSClass_members
              {| self := self w; env := g3 |})
    as (qos & g4 & Hqos & _); [done |].
  rewrite (bind_ok _ _ _ _ _ Hqos). cbn [self].
  destruct (returns_random_choice TransportHint_members
              {| self := self w; env := g4 |})
    as (transport & g5 & Htransport & _); [done |].
  rewrite (bind_ok _ _ _ _ _ Htransport). cbn [self].
  destruct (returns_random_uniform (1 # 10) (8 # 10)
              {| self := self w; env := g5 |})
    as (load & g6 & Hload & Hload1 & Hload2); [lra |].
  rewrite (bind_ok _ _ _ _ _ Hload). cbn [self].
  rewrite (bind_ok _ _ _ _ _ (time_time_run {| self := self w; env := g6 |})).
  cbn [self env].
  eexists _, _. split; [reflexivity |].
  unfold agent_ok. cbn [region agent_id supported_intents load_factor].
  split; [exact Hin |]. split; [reflexivity |].
  split; [rewrite Hlen; lia |]. split; [exact Hnodup |].
  split; [exact Hsub |]. split; [exact Hload1 | exact Hload2].
Qed.

Lemma initialize_agent_no_region (i : Z) (w : World G) :
  regions (self w) = [] → initialize_agent i tt w = (Raise IndexError, w).
Proof.
  intros Hregions. unfold initialize_agent. rewrite bind_gets, Hregions.
  reflexivity.
Qed.

Lemma initialize_agents_loop (xs : list Z) (w : World G) :
  regions (self w) ≠ [] →
  ∃ new g',
    for_fold xs initialize_agent tt w
    = (Ok tt,
       {| self := with_population (self w) (agents (self w) ++ new)
                    (routers (self w));
          env := g' |})
    ∧ Forall2 (agent_ok (regions (self w))) xs new.
Proof.
  revert w. induction xs as [| x xs IH]; intros w Hregions.
  - exists [], (env w). split; [| constructor].
    rewrite app_nil_r, with_population_same. by destruct w.
  - destruct (initialize_agent_run x w Hregions) as (a & g1 & Hrun & Ha).
    cbn [for_fold]. rewrite (bind_ok _ _ _ _ _ Hrun).
    set (w1 := {| self := _; env := g1 |}).
    destruct (IH w1 Hregions) as (new & g2 & Hloop & Hnew).
    exists (a :: new), g2. split; [| by constructor].
    rewrite Hloop. cbn [w1 self with_population agents routers].
    by rewrite <- app_assoc.
Qed.

Lemma initialize_router_run (i : Z) (w : World G) :
  regions (self w) ≠ [] →
  ∃ r g',
    initialize_router i tt w
    = (Ok tt,
       {| self := with_population (self w) (agents (self w))
                    (routers (self w) ++ [r]);
          env := g' |})
    ∧ router_ok (regions (self w)) i r.
Proof.
  intros Hregions. unfold initialize_router. rewrite bind_gets.
  destruct (returns_random_choice (regions (self w)) w Hregions)
    as (chosen & g1 & Hregion & Hin).
  rewrite (bind_ok _ _ _ _ _ Hregion).
  destruct (returns_random_uniform (2 # 10) (6 # 10)
              {| self := self w; env := g1 |})
    as (cpu & g2 & Hcpu & Hcpu1 & Hcpu2); [lra |].
  rewrite (bind_ok _ _ _ _ _ Hcpu). cbn [self].
  eexists _, _. split; [reflexivity |].
  by repeat split.
Qed.

Lemma initialize_router_no_region (i : Z) (w : World G) :
  regions (self w) = [] → initialize_router i tt w = (Raise IndexError, w).
Proof.
  intros Hregions. unfold initialize_router. rewrite bind_gets, Hregions.
  reflexivity.
Qed.

Lemma initialize_routers_loop (xs : list Z) (w : World G) :
  regions (self w) ≠ [] →
  ∃ new g',
    for_fold xs initialize_router tt w
    = (Ok tt,
       {| self := with_population (self w) (agents (self w))
                    (routers (self w) ++ new);
          env := g' |})
    ∧ Forall2 (router_ok (regions (self w))) xs new.
Proof.
  revert w. induction xs as [| x xs IH]; intros w Hregions.
  - exists [], (env w). split; [| constructor].
    rewrite app_nil_r, with_population_same. by destruct w.
  - destruct (initialize_router_run x w Hregions) as (r & g1 & Hrun & Hr).
    cbn [for_fold]. rewrite (bind_ok _ _ _ _ _ Hrun).
    set (w1 := {| self := _; env := g1 |}).
    destruct (IH w1 Hregions) as (new & g2 & Hloop & Hnew).
    exists (r :: new), g2. split; [| by constructor].
    rewrite Hloop. cbn [w1 self with_population agents routers].
    by rewrite <- app_assoc.
Qed.

(** The constructor, from the call to the object it leaves. *)
Lemma init_run (n_agents n_routers : Z) (region_names : list string)
    (w : World G) :
  region_names ≠ [] →
  ∃ population network g',
    __init__ n_agents n_routers region_names w
    = (Ok tt,
       {| self :=
            with_population
              (self (assigned n_agents n_routers region_names (env w)))
              population network;
          env := g' |})
    ∧ Forall2 (agent_ok region_names) (py_range 0 n_agents) population
    ∧ Forall2 (router_ok region_names) (py_range 0 n_routers) network.
Proof.
  intros Hregions. rewrite init_assigns.
  set (w0 := assigned n_agents n_routers region_names (env w)).
  destruct (initialize_agents_loop (py_range 0 n_agents) w0 Hregions)
    as (population & g1 & Hagents & Hpopulation).
  set (w1 := {| self := with_population (self w0) (agents (self w0) ++ population)
                          (routers (self w0));
                env := g1 |}) in Hagents.
  destruct (initialize_routers_loop (py_range 0 n_routers) w1 Hregions)
    as (network & g2 & Hrouters & Hnetwork).
  exists population, network, g2.
  split; [| split; [exact Hpopulation | exact Hnetwork]].
  rewrite bind_unfold. unfold _initialize_agents at 1. rewrite bind_gets.
  change (num_agents (self w0)) with n_agents.
  rewrite Hagents. unfold _initialize_routers. rewrite bind_gets.
  change (num_routers (self w1)) with n_routers.
  rewrite Hrouters. reflexivity.
Qed.

Lemma created_length {A} (P : Z → A → Prop) (n : Z) (created : list A) :
  Forall2 P (py_range 0 n) created → Z.of_nat (length created) = Z.max 0 n.
Proof.
  intros Hcreated. apply Forall2_length in Hcreated.
  unfold py_range in Hcreated. rewrite length_seqZ in Hcreated. lia.
Qed.

Lemma created_lookup {A} (P : Z → A → Prop) (n : Z) (created : list A)
    (i : nat) (a : A) :
  Forall2 P (py_range 0 n) created → created !! i = Some a →
  P (Z.of_nat i) a.
Proof.
  intros Hcreated Ha.
  destruct (Forall2_lookup_r _ _ _ _ _ Hcreated Ha) as (x & Hx & HP).
  unfold py_range in Hx. apply lookup_seqZ in Hx as [-> _].
  by rewrite Z.add_0_l in HP.
Qed.

Lemma created_agents_distinct (region_names : list string) (n : Z)
    (population : list Agent) :
  Forall2 (agent_ok region_names) (py_range 0 n) population →
  pairwise_distinct population.
Proof.
  intros Hpopulation i j a b Ha Hb Hne.
  destruct (created_lookup _ _ _ _ _ Hpopulation Ha) as (_ & Hida & _).
  destruct (created_lookup _ _ _ _ _ Hpopulation Hb) as (_ & Hidb & _).
  unfold Agent_eq. rewrite bool_decide_false; [reflexivity |].
  intros Heq. rewrite Hida, Hidb in Heq.
  apply agent_id_inj in Heq; lia.
Qed.

(** X15.  With a region to choose from, the constructor returns whatever
    object it is called on: the counts and the regions are stored as given
    (a negative count too), the history is empty and the time 0, the three
    weight matrices are a tenth of the first 50, the next 32 and the next 18
    normal deviates of the environment, and there are [max 0 num_agents]
    agents and [max 0 num_routers] routers. *)
Theorem constructor_run (n_agents n_routers : Z) (region_names : list string)
    (w : World G) :
  region_names ≠ [] →
  ∃ s g',
    __init__ n_agents n_routers region_names w
    = (Ok tt, {| self := s; env := g' |})
    ∧ num_agents s = n_agents ∧ num_routers s = n_routers
    ∧ regions s = region_names
    ∧ metrics_history s = [] ∧ simulation_time s = 0%Q
    ∧ nn_weights s = drawn_weights (env w)
    ∧ Z.of_nat (length (agents s)) = Z.max 0 n_agents
    ∧ Z.of_nat (length (routers s)) = Z.max 0 n_routers.
Proof.
  intros Hregions.
  destruct (init_run n_agents n_routers region_names w Hregions)
    as (population & network & g' & Hrun & Hpopulation & Hnetwork).
  eexists _, g'. split; [exact Hrun |].
  cbn [with_population assigned self num_agents num_routers regions
         metrics_history simulation_time nn_weights agents routers].
  repeat (split; [reflexivity |]).
  split; [by eapply created_length | by eapply created_length].
Qed.

(** X16.  Agent [i] of a constructed simulator has a region of the given
    ones, the identity ["llm://agent-<region>-<i>"] with [i] in at least four
    digits, between one and three supported intents, pairwise different and
    among the five intent types, and a load factor in [0.1, 0.8]. *)
Theorem constructor_agents (n_agents n_routers : Z)
    (region_names : list string) (w : World G) :
  region_names ≠ [] →
  ∃ s g',
    __init__ n_agents n_routers region_names w
    = (Ok tt, {| self := s; env := g' |})
    ∧ ∀ i a, agents s !! i = Some a → agent_ok region_names (Z.of_nat i) a.
Proof.
  intros Hregions.
  destruct (init_run n_agents n_routers region_names w Hregions)
    as (population & network & g' & Hrun & Hpopulation & Hnetwork).
  eexists _, g'. split; [exact Hrun |].
  intros i a Ha. by eapply created_lookup.
Qed.

(** X17.  Router [i] of a constructed simulator has the identity
    ["router-<i>"] with [i] in at least three digits, a region of the given
    ones, its three counters at 0 and a utilization in [0.2, 0.6]. *)
Theorem constructor_routers (n_agents n_routers : Z)
    (region_names : list string) (w : World G) :
  region_names ≠ [] →
  ∃ s g',
    __init__ n_agents n_routers region_names w
    = (Ok tt, {| self := s; env := g' |})
    ∧ ∀ i r, routers s !! i = Some r → router_ok region_names (Z.of_nat i) r.
Proof.
  intros Hregions.
  destruct (init_run n_agents n_routers region_names w Hregions)
    as (population & network & g' & Hrun & Hpopulation & Hnetwork).
  eexists _, g'. split; [exact Hrun |].
  intros i r Hr. by eapply created_lookup.
Qed.

Lemma init_ready (n_agents n_routers : Z) (region_names : list string)
    (w : World G) :
  region_names ≠ [] → 2 ≤ n_agents →
  ∃ s g',
    __init__ n_agents n_routers region_names w
    = (Ok tt, {| self := s; env := g' |})
    ∧ ready s ∧ Z.of_nat (length (agents s)) = n_agents.
Proof.
  intros Hregions Hn.
  destruct (init_run n_agents n_routers region_names w Hregions)
    as (population & network & g' & Hrun & Hpopulation & Hnetwork).
  eexists _, g'. split; [exact Hrun |].
  pose proof (created_length _ _ _ Hpopulation) as Hlen.
  split; [| cbn [with_population agents]; lia].
  split; [| by split].
  split; [cbn [with_population agents]; lia |].
  by eapply created_agents_distinct.
Qed.

(** X18.  The agents of a constructed simulator are pairwise different,
    their identities already: with a region to choose from and at least two
    agents asked for, the constructor leaves a simulator that the runs accept
    (two agents or more, pairwise different, weights of the shapes the
    feature vectors need). *)
Theorem constructor_ready (n_agents n_routers : Z)
    (region_names : list string) (w : World G) :
  region_names ≠ [] → 2 ≤ n_agents →
  ∃ s g',
    __init__ n_agents n_routers region_names w
    = (Ok tt, {| self := s; env := g' |})
    ∧ ready s
    ∧ ∀ i j a b, agents s !! i = Some a → agents s !! j = Some b →
                 i ≠ j → agent_id a ≠ agent_id b.
Proof.
  intros Hregions Hn.
  destruct (init_run n_agents n_routers region_names w Hregions)
    as (population & network & g' & Hrun & Hpopulation & Hnetwork).
  eexists _, g'. split; [exact Hrun |].
  pose proof (created_length _ _ _ Hpopulation) as Hlen.
  split.
  - split; [| by split].
    split; [cbn [with_population agents]; lia |].
    by eapply created_agents_distinct.
  - cbn [with_population agents]. intros i j a b Ha Hb Hne Heq.
    destruct (created_lookup _ _ _ _ _ Hpopulation Ha) as (_ & Hida & _).
    destruct (created_lookup _ _ _ _ _ Hpopulation Hb) as (_ & Hidb & _).
    rewrite Hida, Hidb in Heq. apply agent_id_inj in Heq; lia.
Qed.

(** X19.  Without a region the constructor raises [IndexError] as soon as
    there is an agent or a router to create, and leaves the object with its
    attributes assigned and no population. *)
Theorem constructor_needs_regions (n_agents n_routers : Z) (w : World G) :
  0 < n_agents ∨ 0 < n_routers →
  __init__ n_agents n_routers [] w
  = (Raise IndexError, assigned n_agents n_routers [] (env w)).
Proof.
  intros Hsome. rewrite init_assigns.
  set (w0 := assigned n_agents n_routers [] (env w)).
  destruct (decide (0 < n_agents)) as [Hn | Hn].
  - apply bind_raise. unfold _initialize_agents. rewrite bind_gets.
    change (num_agents (self w0)) with n_agents.
    unfold py_range. rewrite seqZ_cons by lia. cbn [for_fold].
    apply bind_raise. by apply initialize_agent_no_region.
  - rewrite (bind_ok _ _ w0 tt w0).
    + unfold _initialize_routers. rewrite bind_gets.
      change (num_routers (self w0)) with n_routers.
      unfold py_range. rewrite seqZ_cons by lia. cbn [for_fold].
      apply bind_raise. by apply initialize_router_no_region.
    + unfold _initialize_agents. rewrite bind_gets.
      change (num_agents (self w0)) with n_agents.
      unfold py_range. by rewrite seqZ_nil by lia.
Qed.

(** X20.  The constructor reads nothing of the object it is called on: on
    two objects, in the same environment, it has the same outcome and leaves
    the same object. *)
Theorem constructor_overwrites (n_agents n_routers : Z)
    (region_names : list string) (s1 s2 : IICPNeuralNetworkSimulator)
    (g : G) :
  __init__ n_agents n_routers region_names {| self := s1; env := g |}
  = __init__ n_agents n_routers region_names {| self := s2; env := g |}.
Proof. by rewrite !init_assigns. Qed.

End ConstructorFacts.

Lemma constructor_run_witness :
  ["us-east-1"; "eu-west-1"] ≠ []
  ∧ ∃ s g',
      __init__ 3 (-1) ["us-east-1"; "eu-west-1"] Examples.one_agent
      = (Ok tt, {| self := s; env := g' |})
      ∧ num_routers s = -1
      ∧ Z.of_nat (length (agents s)) = 3
      ∧ Z.of_nat (length (routers s)) = 0.
Proof.
  assert (Hregions : ["us-east-1"; "eu-west-1"] ≠ []) by discriminate.
  split; [exact Hregions |].
  destruct (constructor_run 3 (-1) ["us-east-1"; "eu-west-1"]
              Examples.one_agent Hregions)
    as (s & g' & Hrun & _ & Hrouters & _ & _ & _ & _ & Hpopulation & Hnetwork).
  exists s, g'. exact (conj Hrun (conj Hrouters (conj Hpopulation Hnetwork))).
Defined.

Lemma constructor_agents_witness :
  ["us-east-1"; "eu-west-1"] ≠ []
  ∧ ∃ s g',
      __init__ 3 1 ["us-east-1"; "eu-west-1"] Examples.one_agent
      = (Ok tt, {| self := s; env := g' |})
      ∧ ∀ i a, agents s !! i = Some a →
               agent_ok ["us-east-1"; "eu-west-1"] (Z.of_nat i) a.
Proof.
  assert (Hregions : ["us-east-1"; "eu-west-1"] ≠ []) by discriminate.
  split; [exact Hregions |].
  exact (constructor_agents 3 1 ["us-east-1"; "eu-west-1"]
           Examples.one_agent Hregions).
Defined.

Lemma constructor_routers_witness :
  ["us-east-1"; "eu-west-1"] ≠ []
  ∧ ∃ s g',
      __init__ 3 1 ["us-east-1"; "eu-west-1"] Examples.one_agent
      = (Ok tt, {| self := s; env := g' |})
      ∧ ∀ i r, routers s !! i = Some r →
               router_ok ["us-east-1"; "eu-west-1"] (Z.of_nat i) r.
Proof.
  assert (Hregions : ["us-east-1"; "eu-west-1"] ≠ []) by discriminate.
  split; [exact Hregions |].
  exact (constructor_routers 3 1 ["us-east-1"; "eu-west-1"]
           Examples.one_agent Hregions).
Defined.

Lemma constructor_ready_witness :
  ["us-east-1"; "eu-west-1"] ≠ [] ∧ 2 ≤ 3
  ∧ ∃ s g',
      __init__ 3 1 ["us-east-1"; "eu-west-1"] Examples.one_agent
      = (Ok tt, {| self := s; env := g' |})
      ∧ ready s.
Proof.
  assert (Hregions : ["us-east-1"; "eu-west-1"] ≠ []) by discriminate.
  assert (Hn : 2 ≤ 3) by lia.
  split; [exact Hregions |]. split; [exact Hn |].
  destruct (constructor_ready 3 1 ["us-east-1"; "eu-west-1"]
              Examples.one_agent Hregions Hn)
    as (s & g' & Hrun & Hready & _).
  exists s, g'. exact (conj Hrun Hready).
Defined.

Lemma constructor_needs_regions_witness :
  (0 < 0 ∨ 0 < 1)
  ∧ __init__ 0 1 [] Examples.two_agents
    = (Raise IndexError, assigned 0 1 [] (env Examples.two_agents)).
Proof.
  assert (Hsome : 0 < 0 ∨ 0 < 1) by (right; lia).
  split; [exact Hsome |].
  exact (constructor_needs_regions 0 1 Examples.two_agents Hsome).
Defined.

(** ** The clock, and the report from end to end *)

Section ClockFacts.
Context {G : Type} `{Environment G}.
Abbreviation Method := (M (World G)).

Lemma keeps_clock_ret {A} (a : A) : keeps_clock (ret a : Method A).
Proof. intros w. reflexivity. Qed.

Lemma keeps_clock_raise {A} (e : exn) : keeps_clock (raise e : Method A).
Proof. intros w. reflexivity. Qed.

Lemma keeps_clock_gets {A} (f : World G → A) : keeps_clock (gets f).
Proof. intros w. reflexivity. Qed.

Lemma keeps_clock_lift {A} (r : result A) : keeps_clock (lift r : Method A).
Proof. intros w. reflexivity. Qed.

Lemma keeps_clock_bind {A B} (m : Method A) (k : A → Method B) :
  keeps_clock m → (∀ a, keeps_clock (k a)) → keeps_clock (bind m k).
Proof.
  intros Hm Hk w. unfold bind. specialize (Hm w).
  destruct (m w) as [[a | e] w1]; cbn [snd] in *; [| exact Hm].
  by rewrite Hk.
Qed.

Lemma keeps_clock_for_fold {A L} (xs : list A) (body : A → L → Method L)
    (l : L) :
  (∀ x l, keeps_clock (body x l)) → keeps_clock (for_fold xs body l).
Proof.
  intros Hbody. revert l. induction xs as [| x xs IH]; intros l.
  - apply keeps_clock_ret.
  - cbn [for_fold]. apply keeps_clock_bind; [apply Hbody | intros l'; apply IH].
Qed.

Lemma keeps_clock_set_simulation_time (value : Q) :
  keeps_clock (set_simulation_time value : Method unit).
Proof. intros w. reflexivity. Qed.

Lemma keeps_clock_py_truediv (a b : Q) : keeps_clock (py_truediv a b : Method Q).
Proof.
  unfold py_truediv.
  destruct (Qeq_bool b 0); [apply keeps_clock_raise | apply keeps_clock_ret].
Qed.

Lemma keeps_clock_dict_getitem (d : gmap string Q) (k : string) :
  keeps_clock (dict_getitem d k : Method Q).
Proof.
  unfold dict_getitem.
  destruct (d !! k); [apply keeps_clock_ret | apply keeps_clock_raise].
Qed.

Hypothesis Hapart : clock_apart (G := G).

Lemma keeps_clock_draw_raw : keeps_clock draw_raw.
Proof.
  intros w. unfold draw_raw. pose proof (Hapart (env w)) as [Hraw _].
  by destruct (next_raw (env w)).
Qed.

Lemma keeps_clock_draw_gauss : keeps_clock draw_gauss.
Proof.
  intros w. unfold draw_gauss. pose proof (Hapart (env w)) as [_ Hgauss].
  by destruct (next_gauss (env w)).
Qed.

Lemma keeps_clock_random_random : keeps_clock random_random.
Proof.
  apply keeps_clock_bind;
    [apply keeps_clock_draw_raw | intros; apply keeps_clock_ret].
Qed.

Lemma keeps_clock_random_uniform (a b : Q) : keeps_clock (random_uniform a b).
Proof.
  apply keeps_clock_bind;
    [apply keeps_clock_random_random | intros; apply keeps_clock_ret].
Qed.

Lemma keeps_clock_random_choice {A} (seq : list A) :
  keeps_clock (random_choice seq).
Proof.
  destruct seq as [| x seq]; [apply keeps_clock_raise |].
  apply keeps_clock_bind;
    [apply keeps_clock_draw_raw | intros; apply keeps_clock_ret].
Qed.

Lemma keeps_clock_np_random_normal (loc scale : Q) :
  keeps_clock (np_random_normal loc scale).
Proof.
  unfold np_random_normal.
  destruct (Qlt_bool scale 0); [apply keeps_clock_raise |].
  apply keeps_clock_bind;
    [apply keeps_clock_draw_gauss | intros; apply keeps_clock_ret].
Qed.

Ltac keeps_clock_steps :=
  repeat first
    [ apply keeps_clock_bind; [| intros ?]
    | apply keeps_clock_ret | apply keeps_clock_raise | apply keeps_clock_gets
    | apply keeps_clock_lift | apply keeps_clock_draw_raw
    | apply keeps_clock_draw_gauss | apply keeps_clock_random_random
    | apply keeps_clock_random_uniform | apply keeps_clock_random_choice
    | apply keeps_clock_np_random_normal | apply keeps_clock_dict_getitem
    | apply keeps_clock_py_truediv | apply keeps_clock_set_simulation_time
    | assumption
    | match goal with
      | |- keeps_clock (if ?b then _ else _) => destruct b
      | |- keeps_clock (let (_, _) := ?p in _) => destruct p
      end ].

Lemma keeps_clock_neural_network_predict (x : list Q) (W : ndarray2) :
  keeps_clock (_neural_network_predict x W : Method Q).
Proof. unfold _neural_network_predict. keeps_clock_steps. Qed.

Lemma keeps_clock_calculate_message_latency
    (source_region dest_region : string) (message_size_kb : Q)
    (qos_class : QoSClass) :
  keeps_clock (_calculate_message_latency source_region dest_region
                 message_size_kb qos_class).
Proof.
  pose proof keeps_clock_neural_network_predict.
  unfold _calculate_message_latency. keeps_clock_steps.
Qed.

Lemma keeps_clock_simulate_message_processing
    (message_type : MessageType) (payload_size_kb : Q) :
  keeps_clock (_simulate_message_processing message_type payload_size_kb).
Proof.
  pose proof keeps_clock_neural_network_predict.
  pose proof keeps_clock_calculate_message_latency.
  unfold _simulate_message_processing. keeps_clock_steps.
Qed.

Lemma keeps_clock_large_scale_second (mps second : Z)
    (locals : LargeScaleLocals) :
  keeps_clock (large_scale_second mps second locals).
Proof.
  unfold large_scale_second.
  apply keeps_clock_bind; [apply keeps_clock_set_simulation_time | intros _].
  apply keeps_clock_for_fold. intros i l.
  pose proof keeps_clock_simulate_message_processing.
  unfold large_scale_message. keeps_clock_steps.
Qed.

(** The clock is read once before the loop of the large-scale run and not
    in it. *)
Lemma large_scale_loop_clock (duration_seconds : Z) (w : World G) :
  duration_seconds ≠ 0 →
  clock (env (large_scale_loop duration_seconds w).2)
  = clock (next_time (env w)).2.
Proof.
  intros Hd. unfold large_scale_loop, py_floordiv.
  assert ((duration_seconds =? 0) = false) as -> by lia.
  rewrite bind_ret, (bind_ok _ _ _ _ _ (time_time_run w)).
  match goal with
  | |- clock (env (?m ?w0).2) = _ =>
      assert (Hkeeps : keeps_clock m); [| by rewrite Hkeeps]
  end.
  apply keeps_clock_bind; [| intros; apply keeps_clock_ret].
  apply keeps_clock_for_fold. intros second l.
  apply keeps_clock_large_scale_second.
Qed.

End ClockFacts.

Section ReportFacts.
Context {G : Type} `{Environment G}.
Abbreviation Method := (M (World G)).

Lemma fresh_integrity_score_run (g : G) :
  ∃ score, fresh_integrity_score g = (Ok score, g) ∧ (score == 100)%Q.
Proof.
  destruct (AnalyzerFacts.integrity_score_appends_nothing Analyzer.init)
    as (score & Hrun & Hscore).
  exists score. split; [| exact Hscore].
  unfold fresh_integrity_score. by rewrite Hrun.
Qed.

Lemma construct_ready (n_agents n_routers : Z) (region_names : list string)
    (g : G) :
  region_names ≠ [] → 2 ≤ n_agents →
  ∃ s g', construct n_agents n_routers region_names g = (Ok s, g') ∧ ready s.
Proof.
  intros Hregions Hn.
  destruct (init_ready n_agents n_routers region_names
              {| self := unset; env := g |} Hregions Hn)
    as (s & g' & Hrun & Hready & _).
  exists s, g'. split; [| exact Hready].
  unfold construct. by rewrite Hrun.
Qed.

(** The large-scale run of the report, on a ready simulator: it raises at
    the throughput when the clock shows no elapsed time, and returns
    otherwise. *)
Lemma large_run_of_report (s : IICPNeuralNetworkSimulator) (g : G) :
  ready s →
  ∃ start_time locals w',
    large_scale_loop 300 {| self := s; env := g |}
    = (Ok (start_time, locals), w')
    ∧ if Qeq_bool (clock (env w') - start_time) 0
      then ∃ g',
          on s (run_large_scale_simulation 300) g
          = (Raise ZeroDivisionError, g')
      else ∃ metrics g',
          on s (run_large_scale_simulation 300) g = (Ok metrics, g')
          ∧ metrics_ok 900000 10 metrics.
Proof.
  intros Hready.
  assert (Hd : 0 < 300 ≤ 900000) by lia.
  destruct (large_scale_run_outcome 300 {| self := s; env := g |} Hd Hready)
    as (start_time & locals & w' & Hloop & _ & _ & _ & Hrun).
  cbv zeta in Hrun. change (300 * (900000 / 300)) with 900000 in Hrun.
  exists start_time, locals, w'. split; [exact Hloop |].
  unfold clock, on.
  destruct (Qeq_bool ((next_time (env w')).1 - start_time) 0).
  - eexists. by rewrite Hrun.
  - destruct Hrun as (metrics & g' & Hrun & Herrors & Hrate & Hrate0
                      & Hrate100 & Hlatency & _ & _ & _ & Hmemory).
    exists metrics, g'. rewrite Hrun. split; [reflexivity |].
    exact (conj Herrors (conj Hrate (conj Hrate0 (conj Hrate100
             (conj Hlatency Hmemory))))).
Qed.

Lemma build_run_of_report (s : IICPNeuralNetworkSimulator) (g : G) :
  ready s →
  ∃ metrics g',
    on s run_build_system_simulation g = (Ok metrics, g')
    ∧ metrics_ok 1000 20 metrics
    ∧ (throughput_msg_per_sec metrics == 10 # 3)%Q.
Proof.
  intros Hready.
  destruct (build_run_outcome {| self := s; env := g |} Hready)
    as (metrics & g' & Hrun & Herrors & Hrate & Hrate0 & Hrate100 & Hlatency
        & Hthroughput & _ & _ & Hmemory).
  exists metrics, g'. unfold on. rewrite Hrun.
  split; [reflexivity |]. split; [| exact Hthroughput].
  exact (conj Herrors (conj Hrate (conj Hrate0 (conj Hrate100
           (conj Hlatency Hmemory))))).
Qed.

(** The report after its large-scale run has returned. *)
Lemma report_after_large_run (score : Q) (large_metrics : PerformanceMetrics)
    (g : G) :
  (score == 100)%Q → metrics_ok 900000 10 large_metrics →
  ∃ report g',
    bind (construct 6000 20 ["us-east-1"; "eu-west-1"])
      (λ build_sim,
         bind (on build_sim run_build_system_simulation)
           (λ build_metrics,
              ret {| integrity_score := score;
                     large_scale_metrics := large_metrics;
                     build_metrics := build_metrics;
                     methodology := generate_methodology_explanation |})) g
    = (Ok report, g')
    ∧ report_ok report.
Proof.
  intros Hscore Hlarge.
  destruct (construct_ready 6000 20 ["us-east-1"; "eu-west-1"] g)
    as (build_sim & g1 & Hconstruct & Hready); [done | lia |].
  destruct (build_run_of_report build_sim g1 Hready)
    as (metrics & g2 & Hrun & Hbuild & Hthroughput).
  eexists _, g2.
  rewrite (bind_ok _ _ _ _ _ Hconstruct), (bind_ok _ _ _ _ _ Hrun).
  split; [reflexivity |].
  exact (conj Hscore (conj Hlarge (conj Hbuild (conj Hthroughput eq_refl)))).
Qed.


(** X22.  With a clock that moves forward whenever it is read, and that the
    draws do not move, the report is returned. *)
Theorem report_returns (g : G) :
  clock_apart (G := G) → clock_ticks (G := G) →
  ∃ report g',
    create_performance_validation_report g = (Ok report, g')
    ∧ report_ok report.
Proof.
  intros Hapart Hticks.
  unfold create_performance_validation_report.
  destruct (fresh_integrity_score_run g) as (score & Hscore & Hhundred).
  rewrite (bind_ok _ _ _ _ _ Hscore).
  destruct (construct_ready 25000 100
              ["us-east-1"; "us-west-2"; "eu-west-1"; "ap-south-1";
               "ap-northeast-1"] g)
    as (large_sim & g1 & Hconstruct & Hready); [done | lia |].
  rewrite (bind_ok _ _ _ _ _ Hconstruct).
  destruct (large_run_of_report large_sim g1 Hready)
    as (start_time & locals & w' & Hloop & Hrun).
  assert (Helapsed : (0 < clock (env w') - start_time)%Q).
  { pose proof (large_scale_loop_clock Hapart 300
                  {| self := large_sim; env := g1 |}) as Hclock.
    rewrite Hloop in Hclock. cbn [snd env] in Hclock.
    rewrite Hclock by lia.
    assert (Hd : 0 < 300) by lia.
    destruct (large_scale_loop_run 300 {| self := large_sim; env := g1 |}
                Hd Hready)
      as (outcomes & w'' & Hloop' & _).
    rewrite Hloop in Hloop'. injection Hloop' as -> _ _.
    pose proof (Hticks g1) as Htick. unfold clock in *. cbn [env]. lra. }
  destruct (Qeq_bool (clock (env w') - start_time) 0) eqn:Hzero.
  { apply Qeq_bool_eq in Hzero. lra. }
  destruct Hrun as (metrics & g2 & Hrun & Hlarge).
  rewrite (bind_ok _ _ _ _ _ Hrun).
  by apply report_after_large_run.
Qed.

(** X23.  With a clock that moves forward whenever it is read, and that the
    draws do not move, a large-scale run of [0 < d <= 900000] seconds on a
    ready simulator returns: the elapsed time is the difference of two
    consecutive readings of the clock, and the throughput, the message count
    over it, is positive. *)
Theorem large_scale_run_returns (duration_seconds : Z) (w : World G) :
  clock_apart (G := G) → clock_ticks (G := G) →
  0 < duration_seconds ≤ 900000 → ready (self w) →
  let count := duration_seconds * (900000 / duration_seconds) in
  let elapsed := (clock (next_time (env w)).2 - clock (env w))%Q in
  ∃ metrics w',
    run_large_scale_simulation duration_seconds w = (Ok metrics, w')
    ∧ metrics_ok count 10 metrics
    ∧ throughput_msg_per_sec metrics = (inject_Z count / elapsed)%Q
    ∧ (0 < throughput_msg_per_sec metrics)%Q.
Proof.
  intros Hapart Hticks Hd Hready count elapsed.
  destruct (large_scale_run_outcome duration_seconds w Hd Hready)
    as (start_time & locals & w' & Hloop & _ & _ & Hcount & Hrun).
  fold count in Hcount, Hrun. cbv zeta in Hrun.
  assert (Hstart : start_time = clock (env w)).
  { destruct (large_scale_loop_run duration_seconds w (proj1 Hd) Hready)
      as (outcomes & w'' & Hloop' & _).
    rewrite Hloop in Hloop'. by injection Hloop' as -> _ _. }
  assert (Hfinish : (next_time (env w')).1 = clock (next_time (env w)).2).
  { pose proof (large_scale_loop_clock Hapart duration_seconds w) as Hclock.
    rewrite Hloop in Hclock. apply Hclock. lia. }
  rewrite Hfinish, Hstart in Hrun. fold elapsed in Hrun.
  assert (Helapsed : (0 < elapsed)%Q).
  { pose proof (Hticks (env w)). unfold elapsed. lra. }
  destruct (Qeq_bool elapsed 0) eqn:Hzero.
  { apply Qeq_bool_eq in Hzero. lra. }
  destruct Hrun as (metrics & g' & Hrun & Herrors & Hrate & Hrate0
                    & Hrate100 & Hlatency & Hthroughput & _ & _ & Hmemory).
  exists metrics, {| self := self w'; env := g' |}.
  split; [exact Hrun |].
  split; [exact (conj Herrors (conj Hrate (conj Hrate0 (conj Hrate100
                   (conj Hlatency Hmemory))))) |].
  split; [exact Hthroughput |].
  rewrite Hthroughput. apply Qlt_shift_div_l; [exact Helapsed |].
  rewrite Qmult_0_l. change 0%Q with (inject_Z 0). by rewrite <- Zlt_Qlt.
Qed.

End ReportFacts.

Lemma report_returns_witness :
  clock_apart (G := Counters) ∧ clock_ticks (G := Counters)
  ∧ ∃ report g',
      create_performance_validation_report {| draws := 0; readings := 0 |}
      = (Ok report, g')
      ∧ report_ok report.
Proof.
  assert (Hapart : clock_apart (G := Counters))
    by (intros [d t]; split; reflexivity).
  assert (Hticks : clock_ticks (G := Counters)).
  { intros [d t]. unfold clock. cbn [next_time Counters_environment fst snd
                                      readings].
    rewrite <- Zlt_Qlt. lia. }
  split; [exact Hapart |]. split; [exact Hticks |].
  exact (report_returns {| draws := 0; readings := 0 |} Hapart Hticks).
Defined.

Lemma large_scale_run_returns_witness :
  clock_apart (G := Counters) ∧ clock_ticks (G := Counters)
  ∧ 0 < 300 ≤ 900000
  ∧ ready (Examples.simulator [Examples.east; Examples.west])
  ∧ ∃ metrics w',
      run_large_scale_simulation 300
        {| self := Examples.simulator [Examples.east; Examples.west];
           env := {| draws := 0; readings := 0 |} |}
      = (Ok metrics, w')
      ∧ (0 < throughput_msg_per_sec metrics)%Q.
Proof.
  assert (Hapart : clock_apart (G := Counters))
    by (intros [d t]; split; reflexivity).
  assert (Hticks : clock_ticks (G := Counters)).
  { intros [d t]. unfold clock. cbn [next_time Counters_environment fst snd
                                      readings].
    rewrite <- Zlt_Qlt. lia. }
  assert (Hd : 0 < 300 ≤ 900000) by lia.
  split; [exact Hapart |]. split; [exact Hticks |]. split; [exact Hd |].
  split; [exact ExampleFacts.two_agents_ready |].
  destruct (large_scale_run_returns 300
              {| self := Examples.simulator [Examples.east; Examples.west];
                 env := {| draws := 0; readings := 0 |} |}
              Hapart Hticks Hd ExampleFacts.two_agents_ready)
    as (metrics & w' & Hrun & _ & _ & Hthroughput).
  exists metrics, w'. exact (conj Hrun Hthroughput).
Defined.
